(** * MS-AMP: the distributed MNIST example, [examples/mnist_ddp.py]

    The script is glue around calls into torch, torchvision, argparse and
    msamp.  It is embedded as a program in a small monad that records every
    call the script makes into one of those libraries (with the source line
    of the call site) and lets any such call raise.  What the libraries
    answer is supplied by a [World]. *)

From Stdlib Require Import List ZArith QArith String Bool Lia.
Import ListNotations.
Open Scope string_scope.
Open Scope Z_scope.
Open Scope list_scope.
Set Warnings "-register-all".

(** ** Values handled by the script *)

Inductive Device := Cuda | Cpu.

Inductive Layer :=
| Conv2d (in_channels out_channels kernel_size stride : Z)
| Dropout (p : Q)
| Linear (in_features out_features : Z)
(* what [msamp.initialize] leaves in the place of a layer *)
| MsampLayer (l : Layer) (opt_level : string).

(** The attributes assigned by [Net.__init__], lines 22-27. *)
Record Net := mkNet {
  conv1 : Layer;
  conv2 : Layer;
  dropout1 : Layer;
  dropout2 : Layer;
  fc1 : Layer;
  fc2 : Layer
}.

Inductive Model :=
| MNet (n : Net)
| MTo (m : Model) (d : Device)
| MMsamp (m : Model) (o : Optimizer) (opt_level : string)
| MDDP (m : Model) (device_ids : list (option Z)) (output_device : option Z)
with Optimizer :=
| OAdamW (params_of : Model) (lr : Q)
| OMsamp (m : Model) (o : Optimizer) (opt_level : string).

(** The [Net] whose [forward] a model runs.  [.to(device)] and the
    DistributedDataParallel wrapper hand on to the module they were given;
    the model [msamp.initialize] returns is that module with its layers as
    the library left them. *)
Fixpoint net_of (m : Model) : Net :=
  match m with
  | MNet n => n
  | MTo m' _ => net_of m'
  | MMsamp m' _ lvl =>
      let n := net_of m' in
      mkNet (MsampLayer (conv1 n) lvl) (MsampLayer (conv2 n) lvl)
        (MsampLayer (dropout1 n) lvl) (MsampLayer (dropout2 n) lvl)
        (MsampLayer (fc1 n) lvl) (MsampLayer (fc2 n) lvl)
  | MDDP m' _ _ => net_of m'
  end.

(** [model.module] of a DistributedDataParallel wrapper. *)
Definition module (m : Model) : Model :=
  match m with
  | MDDP inner _ _ => inner
  | _ => m
  end.

Inductive Transform :=
| ToTensor
| Normalize (mean std : list Q)
| Compose (ts : list Transform).

Inductive Dataset :=
| MNIST (root : string) (train download : bool) (transform : Transform).

Inductive Sampler :=
| DistributedSampler (d : Dataset) (shuffle : bool) (epoch : Z)
| SequentialSampler (d : Dataset).

(** [train_sampler.set_epoch(epoch)] mutates the sampler the loader holds;
    here the update is explicit. *)
Definition set_epoch (s : Sampler) (epoch : Z) : Sampler :=
  match s with
  | DistributedSampler d sh _ => DistributedSampler d sh epoch
  | SequentialSampler d => SequentialSampler d
  end.

Inductive KwVal := KInt (z : Z) | KBool (b : bool).

(** A keyword dictionary, in insertion order. *)
Definition Kwargs := list (string * KwVal).

Fixpoint kw_set (k : string) (v : KwVal) (d : Kwargs) : Kwargs :=
  match d with
  | [] => [(k, v)]
  | (k', v') :: rest =>
      if String.eqb k k' then (k, v) :: rest else (k', v') :: kw_set k v rest
  end.

(** [dict.update]. *)
Definition kw_update (d extra : Kwargs) : Kwargs :=
  fold_left (fun acc kv => kw_set (fst kv) (snd kv) acc) extra d.

Record DataLoader := mkLoader {
  dataset : Dataset;
  sampler : Sampler;
  shuffle : option bool;
  kwargs : Kwargs
}.

Definition with_sampler (l : DataLoader) (s : Sampler) : DataLoader :=
  mkLoader (dataset l) s (shuffle l) (kwargs l).

Inductive Tensor :=
| TSample (id len : Z)
| TTo (t : Tensor) (d : Device)
| TLayer (l : Layer) (x : Tensor)
| TRelu (x : Tensor)
| TMaxPool2d (x : Tensor) (kernel_size : Z)
| TFlatten (x : Tensor) (start_dim : Z)
| TLogSoftmax (x : Tensor) (dim : Z)
| TNllLoss (output target : Tensor) (reduction : string)
| TArgmax (x : Tensor) (dim : Z) (keepdim : bool)
| TViewAs (x other : Tensor)
| TEq (x other : Tensor)
| TSum (x : Tensor).

(** [len(data)]: the size of the leading dimension. *)
Fixpoint tensor_len (t : Tensor) : Z :=
  match t with
  | TSample _ n => n
  | TTo x _ => tensor_len x
  | TLayer _ x => tensor_len x
  | TRelu x => tensor_len x
  | TMaxPool2d x _ => tensor_len x
  | TFlatten x _ => tensor_len x
  | TLogSoftmax x _ => tensor_len x
  | TNllLoss _ _ _ => 0
  | TArgmax x _ _ => tensor_len x
  | TViewAs _ other => tensor_len other
  | TEq x _ => tensor_len x
  | TSum _ => 0
  end.

(** One item of a loader: [(data, target)]. *)
Record Batch := mkBatch { data : Tensor; target : Tensor }.

(** ** Command line *)

Inductive ArgType := ty_int | ty_float | ty_str.

Inductive ArgDefault :=
| DInt (z : Z) | DFloat (q : Q) | DBool (b : bool) | DStr (s : string) | DNone.

(** The arguments of one [parser.add_argument] call. *)
Record ArgSpec := mkArg {
  flag : string;
  type : option ArgType;
  action : option string;
  default : ArgDefault;
  metavar : option string;
  help : string
}.

(** The namespace returned by [parser.parse_args()]; floats are only handed
    on to the framework and are kept as the rationals they denote. *)
Record Args := mkArgs {
  batch_size : Z;
  test_batch_size : Z;
  epochs : Z;
  lr : Q;
  gamma : Q;
  no_cuda : bool;
  dry_run : bool;
  seed : Z;
  log_interval : Z;
  save_model : bool;
  local_rank : option Z;
  enable_msamp : bool;
  opt_level : string
}.

(** ** Calls into the libraries *)

Inductive Op :=
(* argparse *)
| ArgumentParser (description : string)
| AddArgument (a : ArgSpec)
| ParseArgs
(* torch.cuda, torch.distributed, torch *)
| CudaIsAvailable
| CudaSetDevice (d : option Z)
| CudaSynchronize
| InitProcessGroup (backend init_method : string)
| GetRank
| GetWorldSize
| ManualSeed (s : Z)
| TorchDevice (name : string)
| NoGrad
| Save (m : Model) (path : string)
| StateDict (m : Model)
(* torchvision, torch.utils.data *)
| NewTransform (t : Transform)
| NewDataset (d : Dataset)
| NewSampler (s : Sampler)
| NewDataLoader (l : DataLoader)
| SamplerSetEpoch (s : Sampler) (epoch : Z)
| LoaderIter (l : DataLoader)
| LoaderNext (l : DataLoader)
(* torch.nn *)
| ModuleInit
| NewLayer (l : Layer)
| ModuleTo (m : Model) (d : Device)
| ModelTrain (m : Model)
| ModelEval (m : Model)
| ModelCall (m : Model) (x : Tensor)
| Parameters (m : Model)
| NewDDP (m : Model) (device_ids : list (option Z)) (output_device : option Z)
(* torch.optim, msamp *)
| NewAdamW (params_of : Model) (lr : Q)
| NewStepLR (o : Optimizer) (step_size : Z) (gamma : Q)
| MsampInitialize (m : Model) (o : Optimizer) (opt_level : string)
| ZeroGrad (o : Optimizer)
| AllReduceGrads (o : Optimizer) (m : Model)
| OptimizerStep (o : Optimizer)
| SchedulerStep (o : Optimizer)
(* tensors and torch.nn.functional *)
| TensorTo (t : Tensor) (d : Device)
| ApplyLayer (l : Layer) (x : Tensor)
| Relu (x : Tensor)
| MaxPool2d (x : Tensor) (kernel_size : Z)
| Flatten (x : Tensor) (start_dim : Z)
| LogSoftmax (x : Tensor) (dim : Z)
| NllLoss (output target : Tensor) (reduction : string)
| Backward (loss : Tensor)
| Item (t : Tensor)
| Argmax (x : Tensor) (dim : Z) (keepdim : bool)
| ViewAs (x other : Tensor)
| TensorEq (x other : Tensor)
| TensorSum (x : Tensor)
(* print *)
| PrintMsamp (opt_level : string)
| PrintTrain (epoch seen total batch_idx n_batches : Z) (loss : Tensor)
| PrintTest (losses corrects : list Tensor) (total : Z).

(** A recorded call: the source line of the call site, whether it is made
    under [torch.no_grad()], and the call. *)
Record Event := mkEvent { line : nat; under_no_grad : bool; op : Op }.

Inductive Exn :=
| ZeroDivisionError
| TypeError
| UnboundLocalError
| LibraryError (name : string).

(** ** The monad: recorded calls that may raise *)

(** Whether a call raises, given the calls made before it. *)
Definition Oracle := list Event -> Event -> option Exn.

Definition Res (A : Type) := (Exn + A)%type.

(** A computation reads the no-grad mode, the oracle and the calls made so
    far, and returns the calls it made and an exception or a value. *)
Definition M (A : Type) := bool -> Oracle -> list Event -> list Event * Res A.

Definition ret {A} (a : A) : M A := fun _ _ _ => ([], inr a).

Definition raise {A} (x : Exn) : M A := fun _ _ _ => ([], inl x).

Definition bind {A B} (m : M A) (f : A -> M B) : M B :=
  fun g r h =>
    match m g r h with
    | (d1, inl x) => (d1, inl x)
    | (d1, inr a) =>
        match f a g r (h ++ d1) with
        | (d2, res) => (d1 ++ d2, res)
        end
    end.

Definition call (l : nat) (o : Op) : M unit :=
  fun g r h =>
    let e := mkEvent l g o in
    ([e], match r h e with Some x => inl x | None => inr tt end).

(** The body of a [with torch.no_grad():] block. *)
Definition no_grad {A} (m : M A) : M A := fun _ r h => m true r h.

(** [try: m except Exception as x: handler x]; the script never uses it. *)
Definition try_except {A} (m : M A) (handler : Exn -> M A) : M A :=
  fun g r h =>
    match m g r h with
    | (d1, inl x) =>
        match handler x g r (h ++ d1) with
        | (d2, res) => (d1 ++ d2, res)
        end
    | (d1, inr a) => (d1, inr a)
    end.

Declare Scope py_scope.
Delimit Scope py_scope with py.
Notation "x <- m ;; k" := (bind m (fun x => k))
  (at level 61, m at next level, right associativity) : py_scope.
Notation "m ;; k" := (bind m (fun _ => k))
  (at level 61, right associativity) : py_scope.
Open Scope py_scope.

(** A call that returns the value [a]. *)
Definition call_ret {A} (l : nat) (o : Op) (a : A) : M A :=
  call l o ;; ret a.

(** ** What the libraries answer *)

Record World := mkWorld {
  args : Args;
  cuda_available : bool;
  rank : Z;
  world_size : Z;
  dataset_len : Dataset -> Z;
  loader_batches : DataLoader -> list Batch;
  has_all_reduce_grads : Optimizer -> bool
}.

(** ** Wrappers for calls that return a value *)

Inductive Scheduler := StepLR (o : Optimizer) (step_size : Z) (gamma : Q).

Definition new_layer (l : nat) (lay : Layer) : M Layer :=
  call_ret l (NewLayer lay) lay.

Definition tensor_to (l : nat) (t : Tensor) (d : Device) : M Tensor :=
  call_ret l (TensorTo t d) (TTo t d).

Definition nll_loss (l : nat) (output tgt : Tensor) (reduction : string)
  : M Tensor :=
  call_ret l (NllLoss output tgt reduction) (TNllLoss output tgt reduction).

Definition get_rank (l : nat) (w : World) : M Z :=
  call_ret l GetRank (rank w).

Definition get_world_size (l : nat) (w : World) : M Z :=
  call_ret l GetWorldSize (world_size w).

Definition add_argument (l : nat) (flag : string) (type : option ArgType)
  (action : option string) (default : ArgDefault) (metavar : option string)
  (help : string) : M unit :=
  call l (AddArgument (mkArg flag type action default metavar help)).

(** [range(lo, hi)]. *)
Definition range (lo hi : Z) : list Z :=
  map (fun i => lo + Z.of_nat i) (seq 0 (Z.to_nat (hi - lo))).

(** ** Loops *)

(** How one pass through a loop body ends: fall through, or [break]. *)
Inductive Flow (S : Type) := Continue (s : S) | Break (s : S).
Arguments Continue {S} s.
Arguments Break {S} s.

(** [for batch_idx, b in enumerate(loader)] once the iterator exists: every
    pass starts by asking the loader for the next item, and the pass that
    finds none ends the loop. *)
Fixpoint for_batches {S} (l : nat) (loader : DataLoader) (batches : list Batch)
  (batch_idx : Z) (body : Z -> Batch -> S -> M (Flow S)) (s : S) : M S :=
  match batches with
  | [] => call l (LoaderNext loader) ;; ret s
  | b :: rest =>
      call l (LoaderNext loader) ;;
      fl <- body batch_idx b s ;;
      match fl with
      | Break s' => ret s'
      | Continue s' => for_batches l loader rest (batch_idx + 1) body s'
      end
  end.

Definition for_loader {S} (w : World) (l : nat) (loader : DataLoader)
  (body : Z -> Batch -> S -> M (Flow S)) (s : S) : M S :=
  call l (LoaderIter loader) ;;
  for_batches l loader (loader_batches w loader) 0 body s.

(** [for x in xs] over a plain list. *)
Fixpoint for_each {A} (xs : list A) (body : A -> M unit) : M unit :=
  match xs with
  | [] => ret tt
  | x :: rest => body x ;; for_each rest body
  end.

(** ** The script *)

(** [Net.__init__], lines 19-27. *)
Definition Net_init : M Net :=
  call 21 ModuleInit ;;
  conv1 <- new_layer 22 (Conv2d 1 32 3 1) ;;
  conv2 <- new_layer 23 (Conv2d 32 64 3 1) ;;
  dropout1 <- new_layer 24 (Dropout 0.25) ;;
  dropout2 <- new_layer 25 (Dropout 0.5) ;;
  fc1 <- new_layer 26 (Linear 9216 128) ;;
  fc2 <- new_layer 27 (Linear 128 10) ;;
  ret (mkNet conv1 conv2 dropout1 dropout2 fc1 fc2).

(** [Net.forward], lines 29-50. *)
Definition forward (self : Net) (x : Tensor) : M Tensor :=
  x <- call_ret 38 (ApplyLayer (conv1 self) x) (TLayer (conv1 self) x) ;;
  x <- call_ret 39 (Relu x) (TRelu x) ;;
  x <- call_ret 40 (ApplyLayer (conv2 self) x) (TLayer (conv2 self) x) ;;
  x <- call_ret 41 (Relu x) (TRelu x) ;;
  x <- call_ret 42 (MaxPool2d x 2) (TMaxPool2d x 2) ;;
  x <- call_ret 43 (ApplyLayer (dropout1 self) x) (TLayer (dropout1 self) x) ;;
  x <- call_ret 44 (Flatten x 1) (TFlatten x 1) ;;
  x <- call_ret 45 (ApplyLayer (fc1 self) x) (TLayer (fc1 self) x) ;;
  x <- call_ret 46 (Relu x) (TRelu x) ;;
  x <- call_ret 47 (ApplyLayer (dropout2 self) x) (TLayer (dropout2 self) x) ;;
  x <- call_ret 48 (ApplyLayer (fc2 self) x) (TLayer (fc2 self) x) ;;
  output <- call_ret 49 (LogSoftmax x 1) (TLogSoftmax x 1) ;;
  ret output.

(** [model(x)], lines 68 and 101: calling the module runs [Net.forward] on
    the input, and what [forward] returns is the output. *)
Definition model_call (l : nat) (m : Model) (x : Tensor) : M Tensor :=
  call l (ModelCall m x) ;;
  forward (net_of m) x.

(** The body of the loop of [train], lines 66-84. *)
Definition train_body (w : World) (args : Args) (model : Model)
  (device : Device) (train_loader : DataLoader) (optimizer : Optimizer)
  (epoch : Z) (batch_idx : Z) (b : Batch) (_ : unit) : M (Flow unit) :=
  data <- tensor_to 66 (data b) device ;;
  target <- tensor_to 66 (target b) device ;;
  call 67 (ZeroGrad optimizer) ;;
  output <- model_call 68 model data ;;
  loss <- nll_loss 69 output target "mean" ;;
  call 70 (Backward loss) ;;
  (if has_all_reduce_grads w optimizer
   then call 72 (AllReduceGrads optimizer model)
   else ret tt) ;;
  call 73 (OptimizerStep optimizer) ;;
  rank <- get_rank 74 w ;;
  (if rank =? 0 then
     if log_interval args =? 0 then raise ZeroDivisionError
     else if batch_idx mod log_interval args =? 0 then
       ws <- get_world_size 79 w ;;
       call 80 (Item loss) ;;
       call 76 (PrintTrain epoch (ws * batch_idx * tensor_len data)
                  (dataset_len w (dataset train_loader)) batch_idx
                  (Z.of_nat (List.length (loader_batches w train_loader))) loss)
     else ret tt
   else ret tt) ;;
  if dry_run args then ret (Break tt) else ret (Continue tt).

(** [train], lines 53-84. *)
Definition train (w : World) (args : Args) (model : Model) (device : Device)
  (train_loader : DataLoader) (optimizer : Optimizer) (epoch : Z) : M unit :=
  call 64 (ModelTrain model) ;;
  for_loader w 65 train_loader
    (train_body w args model device train_loader optimizer epoch) tt.

(** The body of the loop of [test], lines 100-104; the state is the pair of
    the summands of [test_loss] and of [correct]. *)
Definition test_body (model : Model) (device : Device) (_ : Z) (b : Batch)
  (acc : list Tensor * list Tensor) : M (Flow (list Tensor * list Tensor)) :=
  data <- tensor_to 100 (data b) device ;;
  target <- tensor_to 100 (target b) device ;;
  output <- model_call 101 model data ;;
  batch_loss <- nll_loss 102 output target "sum" ;;
  call 102 (Item batch_loss) ;;
  pred <- call_ret 103 (Argmax output 1 true) (TArgmax output 1 true) ;;
  view <- call_ret 104 (ViewAs target pred) (TViewAs target pred) ;;
  eq <- call_ret 104 (TensorEq pred view) (TEq pred view) ;;
  hits <- call_ret 104 (TensorSum eq) (TSum eq) ;;
  call 104 (Item hits) ;;
  ret (Continue (fst acc ++ [batch_loss], snd acc ++ [hits])).

(** [test], lines 87-112. *)
Definition test (w : World) (model : Model) (device : Device)
  (test_loader : DataLoader) : M unit :=
  call 95 (ModelEval model) ;;
  call 98 NoGrad ;;
  acc <- no_grad (for_loader w 99 test_loader (test_body model device)
                    ([], [])) ;;
  let n := dataset_len w (dataset test_loader) in
  if n =? 0 then raise ZeroDivisionError
  else call 108 (PrintTest (fst acc) (snd acc) n).

(** One pass of the epoch loop of [main], lines 195-199. *)
Definition epoch_body (w : World) (args : Args) (model : Model)
  (device : Device) (train_sampler : Sampler) (train_loader test_loader
  : DataLoader) (optimizer : Optimizer) (scheduler : Scheduler) (epoch : Z)
  : M unit :=
  call 195 (SamplerSetEpoch train_sampler epoch) ;;
  train w args model device
    (with_sampler train_loader (set_epoch train_sampler epoch))
    optimizer epoch ;;
  rank <- get_rank 197 w ;;
  (if rank =? 0 then test w (module model) device test_loader else ret tt) ;;
  match scheduler with StepLR o _ _ => call 199 (SchedulerStep o) end.

(** [main], lines 115-203. *)
Definition main (w : World) : M unit :=
  call 118 (ArgumentParser "PyTorch MNIST Example") ;;
  add_argument 119 "--batch-size" (Some ty_int) None (DInt 64) (Some "N")
    "input batch size for training (default: 64)" ;;
  add_argument 122 "--test-batch-size" (Some ty_int) None (DInt 1000)
    (Some "N") "input batch size for testing (default: 1000)" ;;
  add_argument 125 "--epochs" (Some ty_int) None (DInt 4) (Some "N")
    "number of epochs to train (default: 4)" ;;
  add_argument 126 "--lr" (Some ty_float) None (DFloat 0.0003) (Some "LR")
    "learning rate (default: 1.0)" ;;
  add_argument 127 "--gamma" (Some ty_float) None (DFloat 0.7) (Some "M")
    "Learning rate step gamma (default: 0.7)" ;;
  add_argument 128 "--no-cuda" None (Some "store_true") (DBool false) None
    "disables CUDA training" ;;
  add_argument 129 "--dry-run" None (Some "store_true") (DBool false) None
    "quickly check a single pass" ;;
  add_argument 130 "--seed" (Some ty_int) None (DInt 1) (Some "S")
    "random seed (default: 1)" ;;
  add_argument 131 "--log-interval" (Some ty_int) None (DInt 10) (Some "N")
    "how many batches to wait before logging training status" ;;
  add_argument 138 "--save-model" None (Some "store_true") (DBool false) None
    "For Saving the current Model" ;;
  add_argument 140 "--local_rank" (Some ty_int) None DNone None
    "local rank, will passed by ddp" ;;
  add_argument 142 "--enable-msamp" None (Some "store_true") (DBool false)
    None "enable MS-AMP" ;;
  add_argument 143 "--opt-level" (Some ty_str) None (DStr "O1") None
    "MS-AMP optimization level" ;;
  args <- call_ret 145 ParseArgs (args w) ;;
  use_cuda <- (if negb (no_cuda args)
               then call_ret 146 CudaIsAvailable (cuda_available w)
               else ret false) ;;
  call 148 (CudaSetDevice (local_rank args)) ;;
  call 149 (InitProcessGroup "nccl" "env://") ;;
  call 151 (ManualSeed (seed args)) ;;
  device <- call_ret 153 (TorchDevice (if use_cuda then "cuda" else "cpu"))
              (if use_cuda then Cuda else Cpu) ;;
  let train_kwargs := [("batch_size", KInt (batch_size args))] in
  let test_kwargs := [("batch_size", KInt (test_batch_size args))] in
  let cuda_kwargs := [("num_workers", KInt 1); ("pin_memory", KBool true)] in
  let train_kwargs :=
    if use_cuda then kw_update train_kwargs cuda_kwargs else train_kwargs in
  let test_kwargs :=
    if use_cuda then kw_update test_kwargs cuda_kwargs else test_kwargs in
  to_tensor <- call_ret 165 (NewTransform ToTensor) ToTensor ;;
  normalize <- call_ret 165 (NewTransform (Normalize [0.1307%Q] [0.3081%Q]))
                 (Normalize [0.1307%Q] [0.3081%Q]) ;;
  transform <- call_ret 165 (NewTransform (Compose [to_tensor; normalize]))
                 (Compose [to_tensor; normalize]) ;;
  dataset1 <- match local_rank args with
              | Some 0 =>
                  call_ret 168 (NewDataset (MNIST "./data" true true transform))
                    (Some (MNIST "./data" true true transform))
              | _ => ret None
              end ;;
  call 169 CudaSynchronize ;;
  dataset1 <- match local_rank args with
              | None => raise TypeError
              | Some lr =>
                  if lr >? 0 then
                    call_ret 171
                      (NewDataset (MNIST "./data" true false transform))
                      (Some (MNIST "./data" true false transform))
                  else ret dataset1
              end ;;
  dataset2 <- call_ret 173 (NewDataset (MNIST "./data" false false transform))
                (MNIST "./data" false false transform) ;;
  match dataset1 with
  | None => raise UnboundLocalError
  | Some dataset1 =>
      train_sampler <- call_ret 175
                         (NewSampler (DistributedSampler dataset1 true 0))
                         (DistributedSampler dataset1 true 0) ;;
      test_sampler <- call_ret 177 (NewSampler (SequentialSampler dataset2))
                        (SequentialSampler dataset2) ;;
      train_loader <- call_ret 179
                        (NewDataLoader
                           (mkLoader dataset1 train_sampler (Some false)
                              train_kwargs))
                        (mkLoader dataset1 train_sampler (Some false)
                           train_kwargs) ;;
      test_loader <- call_ret 180
                       (NewDataLoader
                          (mkLoader dataset2 test_sampler None test_kwargs))
                       (mkLoader dataset2 test_sampler None test_kwargs) ;;
      net <- Net_init ;;
      model <- call_ret 182 (ModuleTo (MNet net) device)
                 (MTo (MNet net) device) ;;
      call 183 (Parameters model) ;;
      optimizer <- call_ret 183 (NewAdamW model (lr args))
                     (OAdamW model (lr args)) ;;
      mo <- (if enable_msamp args then
               call 186 (PrintMsamp (opt_level args)) ;;
               call_ret 187 (MsampInitialize model optimizer (opt_level args))
                 (MMsamp model optimizer (opt_level args),
                  OMsamp model optimizer (opt_level args))
             else ret (model, optimizer)) ;;
      let model := fst mo in
      let optimizer := snd mo in
      model <- call_ret 189
                 (NewDDP model [local_rank args] (local_rank args))
                 (MDDP model [local_rank args] (local_rank args)) ;;
      scheduler <- call_ret 193 (NewStepLR optimizer 1 (gamma args))
                     (StepLR optimizer 1 (gamma args)) ;;
      for_each (range 1 (epochs args + 1))
        (epoch_body w args model device train_sampler train_loader
           test_loader optimizer scheduler) ;;
      if save_model args then
        rank <- get_rank 202 w ;;
        if rank =? 0 then
          call 203 (StateDict model) ;;
          call 203 (Save model "mnist_cnn.pt")
        else ret tt
      else ret tt
  end.

(** ** Runs *)

(** The oracle under which no call raises. *)
Definition no_raise : Oracle := fun _ _ => None.

(** The calls of a run in which no library call raises, and its outcome. *)
Definition events {A} (m : M A) (g : bool) : list Event :=
  fst (m g no_raise []).

Definition result {A} (m : M A) (g : bool) : Res A :=
  snd (m g no_raise []).

(** Running the script: no call made yet, gradients enabled. *)
Definition run_main (w : World) (r : Oracle) : list Event * Res unit :=
  main w false r [].

(** ** Runs under an arbitrary oracle *)

Definition prefix {A} (l1 l2 : list A) : Prop := exists k, l2 = l1 ++ k.

(** Make the calls [evs] in turn after [h], stopping at the first that
    raises; [res] is the outcome when none does. *)
Fixpoint replay {A} (r : Oracle) (h evs : list Event) (res : Res A)
  : list Event * Res A :=
  match evs with
  | [] => ([], res)
  | e :: evs' =>
      match r h e with
      | Some x => ([e], inl x)
      | None =>
          match replay r (h ++ [e]) evs' res with
          | (d, res') => (e :: d, res')
          end
      end
  end.

(** A computation whose run under any oracle is the replay of its run
    without failures: it neither inspects the oracle or the history nor
    goes on after a call that raised. *)
Definition uniform {A} (m : M A) : Prop :=
  forall g r h, m g r h = replay r h (events m g) (result m g).

(** ** The values of the local variables of [main] *)

Definition ev (l : nat) (o : Op) : Event := mkEvent l false o.

Definition use_cuda (w : World) : bool :=
  negb (no_cuda (args w)) && cuda_available w.

Definition device_of (w : World) : Device :=
  if use_cuda w then Cuda else Cpu.

Definition cuda_kwargs : Kwargs :=
  [("num_workers", KInt 1); ("pin_memory", KBool true)].

Definition train_kwargs_of (w : World) : Kwargs :=
  if use_cuda w
  then kw_update [("batch_size", KInt (batch_size (args w)))] cuda_kwargs
  else [("batch_size", KInt (batch_size (args w)))].

Definition test_kwargs_of (w : World) : Kwargs :=
  if use_cuda w
  then kw_update [("batch_size", KInt (test_batch_size (args w)))] cuda_kwargs
  else [("batch_size", KInt (test_batch_size (args w)))].

Definition the_transform : Transform :=
  Compose [ToTensor; Normalize [0.1307%Q] [0.3081%Q]].

(** [dataset1]: downloaded by local rank 0, read by the others. *)
Definition dataset1_of (w : World) : Dataset :=
  MNIST "./data" true
    (match local_rank (args w) with Some 0 => true | _ => false end)
    the_transform.

Definition dataset2_of : Dataset := MNIST "./data" false false the_transform.

Definition train_sampler_of (w : World) : Sampler :=
  DistributedSampler (dataset1_of w) true 0.

Definition test_sampler_of : Sampler := SequentialSampler dataset2_of.

Definition train_loader_of (w : World) : DataLoader :=
  mkLoader (dataset1_of w) (train_sampler_of w) (Some false)
    (train_kwargs_of w).

Definition test_loader_of (w : World) : DataLoader :=
  mkLoader dataset2_of test_sampler_of None (test_kwargs_of w).

Definition the_net : Net :=
  mkNet (Conv2d 1 32 3 1) (Conv2d 32 64 3 1) (Dropout 0.25) (Dropout 0.5)
    (Linear 9216 128) (Linear 128 10).

(** [Net().to(device)] and the AdamW optimizer over its parameters. *)
Definition plain_model (w : World) : Model := MTo (MNet the_net) (device_of w).

Definition plain_optimizer (w : World) : Optimizer :=
  OAdamW (plain_model w) (lr (args w)).

(** [model] and [optimizer] after lines 185-187. *)
Definition inner_model (w : World) : Model :=
  if enable_msamp (args w)
  then MMsamp (plain_model w) (plain_optimizer w) (opt_level (args w))
  else plain_model w.

Definition the_optimizer (w : World) : Optimizer :=
  if enable_msamp (args w)
  then OMsamp (plain_model w) (plain_optimizer w) (opt_level (args w))
  else plain_optimizer w.

Definition ddp_model (w : World) : Model :=
  MDDP (inner_model w) [local_rank (args w)] (local_rank (args w)).

Definition scheduler_of (w : World) : Scheduler :=
  StepLR (the_optimizer w) 1 (gamma (args w)).

(** The epoch loop of [main] with the values it runs on. *)
Definition epochs_prog (w : World) : M unit :=
  for_each (range 1 (epochs (args w) + 1))
    (epoch_body w (args w) (ddp_model w) (device_of w) (train_sampler_of w)
       (train_loader_of w) (test_loader_of w) (the_optimizer w)
       (scheduler_of w)).

(** ** The calls of [main] when no library call raises *)

Definition parser_events : list Event :=
  [ ev 118 (ArgumentParser "PyTorch MNIST Example");
    ev 119 (AddArgument (mkArg "--batch-size" (Some ty_int) None (DInt 64)
      (Some "N") "input batch size for training (default: 64)"));
    ev 122 (AddArgument (mkArg "--test-batch-size" (Some ty_int) None
      (DInt 1000) (Some "N") "input batch size for testing (default: 1000)"));
    ev 125 (AddArgument (mkArg "--epochs" (Some ty_int) None (DInt 4)
      (Some "N") "number of epochs to train (default: 4)"));
    ev 126 (AddArgument (mkArg "--lr" (Some ty_float) None (DFloat 0.0003)
      (Some "LR") "learning rate (default: 1.0)"));
    ev 127 (AddArgument (mkArg "--gamma" (Some ty_float) None (DFloat 0.7)
      (Some "M") "Learning rate step gamma (default: 0.7)"));
    ev 128 (AddArgument (mkArg "--no-cuda" None (Some "store_true")
      (DBool false) None "disables CUDA training"));
    ev 129 (AddArgument (mkArg "--dry-run" None (Some "store_true")
      (DBool false) None "quickly check a single pass"));
    ev 130 (AddArgument (mkArg "--seed" (Some ty_int) None (DInt 1)
      (Some "S") "random seed (default: 1)"));
    ev 131 (AddArgument (mkArg "--log-interval" (Some ty_int) None (DInt 10)
      (Some "N") "how many batches to wait before logging training status"));
    ev 138 (AddArgument (mkArg "--save-model" None (Some "store_true")
      (DBool false) None "For Saving the current Model"));
    ev 140 (AddArgument (mkArg "--local_rank" (Some ty_int) None DNone None
      "local rank, will passed by ddp"));
    ev 142 (AddArgument (mkArg "--enable-msamp" None (Some "store_true")
      (DBool false) None "enable MS-AMP"));
    ev 143 (AddArgument (mkArg "--opt-level" (Some ty_str) None (DStr "O1")
      None "MS-AMP optimization level"));
    ev 145 ParseArgs ].

Definition device_events (w : World) : list Event :=
  (if no_cuda (args w) then [] else [ev 146 CudaIsAvailable]) ++
  [ ev 148 (CudaSetDevice (local_rank (args w)));
    ev 149 (InitProcessGroup "nccl" "env://");
    ev 151 (ManualSeed (seed (args w)));
    ev 153 (TorchDevice (if use_cuda w then "cuda" else "cpu")) ].

(** Whether lines 167-175 find [dataset1] bound. *)
Definition dataset1_bound (w : World) : bool :=
  match local_rank (args w) with
  | Some k => 0 <=? k
  | None => false
  end.

Definition data_events (w : World) : list Event :=
  [ ev 165 (NewTransform ToTensor);
    ev 165 (NewTransform (Normalize [0.1307%Q] [0.3081%Q]));
    ev 165 (NewTransform the_transform) ] ++
  match local_rank (args w) with
  | None => [ev 169 CudaSynchronize]
  | Some k =>
      (if k =? 0 then [ev 168 (NewDataset (dataset1_of w))] else []) ++
      [ev 169 CudaSynchronize] ++
      (if k >? 0 then [ev 171 (NewDataset (dataset1_of w))] else []) ++
      [ev 173 (NewDataset dataset2_of)] ++
      if 0 <=? k then
        [ ev 175 (NewSampler (train_sampler_of w));
          ev 177 (NewSampler test_sampler_of);
          ev 179 (NewDataLoader (train_loader_of w));
          ev 180 (NewDataLoader (test_loader_of w)) ]
      else []
  end.

Definition model_events (w : World) : list Event :=
  [ ev 21 ModuleInit;
    ev 22 (NewLayer (Conv2d 1 32 3 1));
    ev 23 (NewLayer (Conv2d 32 64 3 1));
    ev 24 (NewLayer (Dropout 0.25));
    ev 25 (NewLayer (Dropout 0.5));
    ev 26 (NewLayer (Linear 9216 128));
    ev 27 (NewLayer (Linear 128 10));
    ev 182 (ModuleTo (MNet the_net) (device_of w));
    ev 183 (Parameters (plain_model w));
    ev 183 (NewAdamW (plain_model w) (lr (args w))) ] ++
  (if enable_msamp (args w) then
     [ ev 186 (PrintMsamp (opt_level (args w)));
       ev 187 (MsampInitialize (plain_model w) (plain_optimizer w)
                 (opt_level (args w))) ]
   else []) ++
  [ ev 189 (NewDDP (inner_model w) [local_rank (args w)]
              (local_rank (args w)));
    ev 193 (NewStepLR (the_optimizer w) 1 (gamma (args w))) ].

Definition save_events (w : World) : list Event :=
  if save_model (args w) then
    ev 202 GetRank ::
    (if rank w =? 0 then
       [ ev 203 (StateDict (ddp_model w));
         ev 203 (Save (ddp_model w) "mnist_cnn.pt") ]
     else [])
  else [].

Definition loop_events (w : World) : list Event :=
  events (epochs_prog w) false ++
  match result (epochs_prog w) false with
  | inr _ => save_events w
  | inl _ => []
  end.

Definition main_events (w : World) : list Event :=
  parser_events ++ device_events w ++ data_events w ++
  if dataset1_bound w then model_events w ++ loop_events w else [].

Definition main_result (w : World) : Res unit :=
  match local_rank (args w) with
  | None => inl TypeError
  | Some k =>
      if 0 <=? k then
        match result (epochs_prog w) false with
        | inl x => inl x
        | inr _ => inr tt
        end
      else inl UnboundLocalError
  end.

(** ** Projections of a trace *)

(** Keep the calls [f] recognises, as what it makes of them. *)
Fixpoint pick {A B} (f : A -> option B) (l : list A) : list B :=
  match l with
  | [] => []
  | a :: rest =>
      match f a with
      | Some b => b :: pick f rest
      | None => pick f rest
      end
  end.

(** ** One pass of the training loop *)

(** Whether the pass for [batch_idx] logs: lines 74-75. *)
Definition logs (w : World) (args : Args) (batch_idx : Z) : bool :=
  (rank w =? 0) && negb (log_interval args =? 0) &&
  (batch_idx mod log_interval args =? 0).

(** What [forward] returns on [x], and the calls it makes when none
    raises. *)
Definition forward_output (self : Net) (x : Tensor) : Tensor :=
  TLogSoftmax
    (TLayer (fc2 self)
       (TLayer (dropout2 self)
          (TRelu
             (TLayer (fc1 self)
                (TFlatten
                   (TLayer (dropout1 self)
                      (TMaxPool2d
                         (TRelu
                            (TLayer (conv2 self)
                               (TRelu (TLayer (conv1 self) x)))) 2)) 1)))))
    1.

Definition forward_events (self : Net) (x : Tensor) (g : bool) : list Event :=
  let x1 := TLayer (conv1 self) x in
  let x2 := TRelu x1 in
  let x3 := TLayer (conv2 self) x2 in
  let x4 := TRelu x3 in
  let x5 := TMaxPool2d x4 2 in
  let x6 := TLayer (dropout1 self) x5 in
  let x7 := TFlatten x6 1 in
  let x8 := TLayer (fc1 self) x7 in
  let x9 := TRelu x8 in
  let x10 := TLayer (dropout2 self) x9 in
  let x11 := TLayer (fc2 self) x10 in
  [ mkEvent 38 g (ApplyLayer (conv1 self) x);
    mkEvent 39 g (Relu x1);
    mkEvent 40 g (ApplyLayer (conv2 self) x2);
    mkEvent 41 g (Relu x3);
    mkEvent 42 g (MaxPool2d x4 2);
    mkEvent 43 g (ApplyLayer (dropout1 self) x5);
    mkEvent 44 g (Flatten x6 1);
    mkEvent 45 g (ApplyLayer (fc1 self) x7);
    mkEvent 46 g (Relu x8);
    mkEvent 47 g (ApplyLayer (dropout2 self) x9);
    mkEvent 48 g (ApplyLayer (fc2 self) x10);
    mkEvent 49 g (LogSoftmax x11 1) ].

(** The calls of one pass when none raises. *)
Definition train_body_events (w : World) (args : Args) (model : Model)
  (device : Device) (train_loader : DataLoader) (optimizer : Optimizer)
  (epoch : Z) (batch_idx : Z) (b : Batch) (g : bool) : list Event :=
  let data' := TTo (data b) device in
  let target' := TTo (target b) device in
  let output := forward_output (net_of model) data' in
  let loss := TNllLoss output target' "mean" in
  [ mkEvent 66 g (TensorTo (data b) device);
    mkEvent 66 g (TensorTo (target b) device);
    mkEvent 67 g (ZeroGrad optimizer);
    mkEvent 68 g (ModelCall model data') ] ++
  forward_events (net_of model) data' g ++
  [ mkEvent 69 g (NllLoss output target' "mean");
    mkEvent 70 g (Backward loss) ] ++
  (if has_all_reduce_grads w optimizer
   then [mkEvent 72 g (AllReduceGrads optimizer model)] else []) ++
  [ mkEvent 73 g (OptimizerStep optimizer);
    mkEvent 74 g GetRank ] ++
  (if logs w args batch_idx then
     [ mkEvent 79 g GetWorldSize;
       mkEvent 80 g (Item loss);
       mkEvent 76 g
         (PrintTrain epoch (world_size w * batch_idx * tensor_len data')
            (dataset_len w (dataset train_loader)) batch_idx
            (Z.of_nat (List.length (loader_batches w train_loader))) loss) ]
   else []).

(** Line 75 divides by [args.log_interval] on rank 0. *)
Definition train_body_result (w : World) (args : Args) : Res (Flow unit) :=
  if (rank w =? 0) && (log_interval args =? 0) then inl ZeroDivisionError
  else inr (if dry_run args then Break tt else Continue tt).

(** The passes the loop makes over [batches] when no call raises. *)
Definition passes (args : Args) (batches : list Batch) : nat :=
  if dry_run args then Nat.min 1 (List.length batches)
  else List.length batches.

(** The optimisation calls of a pass. *)
Inductive Step :=
| s_zero_grad | s_forward | s_loss | s_backward | s_all_reduce_grads | s_step.

Definition step_of (e : Event) : option Step :=
  match op e with
  | ZeroGrad _ => Some s_zero_grad
  | ModelCall _ _ => Some s_forward
  | NllLoss _ _ _ => Some s_loss
  | Backward _ => Some s_backward
  | AllReduceGrads _ _ => Some s_all_reduce_grads
  | OptimizerStep _ => Some s_step
  | _ => None
  end.

(** Their order within one pass. *)
Definition cycle (w : World) (optimizer : Optimizer) : list Step :=
  [s_zero_grad; s_forward; s_loss; s_backward] ++
  (if has_all_reduce_grads w optimizer then [s_all_reduce_grads] else []) ++
  [s_step].

(** ** Concrete worlds *)

Definition two_batches : list Batch :=
  [ mkBatch (TSample 0 64) (TSample 1 64);
    mkBatch (TSample 2 36) (TSample 3 36) ].

Definition msamp_has_all_reduce (o : Optimizer) : bool :=
  match o with
  | OMsamp _ _ _ => true
  | OAdamW _ _ => false
  end.

(** Rank 0 of a job started with
    [--epochs 2 --save-model --local_rank 0 --enable-msamp]. *)
Definition demo_args : Args :=
  mkArgs 64 1000 2 0.0003 0.7 false false 1 10 true (Some 0) true "O1".

Definition demo_world : World :=
  mkWorld demo_args true 0 2 (fun _ => 100) (fun _ => two_batches)
    msamp_has_all_reduce.

(** Rank 1 of the same job. *)
Definition rank1_world : World :=
  mkWorld
    (mkArgs 64 1000 2 0.0003 0.7 false false 1 10 true (Some 1) true "O1")
    true 1 2 (fun _ => 100) (fun _ => two_batches) msamp_has_all_reduce.

(** The same job with [--dry-run]. *)
Definition dry_args : Args :=
  mkArgs 64 1000 2 0.0003 0.7 false true 1 10 true (Some 0) true "O1".

(** ** The training loop (claims C2 and C9) *)

(** The first epoch of training of the demonstration job. *)
Definition demo_train_run : list Event * Res unit :=
  train demo_world demo_args (ddp_model demo_world) Cuda
    (train_loader_of demo_world) (the_optimizer demo_world) 1
    false no_raise [].

(** The batch a call moves to the device, and the loader a call asks for
    its next item. *)
Definition moved_of (e : Event) : option Tensor :=
  match op e with
  | TensorTo t _ => Some t
  | _ => None
  end.

Definition asked_of (e : Event) : option DataLoader :=
  match op e with
  | LoaderNext l => Some l
  | _ => None
  end.

(** The same with [--dry-run]. *)
Definition demo_dry_run : list Event * Res unit :=
  train demo_world dry_args (ddp_model demo_world) Cuda
    (train_loader_of demo_world) (the_optimizer demo_world) 1
    false no_raise [].

(** ** The calls made inside [train], [test] and the epoch loop *)

(** The calls [forward] can make. *)
Inductive forward_event (g : bool) : Event -> Prop :=
| fe_conv1 l x : forward_event g (mkEvent 38 g (ApplyLayer l x))
| fe_relu1 x : forward_event g (mkEvent 39 g (Relu x))
| fe_conv2 l x : forward_event g (mkEvent 40 g (ApplyLayer l x))
| fe_relu2 x : forward_event g (mkEvent 41 g (Relu x))
| fe_max_pool2d x k : forward_event g (mkEvent 42 g (MaxPool2d x k))
| fe_dropout1 l x : forward_event g (mkEvent 43 g (ApplyLayer l x))
| fe_flatten x d : forward_event g (mkEvent 44 g (Flatten x d))
| fe_fc1 l x : forward_event g (mkEvent 45 g (ApplyLayer l x))
| fe_relu3 x : forward_event g (mkEvent 46 g (Relu x))
| fe_dropout2 l x : forward_event g (mkEvent 47 g (ApplyLayer l x))
| fe_fc2 l x : forward_event g (mkEvent 48 g (ApplyLayer l x))
| fe_log_softmax x d : forward_event g (mkEvent 49 g (LogSoftmax x d)).

(** The calls [train] can make, with the conditions under which it makes
    them. *)
Inductive train_event (w : World) (args : Args) (model : Model)
  (optimizer : Optimizer) : Event -> Prop :=
| te_train g : train_event w args model optimizer (mkEvent 64 g (ModelTrain model))
| te_iter g l : train_event w args model optimizer (mkEvent 65 g (LoaderIter l))
| te_next g l : train_event w args model optimizer (mkEvent 65 g (LoaderNext l))
| te_to g t d : train_event w args model optimizer (mkEvent 66 g (TensorTo t d))
| te_zero_grad g :
    train_event w args model optimizer (mkEvent 67 g (ZeroGrad optimizer))
| te_forward g x :
    train_event w args model optimizer (mkEvent 68 g (ModelCall model x))
| te_loss g o t :
    train_event w args model optimizer (mkEvent 69 g (NllLoss o t "mean"))
| te_backward g l :
    train_event w args model optimizer (mkEvent 70 g (Backward l))
| te_all_reduce g :
    has_all_reduce_grads w optimizer = true ->
    train_event w args model optimizer
      (mkEvent 72 g (AllReduceGrads optimizer model))
| te_step g :
    train_event w args model optimizer (mkEvent 73 g (OptimizerStep optimizer))
| te_rank g : train_event w args model optimizer (mkEvent 74 g GetRank)
| te_world_size g :
    rank w = 0 ->
    train_event w args model optimizer (mkEvent 79 g GetWorldSize)
| te_item g l :
    rank w = 0 -> train_event w args model optimizer (mkEvent 80 g (Item l))
| te_print g epoch seen total batch_idx n l :
    rank w = 0 -> log_interval args <> 0 ->
    batch_idx mod log_interval args = 0 ->
    train_event w args model optimizer
      (mkEvent 76 g (PrintTrain epoch seen total batch_idx n l))
| te_net g e : forward_event g e -> train_event w args model optimizer e.

(** The calls [test] can make. *)
Inductive test_event (model : Model) : Event -> Prop :=
| se_eval g : test_event model (mkEvent 95 g (ModelEval model))
| se_no_grad g : test_event model (mkEvent 98 g NoGrad)
| se_iter l : test_event model (mkEvent 99 true (LoaderIter l))
| se_next l : test_event model (mkEvent 99 true (LoaderNext l))
| se_to t d : test_event model (mkEvent 100 true (TensorTo t d))
| se_forward x : test_event model (mkEvent 101 true (ModelCall model x))
| se_loss o t : test_event model (mkEvent 102 true (NllLoss o t "sum"))
| se_loss_item l : test_event model (mkEvent 102 true (Item l))
| se_argmax x : test_event model (mkEvent 103 true (Argmax x 1 true))
| se_view_as x y : test_event model (mkEvent 104 true (ViewAs x y))
| se_eq x y : test_event model (mkEvent 104 true (TensorEq x y))
| se_sum x : test_event model (mkEvent 104 true (TensorSum x))
| se_hits_item x : test_event model (mkEvent 104 true (Item x))
| se_print g losses corrects n :
    test_event model (mkEvent 108 g (PrintTest losses corrects n))
| se_net e : forward_event true e -> test_event model e.

(** ** The epoch loop of [main] *)

(** The calls the epoch loop can make. *)
Inductive loop_event (w : World) : Event -> Prop :=
| le_set_epoch g epoch :
    loop_event w (mkEvent 195 g (SamplerSetEpoch (train_sampler_of w) epoch))
| le_train e :
    train_event w (args w) (ddp_model w) (the_optimizer w) e ->
    loop_event w e
| le_rank g : loop_event w (mkEvent 197 g GetRank)
| le_test e : rank w = 0 -> test_event (inner_model w) e -> loop_event w e
| le_sched g :
    loop_event w (mkEvent 199 g (SchedulerStep (the_optimizer w))).

Definition main_epoch_body (w : World) : Z -> M unit :=
  epoch_body w (args w) (ddp_model w) (device_of w) (train_sampler_of w)
    (train_loader_of w) (test_loader_of w) (the_optimizer w) (scheduler_of w).

(** ** Tools for the claims about [main] *)

(** The calls of [main] after [parse_args] returned. *)
Definition after_parser (w : World) : list Event :=
  device_events w ++ data_events w ++
  if dataset1_bound w then model_events w ++ loop_events w else [].

(** ** The command line (claim C7) *)

Definition add_argument_of (e : Event) : option ArgSpec :=
  match op e with
  | AddArgument a => Some a
  | _ => None
  end.

(** ** Exceptions (claim C8) *)

(** The process group cannot be initialised. *)
Definition nccl_fails : Oracle :=
  fun _ e =>
    match op e with
    | InitProcessGroup _ _ => Some (LibraryError "NCCL error")
    | _ => None
    end.

(** The calls of the demonstration job before [init_process_group]. *)
Definition before_init : list Event :=
  parser_events ++ [ev 146 CudaIsAvailable; ev 148 (CudaSetDevice (Some 0))].

Definition init_call : Event := ev 149 (InitProcessGroup "nccl" "env://").

(** ** The network (claim C5) *)

Definition new_layer_of (e : Event) : option Layer :=
  match op e with
  | NewLayer l => Some l
  | _ => None
  end.

Definition is_conv (l : Layer) : bool :=
  match l with Conv2d _ _ _ _ => true | _ => false end.

Definition is_dropout (l : Layer) : bool :=
  match l with Dropout _ => true | _ => false end.

Definition is_linear (l : Layer) : bool :=
  match l with Linear _ _ => true | _ => false end.

(** ** The mixed-precision wrapper (claim C1) *)

Definition msamp_of (e : Event) : option (Model * Optimizer * string) :=
  match op e with
  | MsampInitialize m o l => Some (m, o, l)
  | _ => None
  end.

(** The model a call trains or runs, and the optimizer a call steps. *)
Definition trained_model (e : Event) : option Model :=
  match op e with
  | ModelTrain m => Some m
  | ModelCall m _ => Some m
  | _ => None
  end.

Definition stepped_optimizer (e : Event) : option Optimizer :=
  match op e with
  | ZeroGrad o => Some o
  | OptimizerStep o => Some o
  | _ => None
  end.

Definition model_head (w : World) : list Event :=
  [ ev 21 ModuleInit;
    ev 22 (NewLayer (Conv2d 1 32 3 1));
    ev 23 (NewLayer (Conv2d 32 64 3 1));
    ev 24 (NewLayer (Dropout 0.25));
    ev 25 (NewLayer (Dropout 0.5));
    ev 26 (NewLayer (Linear 9216 128));
    ev 27 (NewLayer (Linear 128 10));
    ev 182 (ModuleTo (MNet the_net) (device_of w));
    ev 183 (Parameters (plain_model w));
    ev 183 (NewAdamW (plain_model w) (lr (args w))) ] ++
  (if enable_msamp (args w) then
     [ ev 186 (PrintMsamp (opt_level (args w)));
       ev 187 (MsampInitialize (plain_model w) (plain_optimizer w)
                 (opt_level (args w))) ]
   else []).

Definition model_tail (w : World) : list Event :=
  [ ev 189 (NewDDP (inner_model w) [local_rank (args w)]
              (local_rank (args w)));
    ev 193 (NewStepLR (the_optimizer w) 1 (gamma (args w))) ].

(** ** The checkpoint (claim C6) *)

Definition is_save (e : Event) : bool :=
  match op e with
  | Save _ _ => true
  | _ => false
  end.

Definition sched_of (e : Event) : option unit :=
  match op e with
  | SchedulerStep _ => Some tt
  | _ => None
  end.

(** Whether the run without failures gets to write the checkpoint. *)
Definition saves (w : World) : bool :=
  dataset1_bound w &&
  match result (epochs_prog w) false with inr _ => true | inl _ => false end &&
  save_model (args w) && (rank w =? 0).

Definition before_save (w : World) : list Event :=
  parser_events ++ device_events w ++ data_events w ++
  if dataset1_bound w then
    model_events w ++ events (epochs_prog w) false ++
    match result (epochs_prog w) false with
    | inr _ =>
        if save_model (args w) then
          ev 202 GetRank ::
          (if rank w =? 0 then [ev 203 (StateDict (ddp_model w))] else [])
        else []
    | inl _ => []
    end
  else [].

(** ** Output and evaluation (claim C10) *)

Definition is_print (e : Event) : bool :=
  match op e with
  | PrintMsamp _ => true
  | PrintTrain _ _ _ _ _ _ => true
  | PrintTest _ _ _ => true
  | _ => false
  end.

(** The lines of [test], 87-112. *)
Definition in_test (l : nat) : bool := (87 <=? l)%nat && (l <=? 112)%nat.

Definition output_ok (w : World) (e : Event) : Prop :=
  (forall epoch seen total batch_idx n l,
     op e = PrintTrain epoch seen total batch_idx n l ->
     rank w = 0 /\ log_interval (args w) <> 0 /\
     batch_idx mod log_interval (args w) = 0) /\
  (in_test (line e) = true -> rank w = 0) /\
  (is_print e = true -> rank w <> 0 ->
   e = ev 186 (PrintMsamp (opt_level (args w))) /\
   enable_msamp (args w) = true).

(** The loss of the first batch of the demonstration job and the progress
    line printed for it. *)
Definition demo_loss : Tensor :=
  TNllLoss
    (forward_output (net_of (ddp_model demo_world)) (TTo (TSample 0 64) Cuda))
    (TTo (TSample 1 64) Cuda) "mean".

Definition demo_progress_line : Event :=
  ev 76 (PrintTrain 1 0 100 0 2 demo_loss).

(** ** The phases of [main] *)

Inductive Phase :=
| ph_args       (* (a) lines 118-145 *)
| ph_process    (* (b) lines 146-153 *)
| ph_data       (* (c) lines 165-180 *)
| ph_model      (* (d) lines 182-193 and [Net.__init__] *)
| ph_forward    (* [Net.forward], lines 29-50, run from (e) and from (f) *)
| ph_train      (* (e) [set_epoch] and [train] *)
| ph_eval       (* (f) the rank test of line 197 and [test] *)
| ph_scheduler  (* line 199 *)
| ph_save.      (* lines 201-203 *)

Definition phase_of_line (l : nat) : Phase :=
  if (l <=? 27)%nat then ph_model
  else if (l <=? 50)%nat then ph_forward
  else if (l <=? 84)%nat then ph_train
  else if (l <=? 112)%nat then ph_eval
  else if (l <=? 145)%nat then ph_args
  else if (l <=? 153)%nat then ph_process
  else if (l <=? 180)%nat then ph_data
  else if (l <=? 193)%nat then ph_model
  else if (l <=? 196)%nat then ph_train
  else if (l <=? 198)%nat then ph_eval
  else if (l <=? 199)%nat then ph_scheduler
  else ph_save.

Definition phase (e : Event) : Phase := phase_of_line (line e).

(** ** Further properties: the local rank *)

Definition is_new_dataset (e : Event) : bool :=
  match op e with
  | NewDataset _ => true
  | _ => false
  end.

Definition dataset_of (e : Event) : option Dataset :=
  match op e with
  | NewDataset d => Some d
  | _ => None
  end.

(** A job started without [--local_rank]. *)
Definition no_rank_world : World :=
  mkWorld (mkArgs 64 1000 2 0.0003 0.7 false false 1 10 true None true "O1")
    true 0 2 (fun _ => 100) (fun _ => two_batches) msamp_has_all_reduce.

(** A job started with [--local_rank -1]. *)
Definition negative_rank_world : World :=
  mkWorld
    (mkArgs 64 1000 2 0.0003 0.7 false false 1 10 true (Some (-1)) true "O1")
    true 0 2 (fun _ => 100) (fun _ => two_batches) msamp_has_all_reduce.

(** ** Further properties: datasets *)

Inductive DataStep :=
| ds_dataset (train download : bool)
| ds_synchronize.

Definition data_step_of (e : Event) : option DataStep :=
  match op e with
  | NewDataset (MNIST _ train download _) => Some (ds_dataset train download)
  | CudaSynchronize => Some ds_synchronize
  | _ => None
  end.

(** ** Further properties: the number of epochs *)

(** A job started with [--epochs 0]. *)
Definition zero_epochs_world : World :=
  mkWorld
    (mkArgs 64 1000 0 0.0003 0.7 false false 1 10 true (Some 0) true "O1")
    true 0 2 (fun _ => 100) (fun _ => two_batches) msamp_has_all_reduce.

(** ** Further properties: one pass of the evaluation loop *)

(** What line 102 sums into [test_loss] and line 104 into [correct] for the
    batch [b]. *)
Definition batch_loss (model : Model) (device : Device) (b : Batch) : Tensor :=
  TNllLoss (forward_output (net_of model) (TTo (data b) device))
    (TTo (target b) device) "sum".

Definition batch_hits (model : Model) (device : Device) (b : Batch) : Tensor :=
  let pred :=
    TArgmax (forward_output (net_of model) (TTo (data b) device)) 1 true in
  TSum (TEq pred (TViewAs (TTo (target b) device) pred)).

(** The calls of one pass of the loop of [test] when none raises. *)
Definition test_body_events (model : Model) (device : Device) (b : Batch)
  (g : bool) : list Event :=
  let data' := TTo (data b) device in
  let target' := TTo (target b) device in
  let output := forward_output (net_of model) data' in
  let pred := TArgmax output 1 true in
  [ mkEvent 100 g (TensorTo (data b) device);
    mkEvent 100 g (TensorTo (target b) device);
    mkEvent 101 g (ModelCall model data') ] ++
  forward_events (net_of model) data' g ++
  [ mkEvent 102 g (NllLoss output target' "sum");
    mkEvent 102 g (Item (batch_loss model device b));
    mkEvent 103 g (Argmax output 1 true);
    mkEvent 104 g (ViewAs target' pred);
    mkEvent 104 g (TensorEq pred (TViewAs target' pred));
    mkEvent 104 g (TensorSum (TEq pred (TViewAs target' pred)));
    mkEvent 104 g (Item (batch_hits model device b)) ].

(** ** Further properties: the device *)

Definition device_ok (w : World) (e : Event) : Prop :=
  (forall m d, op e = ModuleTo m d -> d = device_of w) /\
  (forall t d, op e = TensorTo t d -> d = device_of w) /\
  (forall n, op e = TorchDevice n ->
     n = if use_cuda w then "cuda" else "cpu") /\
  (op e = CudaIsAvailable -> no_cuda (args w) = false).

(** A job started with [--no-cuda]. *)
Definition no_cuda_world : World :=
  mkWorld
    (mkArgs 64 1000 1 0.0003 0.7 true false 1 10 false (Some 0) false "O1")
    true 0 1 (fun _ => 100) (fun _ => two_batches) msamp_has_all_reduce.

(** The device a model was last moved to. *)
Fixpoint model_device (m : Model) : option Device :=
  match m with
  | MNet _ => None
  | MTo _ d => Some d
  | MMsamp m' _ _ => model_device m'
  | MDDP m' _ _ => model_device m'
  end.

(** DistributedDataParallel as torch has it: [device_ids] are refused for a
    module that is on the CPU. *)
Definition ddp_refuses_cpu : Oracle :=
  fun _ e =>
    match op e with
    | NewDDP m (_ :: _) _ =>
        match model_device m with
        | Some Cpu => Some (LibraryError "ValueError")
        | _ => None
        end
    | _ => None
    end.

(** The calls of [main] before the model is moved to the device (line 182)
    and from there on. *)
Definition before_model_to (w : World) : list Event :=
  parser_events ++ device_events w ++ data_events w ++
  firstn 7 (model_events w).

Definition from_model_to (w : World) : list Event :=
  skipn 7 (model_events w) ++ loop_events w.

(** The run of the [--no-cuda] job against that DistributedDataParallel. *)
Definition no_cuda_run : list Event * Res unit :=
  run_main no_cuda_world ddp_refuses_cpu.

(** ** Further properties: keyword dictionaries *)

(** [d.get(k)]. *)
Fixpoint kw_get (k : string) (d : Kwargs) : option KwVal :=
  match d with
  | [] => None
  | (k', v) :: rest => if String.eqb k k' then Some v else kw_get k rest
  end.

Definition loader_kwargs_ok (w : World) (e : Event) : Prop :=
  forall l, op e = NewDataLoader l ->
    kw_get "batch_size" (kwargs l) =
      Some (KInt (if (line e =? 179)%nat then batch_size (args w)
                  else test_batch_size (args w))) /\
    kw_get "num_workers" (kwargs l) =
      (if use_cuda w then Some (KInt 1) else None) /\
    kw_get "pin_memory" (kwargs l) =
      (if use_cuda w then Some (KBool true) else None).

(** ** Further properties: gradients, wrappers and the objects trained *)

(** The calls that compute or apply gradients. *)
Definition is_update (e : Event) : bool :=
  match op e with
  | ZeroGrad _ => true
  | Backward _ => true
  | AllReduceGrads _ _ => true
  | OptimizerStep _ => true
  | _ => false
  end.

Definition grad_ok (e : Event) : Prop :=
  (is_update e = true ->
   under_no_grad e = false /\ in_test (line e) = false) /\
  (forall m x, op e = ModelCall m x -> under_no_grad e = in_test (line e)).

Definition wrapper_ok (w : World) (e : Event) : Prop :=
  (forall m x, op e = ModelCall m x ->
     if in_test (line e) then m = module (ddp_model w) /\ rank w = 0
     else m = ddp_model w) /\
  (forall m, op e = ModelTrain m -> m = ddp_model w) /\
  (forall m, op e = ModelEval m -> m = module (ddp_model w) /\ rank w = 0).

Definition msamp_objects_ok (w : World) (e : Event) : Prop :=
  (forall o, stepped_optimizer e = Some o -> o = the_optimizer w) /\
  (forall m, trained_model e = Some m -> module m = inner_model w) /\
  (forall o m, op e = AllReduceGrads o m -> o = the_optimizer w) /\
  (forall o s q, op e = NewStepLR o s q -> o = the_optimizer w) /\
  (forall o, op e = SchedulerStep o -> o = the_optimizer w).

(** ** Further properties: the evaluation summary *)

Definition summary_of (e : Event)
  : option (list Tensor * list Tensor * Z) :=
  match op e with
  | PrintTest losses corrects n => Some (losses, corrects, n)
  | _ => None
  end.

(** The input of a forward pass. *)
Definition forward_input (e : Event) : option Tensor :=
  match op e with
  | ModelCall _ x => Some x
  | _ => None
  end.

(** The evaluation of the demonstration job: two batches, a test set of
    length 100. *)
Definition demo_test_run : list Event * Res unit :=
  test demo_world (inner_model demo_world) Cuda (test_loader_of demo_world)
    false no_raise [].

(** An empty test set: the loader yields nothing and the length is 0. *)
Definition empty_test_world : World :=
  mkWorld demo_args true 0 2 (fun _ => 0) (fun _ => []) msamp_has_all_reduce.

(** ** Further properties: progress lines and the log interval *)

(** The indices [enumerate] gives to [n] items, starting from [i]. *)
Fixpoint indices (i : Z) (n : nat) : list Z :=
  match n with
  | O => []
  | S n' => i :: indices (i + 1) n'
  end.

(** The batch index and the sample count of a progress line. *)
Definition progress_of (e : Event) : option (Z * Z) :=
  match op e with
  | PrintTrain _ seen _ batch_idx _ _ => Some (batch_idx, seen)
  | _ => None
  end.

(** A training set of five batches, logged every second batch. *)
Definition five_batches : list Batch :=
  [ mkBatch (TSample 0 8) (TSample 1 8); mkBatch (TSample 2 8) (TSample 3 8);
    mkBatch (TSample 4 8) (TSample 5 8); mkBatch (TSample 6 8) (TSample 7 8);
    mkBatch (TSample 8 8) (TSample 9 8) ].

Definition five_batch_args : Args :=
  mkArgs 8 1000 1 0.0003 0.7 false false 1 2 false (Some 0) false "O1".

Definition five_batch_world : World :=
  mkWorld five_batch_args true 0 2 (fun _ => 40) (fun _ => five_batches)
    msamp_has_all_reduce.

Definition five_batch_run : list Event * Res unit :=
  train five_batch_world five_batch_args (ddp_model five_batch_world) Cuda
    (train_loader_of five_batch_world) (the_optimizer five_batch_world) 1
    false no_raise [].

(** A job started with [--log-interval 0]. *)
Definition zero_interval_args : Args :=
  mkArgs 64 1000 2 0.0003 0.7 false false 1 0 true (Some 0) true "O1".

(** ** Further properties: optimizer steps in a run *)

Definition opt_step_of (e : Event) : option unit :=
  match op e with
  | OptimizerStep _ => Some tt
  | _ => None
  end.

(** The loader [train] is given in [epoch]: the training loader after
    [set_epoch(epoch)]. *)
Definition epoch_loader (w : World) (epoch : Z) : DataLoader :=
  with_sampler (train_loader_of w) (set_epoch (train_sampler_of w) epoch).

Definition dry_world : World :=
  mkWorld dry_args true 0 2 (fun _ => 100) (fun _ => two_batches)
    msamp_has_all_reduce.

(** ** Further properties: training mode and evaluation mode *)

(** The mode the model was last put in. *)
Inductive Mode := mode_unset | mode_training | mode_evaluating.

(** [model.train()] and [model.module.eval()] set the mode; a forward pass
    of [train] (line 68) needs training mode and a forward pass of [test]
    (line 101) evaluation mode; other calls leave the mode alone. *)
Definition mode_step (s : Mode) (e : Event) : option Mode :=
  match op e with
  | ModelTrain _ => Some mode_training
  | ModelEval _ => Some mode_evaluating
  | ModelCall _ _ =>
      match s with
      | mode_training => if in_test (line e) then None else Some s
      | mode_evaluating => if in_test (line e) then Some s else None
      | mode_unset => None
      end
  | _ => Some s
  end.

Fixpoint mode_walk (s : Mode) (tr : list Event) : option Mode :=
  match tr with
  | [] => Some s
  | e :: rest =>
      match mode_step s e with
      | Some s' => mode_walk s' rest
      | None => None
      end
  end.

(** ** Further properties: the network behind the wrappers *)

(** The layer [forward] applies at a line, as [Net.__init__] built it. *)
Definition layer_at (l : nat) : option Layer :=
  if (l =? 38)%nat then Some (Conv2d 1 32 3 1)
  else if (l =? 40)%nat then Some (Conv2d 32 64 3 1)
  else if (l =? 43)%nat then Some (Dropout 0.25)
  else if (l =? 45)%nat then Some (Linear 9216 128)
  else if (l =? 47)%nat then Some (Dropout 0.5)
  else if (l =? 48)%nat then Some (Linear 128 10)
  else None.

(** The layer in use for the layer [l] of [Net.__init__]: with
    [--enable-msamp], what [msamp.initialize] left in its place. *)
Definition layer_used (w : World) (l : Layer) : Layer :=
  if enable_msamp (args w) then MsampLayer l (opt_level (args w)) else l.

(** The [Net] inside [model] after lines 182-187. *)
Definition net_used (w : World) : Net :=
  mkNet (layer_used w (Conv2d 1 32 3 1)) (layer_used w (Conv2d 32 64 3 1))
    (layer_used w (Dropout 0.25)) (layer_used w (Dropout 0.5))
    (layer_used w (Linear 9216 128)) (layer_used w (Linear 128 10)).

Definition net_ok (w : World) (e : Event) : Prop :=
  (forall lay x, op e = ApplyLayer lay x ->
     exists l, layer_at (line e) = Some l /\ lay = layer_used w l) /\
  (forall m x, op e = ModelCall m x -> net_of m = net_used w) /\
  (forall o t red, op e = NllLoss o t red ->
     exists d, o = forward_output (net_used w) (TTo d (device_of w))).

(** ** Synchronization (claim C4) *)

Inductive Coord :=
| c_init_process_group
| c_cuda_synchronize
| c_wrap_ddp
| c_set_epoch (epoch : Z)
| c_train
| c_all_reduce_grads.

(** The entry points through which the script coordinates with the other
    processes or with the device: process-group initialization (line 149),
    device synchronization (line 169), the DistributedDataParallel wrapper
    (line 189), sampler re-seeding (line 195) and gradient reduction
    (line 72); with them, the entry into [train] (line 64). *)
Definition coord_of (e : Event) : option Coord :=
  match op e with
  | InitProcessGroup _ _ => Some c_init_process_group
  | CudaSynchronize => Some c_cuda_synchronize
  | NewDDP _ _ _ => Some c_wrap_ddp
  | SamplerSetEpoch _ epoch => Some (c_set_epoch epoch)
  | ModelTrain _ => Some c_train
  | AllReduceGrads _ _ => Some c_all_reduce_grads
  | _ => None
  end.

Definition is_sync_action (e : Event) : bool :=
  match coord_of e with
  | Some c_train | None => false
  | Some _ => true
  end.

Definition init_or_set_epoch (e : Event) : bool :=
  match op e with
  | InitProcessGroup _ _ => true
  | SamplerSetEpoch _ _ => true
  | _ => false
  end.

(** Every call into [torch.cuda], [torch.distributed], the distributed
    sampler, the DistributedDataParallel wrapper and [all_reduce_grads]:
    the entry points above and the calls that only query or configure the
    process itself. *)
Definition coordination_interface (e : Event) : bool :=
  match op e with
  | CudaIsAvailable | CudaSetDevice _ | CudaSynchronize => true
  | InitProcessGroup _ _ | GetRank | GetWorldSize => true
  | NewSampler (DistributedSampler _ _ _) | SamplerSetEpoch _ _ => true
  | NewDDP _ _ _ => true
  | AllReduceGrads _ _ => true
  | _ => false
  end.

(** The call sites of those calls, with what they are called on. *)
Inductive coordination_site (w : World) : Event -> Prop :=
| cs_is_available :
    no_cuda (args w) = false -> coordination_site w (ev 146 CudaIsAvailable)
| cs_set_device :
    coordination_site w (ev 148 (CudaSetDevice (local_rank (args w))))
| cs_init_process_group :
    coordination_site w (ev 149 (InitProcessGroup "nccl" "env://"))
| cs_synchronize : coordination_site w (ev 169 CudaSynchronize)
| cs_sampler :
    coordination_site w (ev 175 (NewSampler (train_sampler_of w)))
| cs_wrap_ddp :
    coordination_site w
      (ev 189 (NewDDP (inner_model w) [local_rank (args w)]
                 (local_rank (args w))))
| cs_set_epoch epoch :
    coordination_site w
      (ev 195 (SamplerSetEpoch (train_sampler_of w) epoch))
| cs_all_reduce_grads :
    has_all_reduce_grads w (the_optimizer w) = true ->
    coordination_site w
      (ev 72 (AllReduceGrads (the_optimizer w) (ddp_model w)))
| cs_rank_train : coordination_site w (ev 74 GetRank)
| cs_world_size : rank w = 0 -> coordination_site w (ev 79 GetWorldSize)
| cs_rank_epoch : coordination_site w (ev 197 GetRank)
| cs_rank_save :
    save_model (args w) = true -> coordination_site w (ev 202 GetRank).

(** The gradient reductions of the training of [epoch]: one per pass when
    the optimizer has [all_reduce_grads], none otherwise. *)
Definition reductions (w : World) (epoch : Z) : nat :=
  if has_all_reduce_grads w (the_optimizer w)
  then passes (args w) (loader_batches w (epoch_loader w epoch))
  else 0%nat.

(** ** The order of the steps of [main] (claim C3) *)

Definition phase_eqb (p q : Phase) : bool :=
  match p, q with
  | ph_args, ph_args | ph_process, ph_process | ph_data, ph_data => true
  | ph_model, ph_model | ph_forward, ph_forward | ph_train, ph_train => true
  | ph_eval, ph_eval | ph_scheduler, ph_scheduler | ph_save, ph_save => true
  | _, _ => false
  end.

(** Which phase may be entered from which.  Without [again] the phases
    come one after the other; with it, the scheduler step of an epoch may
    be followed by the training of the next epoch. *)
Definition may_follow (again : bool) (p q : Phase) : bool :=
  match p, q with
  | ph_args, ph_process => true
  | ph_process, ph_data => true
  | ph_data, ph_model => true
  | ph_model, ph_train | ph_model, ph_save => true
  | ph_train, ph_eval => true
  | ph_eval, ph_scheduler => true
  | ph_scheduler, ph_train => again
  | ph_scheduler, ph_save => true
  | _, _ => false
  end.

(** Whether a call in phase [q] may come when the run is in phase [p]
    ([None]: nothing done yet): [forward] runs only from within training
    and evaluation and leaves the phase as it is. *)
Definition may_enter (again : bool) (p : option Phase) (q : Phase) : bool :=
  match p with
  | None => phase_eqb q ph_args
  | Some p' => may_follow again p' q
  end.

Definition stays (p : option Phase) (q : Phase) : bool :=
  match p, q with
  | Some ph_train, ph_forward | Some ph_eval, ph_forward => true
  | Some p', _ => phase_eqb p' q
  | None, _ => false
  end.

(** Follow a trace from phase [p]: [None] when a call is out of order,
    otherwise the phase the trace ends in and the phases it entered, in
    turn. *)
Fixpoint walk (again : bool) (p : option Phase) (tr : list Event)
  : option (option Phase * list Phase) :=
  match tr with
  | [] => Some (p, [])
  | e :: rest =>
      if stays p (phase e) then walk again p rest
      else if phase_eqb (phase e) ph_forward then None
      else if may_enter again p (phase e) then
        match walk again (Some (phase e)) rest with
        | Some (q, entered) => Some (q, phase e :: entered)
        | None => None
        end
      else None
  end.

(** The phases a trace goes through, when it is in order. *)
Definition phases (again : bool) (tr : list Event) : option (list Phase) :=
  option_map snd (walk again None tr).

Definition in_order (again : bool) (tr : list Event) : bool :=
  match phases again tr with
  | Some _ => true
  | None => false
  end.

(** The calls that end steps (a) to (d) and those that make up a pass of
    the epoch loop. *)
Inductive Mark :=
| k_parse_args
| k_init_process_group
| k_loader (l : DataLoader)
| k_wrap_ddp (m : Model)
| k_set_epoch (epoch : Z)
| k_train (m : Model)
| k_iter (l : DataLoader)
| k_eval (m : Model)
| k_summary
| k_scheduler_step
| k_save.

Definition mark_of (e : Event) : option Mark :=
  match op e with
  | ParseArgs => Some k_parse_args
  | InitProcessGroup _ _ => Some k_init_process_group
  | NewDataLoader l => Some (k_loader l)
  | NewDDP m _ _ => Some (k_wrap_ddp m)
  | SamplerSetEpoch _ epoch => Some (k_set_epoch epoch)
  | ModelTrain m => Some (k_train m)
  | LoaderIter l => Some (k_iter l)
  | ModelEval m => Some (k_eval m)
  | PrintTest _ _ _ => Some k_summary
  | SchedulerStep _ => Some k_scheduler_step
  | Save _ _ => Some k_save
  | _ => None
  end.

(** With a single epoch the phases do come one after the other. *)
Definition one_epoch_world : World :=
  mkWorld
    (mkArgs 64 1000 1 0.0003 0.7 false false 1 10 true (Some 0) true "O1")
    true 0 2 (fun _ => 100) (fun _ => two_batches) msamp_has_all_reduce.

(** The run of the demonstration job in which no call raises. *)
Definition demo_run : list Event * Res unit := run_main demo_world no_raise.

(** * Proofs *)

(** ** Runs under an arbitrary oracle *)

Section Replay.

Context {A : Type}.
Implicit Types (r : Oracle) (h evs d : list Event) (res : Res A).

Lemma replay_no_raise h evs res : replay no_raise h evs res = (evs, res).
Proof.
  revert h; induction evs as [|e evs IH]; intros h; simpl; [reflexivity|].
  now rewrite IH.
Qed.

Lemma replay_app r evs1 : forall h evs2 res,
  replay r h (evs1 ++ evs2) res =
  match replay r h evs1 (inr tt) with
  | (d, inl x) => (d, inl x)
  | (d, inr _) =>
      match replay r (h ++ evs1) evs2 res with
      | (d2, res2) => (evs1 ++ d2, res2)
      end
  end.
Proof.
  induction evs1 as [|e evs1 IH]; intros h evs2 res; simpl.
  - rewrite app_nil_r. now destruct (replay r h evs2 res).
  - destruct (r h e) as [x|]; [reflexivity|].
    rewrite IH. destruct (replay r (h ++ [e]) evs1 (inr tt)) as [d [x|u]].
    + reflexivity.
    + rewrite <- app_assoc. simpl.
      now destruct (replay r (h ++ e :: evs1) evs2 res).
Qed.

Lemma replay_res r h evs res :
  replay r h evs res =
  match replay r h evs (inr tt) with
  | (d, inl x) => (d, inl x)
  | (d, inr _) => (evs, res)
  end.
Proof.
  rewrite <- (app_nil_r evs) at 1. rewrite replay_app.
  destruct (replay r h evs (inr tt)) as [d [x|u]]; [reflexivity|].
  simpl. now rewrite app_nil_r.
Qed.

Lemma replay_prefix r evs : forall h res,
  prefix (fst (replay r h evs res)) evs.
Proof.
  induction evs as [|e evs IH]; intros h res; simpl.
  - now exists [].
  - destruct (r h e) as [x|].
    + now exists evs.
    + specialize (IH (h ++ [e]) res).
      destruct (replay r (h ++ [e]) evs res) as [d res']. simpl in *.
      destruct IH as [k ->]. now exists k.
Qed.

Lemma replay_ok r evs : forall h res a,
  snd (replay r h evs res) = inr a ->
  replay r h evs res = (evs, inr a) /\ res = inr a.
Proof.
  induction evs as [|e evs IH]; intros h res a; simpl.
  - intros ->. now split.
  - destruct (r h e) as [x|]; [discriminate|].
    specialize (IH (h ++ [e]) res a).
    destruct (replay r (h ++ [e]) evs res) as [d res']. simpl in *.
    intros Hr. destruct (IH Hr) as [IH1 IH2]. inversion IH1; subst.
    now split.
Qed.

Lemma replay_raise r evs : forall h res d0 e x,
  prefix (d0 ++ [e]) (fst (replay r h evs res)) ->
  r (h ++ d0) e = Some x ->
  replay r h evs res = (d0 ++ [e], inl x).
Proof.
  induction evs as [|e' evs IH]; intros h res d0 e x [k Hk] Hr; simpl in *.
  - destruct d0; discriminate.
  - destruct (r h e') as [x'|] eqn:He'.
    + simpl in Hk. destruct d0 as [|e0 d0]; simpl in Hk.
      * inversion Hk; subst. rewrite app_nil_r in Hr.
        rewrite Hr in He'. now inversion He'.
      * inversion Hk as [[H1 H2]]. destruct d0; discriminate.
    + specialize (IH (h ++ [e']) res).
      destruct (replay r (h ++ [e']) evs res) as [d res'] eqn:Hrep.
      simpl in *. destruct d0 as [|e0 d0]; simpl in Hk.
      * inversion Hk; subst. rewrite app_nil_r in Hr. congruence.
      * inversion Hk as [[H1 H2]]. subst e0.
        assert (Hd : (d, res') = (d0 ++ [e], inl x)).
        { apply IH; [now exists k|]. now rewrite <- app_assoc. }
        inversion Hd as [[H0 H1]]. rewrite <- H2, H0. reflexivity.
Qed.

End Replay.

(** ** Every construct the script uses is uniform *)

Lemma uniform_no_raise {A} (m : M A) :
  uniform m -> forall g h, m g no_raise h = (events m g, result m g).
Proof. intros Hm g h. rewrite Hm. apply replay_no_raise. Qed.

Lemma uniform_ret {A} (a : A) : uniform (ret a).
Proof. intros g r h. reflexivity. Qed.

Lemma uniform_raise {A} (x : Exn) : uniform (@raise A x).
Proof. intros g r h. reflexivity. Qed.

Lemma uniform_call l o : uniform (call l o).
Proof.
  intros g r h. unfold call, events, result. simpl.
  now destruct (r h (mkEvent l g o)).
Qed.

Lemma events_bind {A B} (m : M A) (f : A -> M B) g :
  uniform m -> (forall a, uniform (f a)) ->
  events (bind m f) g =
  events m g ++ match result m g with
                | inl _ => []
                | inr a => events (f a) g
                end.
Proof.
  intros Hm Hf. unfold events at 1. unfold bind.
  rewrite (uniform_no_raise m Hm).
  destruct (result m g) as [x|a]; simpl; [now rewrite app_nil_r|].
  now rewrite (uniform_no_raise (f a) (Hf a)).
Qed.

Lemma result_bind {A B} (m : M A) (f : A -> M B) g :
  uniform m -> (forall a, uniform (f a)) ->
  result (bind m f) g =
  match result m g with
  | inl x => inl x
  | inr a => result (f a) g
  end.
Proof.
  intros Hm Hf. unfold result at 1. unfold bind.
  rewrite (uniform_no_raise m Hm).
  destruct (result m g) as [x|a]; simpl; [reflexivity|].
  now rewrite (uniform_no_raise (f a) (Hf a)).
Qed.

Lemma uniform_bind {A B} (m : M A) (f : A -> M B) :
  uniform m -> (forall a, uniform (f a)) -> uniform (bind m f).
Proof.
  intros Hm Hf g r h.
  rewrite (events_bind m f g Hm Hf), (result_bind m f g Hm Hf).
  unfold bind. rewrite (Hm g r h), replay_app.
  rewrite (replay_res r h (events m g) (result m g)).
  destruct (replay r h (events m g) (inr tt)) as [d [x|u]]; [reflexivity|].
  destruct (result m g) as [x|a]; simpl.
  - now rewrite app_nil_r.
  - now rewrite (Hf a g r (h ++ events m g)).
Qed.

Lemma uniform_no_grad {A} (m : M A) : uniform m -> uniform (no_grad m).
Proof. intros Hm g r h. unfold no_grad at 1. now rewrite (Hm true r h). Qed.

Lemma uniform_call_ret {A} l o (a : A) : uniform (call_ret l o a).
Proof.
  apply uniform_bind; [apply uniform_call | intros; apply uniform_ret].
Qed.

Lemma uniform_for_batches {S} l loader (body : Z -> Batch -> S -> M (Flow S)) :
  (forall i b s, uniform (body i b s)) ->
  forall batches i s, uniform (for_batches l loader batches i body s).
Proof.
  intros Hb batches.
  induction batches as [|b rest IH]; intros i s; simpl.
  - apply uniform_bind; [apply uniform_call | intros; apply uniform_ret].
  - apply uniform_bind; [apply uniform_call | intros _].
    apply uniform_bind; [apply Hb | intros [s'|s']].
    + apply IH.
    + apply uniform_ret.
Qed.

Lemma uniform_for_loader {S} w l loader (body : Z -> Batch -> S -> M (Flow S)) s :
  (forall i b s, uniform (body i b s)) ->
  uniform (for_loader w l loader body s).
Proof.
  intros Hb. apply uniform_bind; [apply uniform_call | intros _].
  now apply uniform_for_batches.
Qed.

Lemma uniform_for_each {A} (body : A -> M unit) :
  (forall x, uniform (body x)) -> forall xs, uniform (for_each xs body).
Proof.
  intros Hb xs. induction xs as [|x rest IH]; simpl.
  - apply uniform_ret.
  - apply uniform_bind; [apply Hb | intros _; apply IH].
Qed.

(** Decompose a straight-line program into its binds, calls and tests. *)
Ltac uniform_step :=
  match goal with
  | |- uniform (bind _ _) => apply uniform_bind; [|intros]
  | |- uniform (call _ _) => apply uniform_call
  | |- uniform (call_ret _ _ _) => apply uniform_call_ret
  | |- uniform (ret _) => apply uniform_ret
  | |- uniform (raise _) => apply uniform_raise
  | |- uniform (no_grad _) => apply uniform_no_grad
  | |- uniform (for_loader _ _ _ _ _) => apply uniform_for_loader; intros
  | |- uniform (for_batches _ _ _ _ _ _) =>
      apply uniform_for_batches; intros
  | |- uniform (for_each _ _) => apply uniform_for_each; intros
  | |- uniform (if ?b then _ else _) => destruct b
  | |- uniform (match ?x with _ => _ end) => destruct x
  end.

Ltac uniform_tac := repeat uniform_step.

Lemma uniform_Net_init : uniform Net_init.
Proof. unfold Net_init, new_layer. uniform_tac. Qed.

Lemma uniform_forward self x : uniform (forward self x).
Proof. unfold forward. uniform_tac. Qed.

Lemma uniform_train_body w args model device loader optimizer epoch i b s :
  uniform (train_body w args model device loader optimizer epoch i b s).
Proof.
  unfold train_body, tensor_to, model_call, forward, nll_loss, get_rank,
    get_world_size.
  uniform_tac.
Qed.

Lemma uniform_train w args model device loader optimizer epoch :
  uniform (train w args model device loader optimizer epoch).
Proof. unfold train. uniform_tac. apply uniform_train_body. Qed.

Lemma uniform_test_body model device i b acc :
  uniform (test_body model device i b acc).
Proof.
  unfold test_body, tensor_to, model_call, forward, nll_loss. uniform_tac.
Qed.

Lemma uniform_test w model device loader :
  uniform (test w model device loader).
Proof. unfold test. uniform_tac; apply uniform_test_body. Qed.

Lemma uniform_epoch_body w args model device ts trl tel optimizer sch epoch :
  uniform (epoch_body w args model device ts trl tel optimizer sch epoch).
Proof.
  unfold epoch_body, get_rank. uniform_tac;
    solve [apply uniform_train | apply uniform_test].
Qed.

Lemma uniform_main w : uniform (main w).
Proof.
  unfold main, add_argument, get_rank. uniform_tac;
    solve [apply uniform_Net_init | apply uniform_epoch_body].
Qed.

(** ** What uniformity gives for the runs of a computation *)

Section Runs.

Context {A : Type} (m : M A) (Hm : uniform m).

(** The calls of any run are an initial part of the calls of the run in
    which nothing raises. *)
Lemma run_prefix g r h : prefix (fst (m g r h)) (events m g).
Proof. rewrite Hm. apply replay_prefix. Qed.

(** A run that returns made all of those calls. *)
Lemma run_ok g r h a :
  snd (m g r h) = inr a -> m g r h = (events m g, inr a) /\ result m g = inr a.
Proof. rewrite Hm. apply replay_ok. Qed.

(** A run in which a call raises stops at that call with its exception. *)
Lemma run_raise g r h d0 e x :
  prefix (d0 ++ [e]) (fst (m g r h)) ->
  r (h ++ d0) e = Some x ->
  m g r h = (d0 ++ [e], inl x).
Proof. rewrite Hm. apply replay_raise. Qed.

End Runs.

Lemma prefix_refl {A} (l : list A) : prefix l l.
Proof. exists []. now rewrite app_nil_r. Qed.

Lemma prefix_trans {A} (l1 l2 l3 : list A) :
  prefix l1 l2 -> prefix l2 l3 -> prefix l1 l3.
Proof. intros [k1 ->] [k2 ->]. exists (k1 ++ k2). now rewrite app_assoc. Qed.

Lemma prefix_Forall {A} (P : A -> Prop) (l1 l2 : list A) :
  prefix l1 l2 -> Forall P l2 -> Forall P l1.
Proof. intros [k ->] H. now apply Forall_app in H. Qed.

Lemma prefix_map {A B} (f : A -> B) (l1 l2 : list A) :
  prefix l1 l2 -> prefix (map f l1) (map f l2).
Proof. intros [k ->]. exists (map f k). apply map_app. Qed.

Lemma prefix_filter {A} (f : A -> bool) (l1 l2 : list A) :
  prefix l1 l2 -> prefix (filter f l1) (filter f l2).
Proof. intros [k ->]. exists (filter f k). apply filter_app. Qed.

Lemma prefix_app {A} (l l1 l2 : list A) :
  prefix l1 l2 -> prefix (l ++ l1) (l ++ l2).
Proof. intros [k ->]. exists k. now rewrite app_assoc. Qed.

(** ** The calls of the loops *)

Lemma events_for_each_cons {A} (body : A -> M unit) x xs g :
  (forall x, uniform (body x)) ->
  events (for_each (x :: xs) body) g =
  events (body x) g ++ match result (body x) g with
                       | inl _ => []
                       | inr _ => events (for_each xs body) g
                       end.
Proof.
  intros Hb. simpl. rewrite events_bind; auto.
  intros _. now apply uniform_for_each.
Qed.

Lemma result_for_each_cons {A} (body : A -> M unit) x xs g :
  (forall x, uniform (body x)) ->
  result (for_each (x :: xs) body) g =
  match result (body x) g with
  | inl e => inl e
  | inr _ => result (for_each xs body) g
  end.
Proof.
  intros Hb. simpl. rewrite result_bind; auto.
  intros _. now apply uniform_for_each.
Qed.

Lemma events_for_batches_cons {S} l loader
  (body : Z -> Batch -> S -> M (Flow S)) b rest i s g :
  (forall i b s, uniform (body i b s)) ->
  events (for_batches l loader (b :: rest) i body s) g =
  mkEvent l g (LoaderNext loader) ::
  events (body i b s) g ++
  match result (body i b s) g with
  | inr (Continue s') => events (for_batches l loader rest (i + 1) body s') g
  | _ => []
  end.
Proof.
  intros Hb. simpl for_batches.
  rewrite events_bind; [|apply uniform_call|]. 2:{
    intros _. apply uniform_bind; [apply Hb|].
    intros [s'|s']; [now apply uniform_for_batches | apply uniform_ret]. }
  change (events (call l (LoaderNext loader)) g)
    with [mkEvent l g (LoaderNext loader)].
  change (result (call l (LoaderNext loader)) g) with (@inr Exn unit tt).
  simpl. f_equal. rewrite events_bind; [|apply Hb|]. 2:{
    intros [s'|s']; [now apply uniform_for_batches | apply uniform_ret]. }
  f_equal. destruct (result (body i b s) g) as [x|[s'|s']]; reflexivity.
Qed.

Lemma result_for_batches_cons {S} l loader
  (body : Z -> Batch -> S -> M (Flow S)) b rest i s g :
  (forall i b s, uniform (body i b s)) ->
  result (for_batches l loader (b :: rest) i body s) g =
  match result (body i b s) g with
  | inl x => inl x
  | inr (Continue s') => result (for_batches l loader rest (i + 1) body s') g
  | inr (Break s') => inr s'
  end.
Proof.
  intros Hb. simpl for_batches.
  rewrite result_bind; [|apply uniform_call|]. 2:{
    intros _. apply uniform_bind; [apply Hb|].
    intros [s'|s']; [now apply uniform_for_batches | apply uniform_ret]. }
  change (result (call l (LoaderNext loader)) g) with (@inr Exn unit tt).
  simpl. rewrite result_bind; [|apply Hb|]. 2:{
    intros [s'|s']; [now apply uniform_for_batches | apply uniform_ret]. }
  destruct (result (body i b s) g) as [x|[s'|s']]; reflexivity.
Qed.

(** ** The calls of [main] when no library call raises *)

Lemma uniform_epochs_prog w : uniform (epochs_prog w).
Proof. apply uniform_for_each. intros. apply uniform_epoch_body. Qed.

Ltac flush_loop :=
  match goal with
  | |- context [bind (for_each ?xs ?b) ?k false no_raise ?h] =>
      change (bind (for_each xs b) k false no_raise h)
        with (match for_each xs b false no_raise h with
              | (d1, inl x) => (d1, inl x)
              | (d1, inr a) =>
                  match k a false no_raise (h ++ d1) with
                  | (d2, res) => (d1 ++ d2, res)
                  end
              end);
      rewrite (uniform_no_raise (for_each xs b))
        by (apply uniform_for_each; intros; apply uniform_epoch_body)
  end.

Ltac main_cbn :=
  cbv [main_events main_result loop_events epochs_prog device_events
    data_events model_events save_events dataset1_bound use_cuda device_of
    train_loader_of test_loader_of train_kwargs_of test_kwargs_of
    train_sampler_of scheduler_of ddp_model the_optimizer inner_model
    plain_optimizer plain_model dataset1_of dataset2_of test_sampler_of
    the_net the_transform cuda_kwargs parser_events ev];
  cbn -[for_each range epoch_body kw_update].

Lemma main_no_raise w :
  main w false no_raise [] = (main_events w, main_result w).
Proof.
  destruct w as [a ca rk ws dl lb har].
  destruct a as [bs tbs eps lr gm nc dr sd li sm lrk em ol].
  destruct lrk as [[|p|p]|]; destruct nc; destruct em; destruct sm;
    main_cbn; try reflexivity; flush_loop;
    match goal with
    | |- context [result (for_each ?xs ?b) false] =>
        destruct (result (for_each xs b) false) as [x|[]]
    end; cbn -[for_each range epoch_body kw_update]; rewrite ?app_nil_r;
    try reflexivity; destruct (rk =? 0); reflexivity.
Qed.

Lemma events_main w : events (main w) false = main_events w.
Proof. unfold events. now rewrite main_no_raise. Qed.

Lemma result_main w : result (main w) false = main_result w.
Proof. unfold result. now rewrite main_no_raise. Qed.

(** Any run of the script replays [main_events]. *)
Lemma run_main_replay w r :
  run_main w r = replay r [] (main_events w) (main_result w).
Proof.
  unfold run_main. rewrite (uniform_main w).
  now rewrite events_main, result_main.
Qed.

Lemma run_main_prefix w r : prefix (fst (run_main w r)) (main_events w).
Proof. rewrite run_main_replay. apply replay_prefix. Qed.

Lemma run_main_ok w r :
  snd (run_main w r) = inr tt ->
  fst (run_main w r) = main_events w /\ main_result w = inr tt.
Proof.
  rewrite run_main_replay. intros H.
  destruct (replay_ok _ _ _ _ _ H) as [H1 H2]. now rewrite H1.
Qed.

(** ** Projections of a trace *)

Lemma pick_app {A B} (f : A -> option B) l1 l2 :
  pick f (l1 ++ l2) = pick f l1 ++ pick f l2.
Proof.
  induction l1 as [|a l1 IH]; simpl; [reflexivity|].
  destruct (f a); simpl; now rewrite IH.
Qed.

Lemma prefix_pick {A B} (f : A -> option B) l1 l2 :
  prefix l1 l2 -> prefix (pick f l1) (pick f l2).
Proof. intros [k ->]. exists (pick f k). apply pick_app. Qed.

Lemma pick_cons_none {A B} (f : A -> option B) a l :
  f a = None -> pick f (a :: l) = pick f l.
Proof. intros H. simpl. now rewrite H. Qed.

Lemma pick_none {A B} (f : A -> option B) l :
  Forall (fun a => f a = None) l -> pick f l = [].
Proof.
  induction 1 as [|a l Ha _ IH]; simpl; [reflexivity|]. now rewrite Ha.
Qed.

(** ** One pass of the training loop *)

Section TrainBody.

Variables (w : World) (args : Args) (model : Model) (device : Device)
  (train_loader : DataLoader) (optimizer : Optimizer) (epoch : Z).

Let body := train_body w args model device train_loader optimizer epoch.

Let body_events :=
  train_body_events w args model device train_loader optimizer epoch.

Lemma train_body_no_raise i b u g h :
  body i b u g no_raise h = (body_events i b g, train_body_result w args).
Proof.
  unfold body, body_events, train_body, train_body_events,
    train_body_result, logs.
  unfold tensor_to, model_call, forward, nll_loss, get_rank, get_world_size,
    call_ret, bind, call, ret, raise, no_raise.
  destruct (has_all_reduce_grads w optimizer); destruct (rank w =? 0);
    destruct (log_interval args =? 0);
    destruct (i mod log_interval args =? 0); destruct (dry_run args);
    reflexivity.
Qed.

Lemma events_train_body i b u g :
  events (body i b u) g = body_events i b g.
Proof. unfold events. now rewrite train_body_no_raise. Qed.

Lemma result_train_body i b u g :
  result (body i b u) g = train_body_result w args.
Proof. unfold result. now rewrite train_body_no_raise. Qed.

Lemma steps_train_body i b g :
  pick step_of (body_events i b g) = cycle w optimizer.
Proof.
  unfold body_events, train_body_events, forward_events, cycle.
  destruct (has_all_reduce_grads w optimizer); destruct (logs w args i);
    reflexivity.
Qed.

Lemma uniform_body i b u : uniform (body i b u).
Proof. apply uniform_train_body. Qed.

(** The loop makes at most [passes] passes, and exactly that many when it
    ends without an exception. *)
Lemma steps_for_batches g batches : forall i,
  exists n, (n <= passes args batches)%nat /\
    pick step_of (events (for_batches 65 train_loader batches i body tt) g)
    = List.concat (repeat (cycle w optimizer) n) /\
    (result (for_batches 65 train_loader batches i body tt) g = inr tt ->
     n = passes args batches).
Proof.
  unfold passes.
  induction batches as [|b rest IH]; intros i.
  - exists 0%nat. split; [destruct (dry_run args); simpl; lia|].
    split; [reflexivity|]. now destruct (dry_run args).
  - rewrite events_for_batches_cons, result_for_batches_cons
      by apply uniform_body.
    rewrite events_train_body, result_train_body.
    unfold train_body_result.
    destruct ((rank w =? 0) && (log_interval args =? 0)).
    + exists 1%nat. split; [destruct (dry_run args); simpl; lia|].
      split; [|intros H; simpl in H; discriminate].
      rewrite pick_cons_none, pick_app, steps_train_body by reflexivity.
      simpl. now rewrite !app_nil_r.
    + destruct (dry_run args).
      * exists 1%nat. split; [simpl; lia|]. split; [|reflexivity].
        rewrite pick_cons_none, pick_app, steps_train_body by reflexivity.
        simpl. now rewrite !app_nil_r.
      * destruct (IH (i + 1)) as [n [Hn [Hp Hr]]].
        exists (S n). split; [simpl; lia|]. split.
        -- rewrite pick_cons_none, pick_app, steps_train_body by reflexivity.
           simpl. now rewrite Hp.
        -- intros Hres. simpl in Hres. simpl. now rewrite (Hr Hres).
Qed.

Lemma steps_train g :
  exists n, (n <= passes args (loader_batches w train_loader))%nat /\
    pick step_of
      (events (train w args model device train_loader optimizer epoch) g)
    = List.concat (repeat (cycle w optimizer) n) /\
    (result (train w args model device train_loader optimizer epoch) g
     = inr tt -> n = passes args (loader_batches w train_loader)).
Proof.
  destruct (steps_for_batches g (loader_batches w train_loader) 0)
    as [n [Hn [Hp Hr]]].
  exists n. split; [exact Hn|].
  assert (Hu : forall u : unit,
    uniform (for_loader w 65 train_loader body tt)).
  { intros _. apply uniform_for_loader. apply uniform_body. }
  assert (Hu' : forall u : unit,
    uniform (for_batches 65 train_loader (loader_batches w train_loader) 0
               body tt)).
  { intros _. apply uniform_for_batches. apply uniform_body. }
  unfold train. fold body. unfold for_loader.
  rewrite !events_bind, !result_bind; try apply uniform_call; auto.
Qed.

End TrainBody.

Lemma repeat_prefix {A} (c : list A) n m :
  (n <= m)%nat -> prefix (List.concat (repeat c n)) (List.concat (repeat c m)).
Proof.
  intros H. exists (List.concat (repeat c (m - n))).
  replace m with (n + (m - n))%nat at 1 by lia.
  now rewrite repeat_app, List.concat_app.
Qed.

(** ** The training loop (claims C2 and C9) *)

(** C2: in every run of [train] the optimisation calls follow, pass after
    pass, the order zero_grad, forward, loss, backward, all_reduce_grads
    (present exactly when the optimizer has that attribute), step; a run
    that returns made one such cycle per batch it took from the loader. *)
Theorem train_step_order w args model device train_loader optimizer epoch
  g r h :
  let run := train w args model device train_loader optimizer epoch g r h in
  let n := passes args (loader_batches w train_loader) in
  cycle w optimizer =
    [s_zero_grad; s_forward; s_loss; s_backward] ++
    (if has_all_reduce_grads w optimizer then [s_all_reduce_grads] else []) ++
    [s_step] /\
  prefix (pick step_of (fst run))
    (List.concat (repeat (cycle w optimizer) n)) /\
  (snd run = inr tt ->
   pick step_of (fst run) = List.concat (repeat (cycle w optimizer) n)).
Proof.
  intros run n. split; [reflexivity|].
  pose proof (uniform_train w args model device train_loader optimizer epoch)
    as Hu.
  destruct (steps_train w args model device train_loader optimizer epoch g)
    as [k [Hk [Hp Hr]]].
  split.
  - apply prefix_trans with (List.concat (repeat (cycle w optimizer) k)).
    + rewrite <- Hp. apply prefix_pick. apply (run_prefix _ Hu).
    + now apply repeat_prefix.
  - intros Hres. destruct (run_ok _ Hu g r h tt Hres) as [H1 H2].
    unfold run. rewrite H1. simpl fst. rewrite Hp. now rewrite (Hr H2).
Qed.

Lemma train_step_order_witness :
  snd demo_train_run = inr tt /\
  pick step_of (fst demo_train_run) =
  [ s_zero_grad; s_forward; s_loss; s_backward; s_all_reduce_grads; s_step;
    s_zero_grad; s_forward; s_loss; s_backward; s_all_reduce_grads; s_step ].
Proof.
  split; [reflexivity|].
  exact (proj2 (proj2 (train_step_order demo_world demo_args
    (ddp_model demo_world) Cuda (train_loader_of demo_world)
    (the_optimizer demo_world) 1 false no_raise [])) eq_refl).
Defined.

(** On a loader that yields nothing [train] makes no pass at all. *)
Lemma train_empty_loader w args model device train_loader optimizer epoch g :
  loader_batches w train_loader = [] ->
  pick step_of
    (events (train w args model device train_loader optimizer epoch) g) = [] /\
  result (train w args model device train_loader optimizer epoch) g = inr tt.
Proof.
  intros Hb. unfold events, result, train, for_loader. rewrite Hb.
  split; reflexivity.
Qed.

Lemma events_train_dry w args model device train_loader optimizer epoch b
  rest g :
  dry_run args = true -> loader_batches w train_loader = b :: rest ->
  events (train w args model device train_loader optimizer epoch) g =
  mkEvent 64 g (ModelTrain model) :: mkEvent 65 g (LoaderIter train_loader) ::
  mkEvent 65 g (LoaderNext train_loader) ::
  train_body_events w args model device train_loader optimizer epoch 0 b g.
Proof.
  intros Hd Hb.
  assert (Hu : forall u : unit,
    uniform (for_loader w 65 train_loader
      (train_body w args model device train_loader optimizer epoch) tt)).
  { intros _. apply uniform_for_loader. intros. apply uniform_train_body. }
  assert (Hu' : forall u : unit,
    uniform (for_batches 65 train_loader (loader_batches w train_loader) 0
      (train_body w args model device train_loader optimizer epoch) tt)).
  { intros _. apply uniform_for_batches. intros. apply uniform_train_body. }
  unfold train, for_loader.
  rewrite !events_bind; try apply uniform_call; auto.
  change (events (call 64 (ModelTrain model)) g)
    with [mkEvent 64 g (ModelTrain model)].
  change (result (call 64 (ModelTrain model)) g) with (@inr Exn unit tt).
  change (events (call 65 (LoaderIter train_loader)) g)
    with [mkEvent 65 g (LoaderIter train_loader)].
  change (result (call 65 (LoaderIter train_loader)) g)
    with (@inr Exn unit tt).
  rewrite Hb, events_for_batches_cons by (intros; apply uniform_train_body).
  rewrite events_train_body, result_train_body. unfold train_body_result.
  rewrite Hd. simpl.
  destruct ((rank w =? 0) && (log_interval args =? 0));
    now rewrite app_nil_r.
Qed.

Lemma result_train_dry w args model device train_loader optimizer epoch b
  rest g :
  dry_run args = true -> loader_batches w train_loader = b :: rest ->
  result (train w args model device train_loader optimizer epoch) g =
  if (rank w =? 0) && (log_interval args =? 0) then inl ZeroDivisionError
  else inr tt.
Proof.
  intros Hd Hb.
  assert (Hu : forall u : unit,
    uniform (for_loader w 65 train_loader
      (train_body w args model device train_loader optimizer epoch) tt)).
  { intros _. apply uniform_for_loader. intros. apply uniform_train_body. }
  assert (Hu' : forall u : unit,
    uniform (for_batches 65 train_loader (loader_batches w train_loader) 0
      (train_body w args model device train_loader optimizer epoch) tt)).
  { intros _. apply uniform_for_batches. intros. apply uniform_train_body. }
  unfold train, for_loader.
  rewrite !result_bind; try apply uniform_call; auto.
  change (result (call 64 (ModelTrain model)) g) with (@inr Exn unit tt).
  change (result (call 65 (LoaderIter train_loader)) g)
    with (@inr Exn unit tt).
  cbv iota beta.
  rewrite Hb, result_for_batches_cons by (intros; apply uniform_train_body).
  rewrite result_train_body. unfold train_body_result. rewrite Hd.
  now destruct ((rank w =? 0) && (log_interval args =? 0)).
Qed.

(** C9: with [--dry-run], [train] on a loader that yields [b] and then
    [rest] asks the loader for one item only, moves only [b] to the device
    and makes one optimisation cycle, whatever [rest] is; when no call
    raises it then returns (unless line 75 divides by a zero log
    interval). *)
Theorem dry_run_single_batch w args model device train_loader optimizer
  epoch b rest g r h :
  dry_run args = true ->
  loader_batches w train_loader = b :: rest ->
  let run := train w args model device train_loader optimizer epoch g r h in
  prefix (pick asked_of (fst run)) [train_loader] /\
  prefix (pick moved_of (fst run)) [data b; target b] /\
  prefix (pick step_of (fst run)) (cycle w optimizer) /\
  (snd run = inr tt ->
   pick asked_of (fst run) = [train_loader] /\
   pick moved_of (fst run) = [data b; target b] /\
   pick step_of (fst run) = cycle w optimizer) /\
  ((rank w =? 0) && (log_interval args =? 0) = false ->
   snd (train w args model device train_loader optimizer epoch g no_raise h)
   = inr tt).
Proof.
  intros Hd Hb run.
  pose proof (uniform_train w args model device train_loader optimizer epoch)
    as Hu.
  pose proof (events_train_dry w args model device train_loader optimizer
                epoch b rest g Hd Hb) as He.
  assert (Ha : pick asked_of
    (events (train w args model device train_loader optimizer epoch) g)
    = [train_loader]).
  { rewrite He. unfold train_body_events, forward_events.
    destruct (has_all_reduce_grads w optimizer);
      destruct (logs w args 0); reflexivity. }
  assert (Hm : pick moved_of
    (events (train w args model device train_loader optimizer epoch) g)
    = [data b; target b]).
  { rewrite He. unfold train_body_events, forward_events.
    destruct (has_all_reduce_grads w optimizer);
      destruct (logs w args 0); reflexivity. }
  assert (Hs : pick step_of
    (events (train w args model device train_loader optimizer epoch) g)
    = cycle w optimizer).
  { rewrite He. rewrite !pick_cons_none by reflexivity.
    apply steps_train_body. }
  pose proof (run_prefix _ Hu g r h) as Hp.
  repeat split.
  - rewrite <- Ha. now apply prefix_pick.
  - rewrite <- Hm. now apply prefix_pick.
  - rewrite <- Hs. now apply prefix_pick.
  - destruct (run_ok _ Hu g r h tt H) as [H1 _]. unfold run.
    now rewrite H1.
  - destruct (run_ok _ Hu g r h tt H) as [H1 _]. unfold run.
    now rewrite H1.
  - destruct (run_ok _ Hu g r h tt H) as [H1 _]. unfold run.
    now rewrite H1.
  - intros Hz. rewrite (uniform_no_raise _ Hu). simpl.
    rewrite (result_train_dry w args model device train_loader optimizer
               epoch b rest g Hd Hb).
    now rewrite Hz.
Qed.

Lemma dry_run_single_batch_witness :
  dry_run dry_args = true /\
  loader_batches demo_world (train_loader_of demo_world) = two_batches /\
  snd demo_dry_run = inr tt /\
  pick moved_of (fst demo_dry_run) = [TSample 0 64; TSample 1 64] /\
  pick step_of (fst demo_dry_run) =
  [s_zero_grad; s_forward; s_loss; s_backward; s_all_reduce_grads; s_step].
Proof.
  split; [reflexivity|]. split; [reflexivity|]. split; [reflexivity|].
  pose proof (dry_run_single_batch demo_world dry_args (ddp_model demo_world)
    Cuda (train_loader_of demo_world) (the_optimizer demo_world) 1
    (mkBatch (TSample 0 64) (TSample 1 64))
    [mkBatch (TSample 2 36) (TSample 3 36)] false no_raise []
    eq_refl eq_refl) as H.
  destruct H as [_ [_ [_ [H _]]]]. destruct (H eq_refl) as [_ [H2 H3]].
  split; [exact H2 | exact H3].
Defined.

(** ** The calls made inside [train], [test] and the epoch loop *)

Ltac forward_cases :=
  repeat match goal with
         | Hf : forward_event _ _ |- _ => destruct Hf
         end.

Lemma forward_events_ok self x g :
  Forall (forward_event g) (forward_events self x g).
Proof. unfold forward_events. repeat constructor. Qed.

Lemma Forall_events_bind {A B} (P : Event -> Prop) (m : M A) (f : A -> M B) g :
  uniform m -> (forall a, uniform (f a)) ->
  Forall P (events m g) -> (forall a, Forall P (events (f a) g)) ->
  Forall P (events (bind m f) g).
Proof.
  intros Hm Hf H1 H2. rewrite events_bind by assumption.
  apply Forall_app. split; [exact H1|].
  destruct (result m g); [constructor | apply H2].
Qed.

Lemma Forall_for_batches {S} (P : Event -> Prop) l loader
  (body : Z -> Batch -> S -> M (Flow S)) g :
  (forall i b s, uniform (body i b s)) ->
  P (mkEvent l g (LoaderNext loader)) ->
  (forall i b s, Forall P (events (body i b s) g)) ->
  forall batches i s,
  Forall P (events (for_batches l loader batches i body s) g).
Proof.
  intros Hu Hn Hb batches.
  induction batches as [|b rest IH]; intros i s.
  - simpl. repeat constructor. exact Hn.
  - rewrite events_for_batches_cons by assumption.
    constructor; [exact Hn|]. apply Forall_app. split; [apply Hb|].
    destruct (result (body i b s) g) as [x|[s'|s']];
      [constructor | apply IH | constructor].
Qed.

Lemma Forall_for_each {A} (P : Event -> Prop) (body : A -> M unit) g :
  (forall x, uniform (body x)) ->
  (forall x, Forall P (events (body x) g)) ->
  forall xs, Forall P (events (for_each xs body) g).
Proof.
  intros Hu Hb xs. induction xs as [|x rest IH].
  - constructor.
  - rewrite events_for_each_cons by assumption.
    apply Forall_app. split; [apply Hb|].
    destruct (result (body x) g); [constructor | apply IH].
Qed.

Lemma train_body_events_ok w args model device train_loader optimizer epoch
  i b g :
  Forall (train_event w args model optimizer)
    (train_body_events w args model device train_loader optimizer epoch i b g).
Proof.
  unfold train_body_events, forward_events, logs.
  destruct (has_all_reduce_grads w optimizer) eqn:Hh;
    destruct (rank w =? 0) eqn:Hr; destruct (log_interval args =? 0) eqn:Hl;
    destruct (i mod log_interval args =? 0) eqn:Hi; cbn [app andb negb];
    repeat (apply Forall_cons || apply Forall_nil);
    first [ eapply te_net; constructor
          | constructor; fail
          | constructor; first [assumption | lia] ].
Qed.

Lemma train_events_ok w args model device train_loader optimizer epoch g :
  Forall (train_event w args model optimizer)
    (events (train w args model device train_loader optimizer epoch) g).
Proof.
  unfold train, for_loader.
  apply Forall_events_bind;
    [apply uniform_call | intros; uniform_tac; apply uniform_train_body
     | repeat constructor | intros _].
  apply Forall_events_bind;
    [apply uniform_call
     | intros; apply uniform_for_batches; intros; apply uniform_train_body
     | repeat constructor | intros _].
  apply Forall_for_batches.
  - intros; apply uniform_train_body.
  - constructor.
  - intros. rewrite events_train_body. apply train_body_events_ok.
Qed.

Lemma test_events_ok w model device test_loader g :
  Forall (test_event model) (events (test w model device test_loader) g).
Proof.
  unfold test.
  apply Forall_events_bind;
    [apply uniform_call | intros; uniform_tac; apply uniform_test_body
     | repeat constructor | intros _].
  apply Forall_events_bind;
    [apply uniform_call | intros; uniform_tac; apply uniform_test_body
     | repeat constructor | intros _].
  apply Forall_events_bind;
    [uniform_tac; apply uniform_test_body | intros; uniform_tac | |].
  - change (Forall (test_event model)
      (events (for_loader w 99 test_loader (test_body model device) ([], []))
         true)).
    unfold for_loader.
    apply Forall_events_bind;
      [apply uniform_call
       | intros; apply uniform_for_batches; intros; apply uniform_test_body
       | repeat constructor | intros _].
    apply Forall_for_batches.
    + intros; apply uniform_test_body.
    + constructor.
    + intros. unfold events, test_body, tensor_to, model_call, forward,
        nll_loss, call_ret, bind, call, ret, no_raise. simpl.
      repeat (apply Forall_cons || apply Forall_nil);
        first [apply se_net; constructor | constructor].
  - intros acc. destruct (dataset_len w (dataset test_loader) =? 0).
    + constructor.
    + repeat constructor.
Qed.

(** ** One pass of the epoch loop *)

Ltac uniform_all :=
  intros; uniform_tac;
  solve [ apply uniform_train | apply uniform_test | apply uniform_train_body
        | apply uniform_test_body | apply uniform_epoch_body ].

Section EpochBody.

Variables (w : World) (args : Args) (model : Model) (device : Device)
  (train_sampler : Sampler) (train_loader test_loader : DataLoader)
  (optimizer o' : Optimizer) (step_size : Z) (gamma' : Q) (epoch : Z).

Let the_train :=
  train w args model device
    (with_sampler train_loader (set_epoch train_sampler epoch)) optimizer epoch.

Let the_test := test w (module model) device test_loader.

Let body :=
  epoch_body w args model device train_sampler train_loader test_loader
    optimizer (StepLR o' step_size gamma') epoch.

Lemma epoch_body_no_raise g h :
  body g no_raise h =
  (mkEvent 195 g (SamplerSetEpoch train_sampler epoch) ::
   events the_train g ++
   match result the_train g with
   | inl _ => []
   | inr _ =>
       mkEvent 197 g GetRank ::
       (if rank w =? 0 then
          events the_test g ++
          match result the_test g with
          | inl _ => []
          | inr _ => [mkEvent 199 g (SchedulerStep o')]
          end
        else [mkEvent 199 g (SchedulerStep o')])
   end,
   match result the_train g with
   | inl x => inl x
   | inr _ =>
       if rank w =? 0 then
         match result the_test g with
         | inl x => inl x
         | inr _ => inr tt
         end
       else inr tt
   end).
Proof.
  unfold body, epoch_body, get_rank, call_ret.
  fold the_train. fold the_test.
  unfold bind at 1. unfold call at 1. cbn [no_raise].
  unfold bind at 1.
  rewrite (uniform_no_raise the_train) by apply uniform_train.
  destruct (result the_train g) as [x|[]]; [now rewrite app_nil_r|].
  unfold bind at 1. unfold bind at 1. unfold call at 1, ret at 1.
  cbn [no_raise]. cbv iota beta.
  destruct (rank w =? 0).
  - unfold bind at 1.
    rewrite (uniform_no_raise the_test) by apply uniform_test.
    destruct (result the_test g) as [x|[]]; [cbn [app]; now rewrite ?app_nil_r|].
    unfold call. cbn [no_raise app]. now rewrite ?app_nil_r.
  - unfold bind, call, ret. cbn [no_raise app]. now rewrite ?app_nil_r.
Qed.

End EpochBody.

(** ** The epoch loop of [main] *)

Lemma uniform_main_epoch_body w epoch : uniform (main_epoch_body w epoch).
Proof. apply uniform_epoch_body. Qed.

Lemma epoch_events_ok w epoch :
  Forall (loop_event w) (events (main_epoch_body w epoch) false).
Proof.
  unfold events, main_epoch_body, scheduler_of.
  rewrite epoch_body_no_raise. cbn [fst].
  constructor; [apply le_set_epoch|]. apply Forall_app. split.
  - eapply Forall_impl; [|apply train_events_ok]. intros e. apply le_train.
  - match goal with |- context [result ?m false] =>
      destruct (result m false) as [x|[]] end; [constructor|].
    constructor; [apply le_rank|].
    destruct (rank w =? 0) eqn:Hr.
    + apply Forall_app. split.
      * eapply Forall_impl; [|apply test_events_ok].
        intros e. apply le_test. lia.
      * match goal with |- context [result ?m false] =>
          destruct (result m false) as [x|[]] end;
          [constructor | constructor; [apply le_sched | constructor]].
    + constructor; [apply le_sched | constructor].
Qed.

Lemma loop_events_ok w :
  Forall (loop_event w) (events (epochs_prog w) false).
Proof.
  apply (Forall_for_each (loop_event w) (main_epoch_body w)).
  - apply uniform_main_epoch_body.
  - apply epoch_events_ok.
Qed.

(** A projection of the loop, pass by pass: [F x] is what a finished pass
    for [x] shows, and an unfinished pass shows an initial part of it. *)
Lemma pick_for_each {A B} (f : Event -> option B) (body : A -> M unit)
  (F : A -> list B) g :
  (forall x, uniform (body x)) ->
  (forall x, prefix (pick f (events (body x) g)) (F x)) ->
  (forall x, result (body x) g = inr tt -> pick f (events (body x) g) = F x) ->
  forall xs,
  prefix (pick f (events (for_each xs body) g)) (flat_map F xs) /\
  (result (for_each xs body) g = inr tt ->
   pick f (events (for_each xs body) g) = flat_map F xs).
Proof.
  intros Hu Hp Hr xs. induction xs as [|x rest [IH1 IH2]].
  - split; [apply prefix_refl | reflexivity].
  - rewrite events_for_each_cons, result_for_each_cons by assumption.
    rewrite pick_app. simpl flat_map.
    destruct (result (body x) g) as [e|[]] eqn:Hx.
    + split; [|discriminate]. simpl. rewrite app_nil_r.
      destruct (Hp x) as [k ->]. exists (k ++ flat_map F rest).
      now rewrite app_assoc.
    + rewrite (Hr x Hx). split.
      * now apply prefix_app.
      * intros H. now rewrite (IH2 H).
Qed.

(** ** Tools for the claims about [main] *)

Lemma prefix_app_cases {A} (tr l1 l2 : list A) :
  prefix tr (l1 ++ l2) ->
  prefix tr l1 \/ exists k, tr = l1 ++ k /\ prefix k l2.
Proof.
  revert tr. induction l1 as [|a l1 IH]; intros tr [k Hk].
  - right. exists tr. split; [reflexivity | now exists k].
  - destruct tr as [|b tr].
    + left. now exists (a :: l1).
    + simpl in Hk. inversion Hk; subst.
      destruct (IH tr) as [[k' ->]|[k' [-> Hp]]]; [now exists k | |].
      * left. now exists k'.
      * right. exists k'. now split.
Qed.

(** A trace that made a call satisfying [P], none of which is among the
    calls [l1], has made all the calls [l1]. *)
Lemma prefix_reach {A} (P : A -> Prop) (tr l1 l2 : list A) :
  prefix tr (l1 ++ l2) -> Forall (fun a => ~ P a) l1 -> Exists P tr ->
  exists k, tr = l1 ++ k /\ prefix k l2.
Proof.
  intros Hp Hn He. destruct (prefix_app_cases tr l1 l2 Hp) as [Hl|Hr].
  - exfalso. apply Exists_exists in He. destruct He as [a [Ha HP]].
    pose proof (prefix_Forall _ _ _ Hl Hn) as Hf.
    rewrite Forall_forall in Hf. exact (Hf a Ha HP).
  - exact Hr.
Qed.

Lemma prefix_nil {A} (l : list A) : prefix l [] -> l = [].
Proof. intros [k Hk]. destruct l; [reflexivity | discriminate]. Qed.

Lemma main_events_split w : main_events w = parser_events ++ after_parser w.
Proof. reflexivity. Qed.

(** Establish a property of every call of [main] segment by segment. *)
Lemma Forall_after_parser (P : Event -> Prop) w :
  Forall P (device_events w) -> Forall P (data_events w) ->
  Forall P (model_events w) -> (forall e, loop_event w e -> P e) ->
  Forall P (save_events w) ->
  Forall P (after_parser w).
Proof.
  intros Hd Ha Hm Hl Hs. unfold after_parser, loop_events.
  apply Forall_app. split; [exact Hd|].
  apply Forall_app. split; [exact Ha|].
  destruct (dataset1_bound w); [|constructor].
  apply Forall_app. split; [exact Hm|].
  apply Forall_app. split.
  - eapply Forall_impl; [exact Hl | apply loop_events_ok].
  - destruct (result (epochs_prog w) false); [constructor | exact Hs].
Qed.

Lemma Forall_main_events (P : Event -> Prop) w :
  Forall P parser_events ->
  Forall P (device_events w) -> Forall P (data_events w) ->
  Forall P (model_events w) -> (forall e, loop_event w e -> P e) ->
  Forall P (save_events w) ->
  Forall P (main_events w).
Proof.
  intros Hp Hd Ha Hm Hl Hs. rewrite main_events_split.
  apply Forall_app. split; [exact Hp|]. now apply Forall_after_parser.
Qed.

(** Split the explicit segments into their cases. *)
Ltac segment_cases :=
  unfold device_events, data_events, model_events, save_events, ev;
  repeat match goal with
         | |- context [match ?x with _ => _ end] => destruct x eqn:?
         end;
  cbn [app].

(** Split a call of the epoch loop into its cases. *)
Ltac loop_cases H :=
  let Ht := fresh "Ht" in
  destruct H as [? ?|? Ht|?|? ? Ht|?]; [|destruct Ht| |destruct Ht|];
  forward_cases.

(** ** The command line (claim C7) *)

Lemma no_add_argument_after_parser w :
  Forall (fun e => add_argument_of e = None) (after_parser w).
Proof.
  apply Forall_after_parser.
  - segment_cases; repeat constructor.
  - segment_cases; repeat constructor.
  - segment_cases; repeat constructor.
  - intros e He. loop_cases He; reflexivity.
  - segment_cases; repeat constructor.
Qed.

(** C7: the options the script registers with the parser are the thirteen
    of the specification, in this order, and no others: every run registers
    an initial part of them, and a run that reached [parse_args] (line 145)
    registered them all before it. *)
Theorem cli_flags w r :
  let registered := pick add_argument_of (fst (run_main w r)) in
  let flags :=
    [ "--batch-size"; "--test-batch-size"; "--epochs"; "--lr"; "--gamma";
      "--no-cuda"; "--dry-run"; "--seed"; "--log-interval"; "--save-model";
      "--local_rank"; "--enable-msamp"; "--opt-level" ] in
  List.length flags = 13%nat /\
  prefix (map flag registered) flags /\
  (Exists (fun e => line e = 145%nat) (fst (run_main w r)) ->
   map flag registered = flags).
Proof.
  intros registered flags. split; [reflexivity|].
  pose proof (run_main_prefix w r) as Hp.
  assert (Hall : pick add_argument_of (main_events w)
                 = pick add_argument_of parser_events).
  { rewrite main_events_split, pick_app.
    rewrite (pick_none _ _ (no_add_argument_after_parser w)).
    apply app_nil_r. }
  split.
  - change flags with (map flag (pick add_argument_of parser_events)).
    rewrite <- Hall. apply prefix_map. now apply prefix_pick.
  - intros Hreach.
    rewrite main_events_split in Hp.
    change parser_events
      with (removelast parser_events ++ [ev 145 ParseArgs]) in Hp.
    rewrite <- app_assoc in Hp.
    destruct (prefix_reach (fun e => line e = 145%nat) _ _ _ Hp) as [k [Hk Hk']];
      [repeat constructor; discriminate | exact Hreach |].
    unfold registered. rewrite Hk, pick_app.
    assert (Hnone : pick add_argument_of k = []).
    { apply prefix_nil.
      replace (@nil ArgSpec)
        with (pick add_argument_of ([ev 145 ParseArgs] ++ after_parser w)).
      - now apply prefix_pick.
      - rewrite pick_app.
        now rewrite (pick_none _ _ (no_add_argument_after_parser w)). }
    rewrite Hnone. reflexivity.
Qed.

Lemma cli_flags_witness :
  Exists (fun e => line e = 145%nat) (fst (run_main demo_world no_raise)) /\
  List.length (pick add_argument_of (fst (run_main demo_world no_raise)))
  = 13%nat.
Proof.
  assert (H : Exists (fun e => line e = 145%nat)
                (fst (run_main demo_world no_raise))).
  { rewrite run_main_replay, replay_no_raise. cbn [fst].
    rewrite main_events_split. apply Exists_app. left.
    apply Exists_exists. exists (ev 145 ParseArgs).
    split; [|reflexivity]. unfold parser_events.
    repeat (first [left; reflexivity | right]). }
  split; [exact H|].
  rewrite <- (length_map flag).
  now rewrite (proj2 (proj2 (cli_flags demo_world no_raise)) H).
Defined.

(** ** Exceptions (claim C8) *)

(** C8: when a library call [e], made after the calls [d], raises [x], the
    run of the script ends there with [x]: no further call is made (nothing
    is retried or cleaned up) and [x] is what [main] raises. *)
Theorem exceptions_propagate w r d e x :
  prefix (d ++ [e]) (fst (run_main w r)) ->
  r d e = Some x ->
  run_main w r = (d ++ [e], inl x).
Proof.
  intros Hp Hr. unfold run_main in *.
  now apply (run_raise (main w) (uniform_main w) false r [] d e x).
Qed.

Lemma exceptions_propagate_witness :
  prefix (before_init ++ [init_call]) (fst (run_main demo_world nccl_fails)) /\
  nccl_fails before_init init_call = Some (LibraryError "NCCL error") /\
  run_main demo_world nccl_fails
  = (before_init ++ [init_call], inl (LibraryError "NCCL error")).
Proof.
  assert (Hp : prefix (before_init ++ [init_call])
                 (fst (run_main demo_world nccl_fails))).
  { exists []. vm_compute. reflexivity. }
  split; [exact Hp|]. split; [reflexivity|].
  exact (exceptions_propagate demo_world nccl_fails before_init init_call
           (LibraryError "NCCL error") Hp eq_refl).
Defined.

(** A script with a handler would not have this property: the monad can
    express recovery, [main] just never uses it. *)
Example try_except_recovers :
  try_except (call 149 (InitProcessGroup "nccl" "env://"))
    (fun _ => call 149 (InitProcessGroup "gloo" "env://")) false nccl_fails []
  <> ([ev 149 (InitProcessGroup "nccl" "env://")],
      inl (LibraryError "NCCL error")).
Proof. discriminate. Qed.

(** ** The network (claim C5) *)

(** C5: [Net()] builds two convolution, two dropout and two linear layers
    and nothing else, and [forward] calls conv1, relu, conv2, relu,
    max_pool2d, dropout1, flatten, fc1, relu, dropout2, fc2, log_softmax in
    this order, each on the result of the one before. *)
Theorem net_layers_and_forward (self : Net) (x : Tensor) g r h :
  let built :=
    [ Conv2d 1 32 3 1; Conv2d 32 64 3 1; Dropout 0.25; Dropout 0.5;
      Linear 9216 128; Linear 128 10 ] in
  let x1 := TLayer (conv1 self) x in
  let x2 := TRelu x1 in
  let x3 := TLayer (conv2 self) x2 in
  let x4 := TRelu x3 in
  let x5 := TMaxPool2d x4 2 in
  let x6 := TLayer (dropout1 self) x5 in
  let x7 := TFlatten x6 1 in
  let x8 := TLayer (fc1 self) x7 in
  let x9 := TRelu x8 in
  let x10 := TLayer (dropout2 self) x9 in
  let x11 := TLayer (fc2 self) x10 in
  let calls :=
    [ ApplyLayer (conv1 self) x; Relu x1; ApplyLayer (conv2 self) x2;
      Relu x3; MaxPool2d x4 2; ApplyLayer (dropout1 self) x5; Flatten x6 1;
      ApplyLayer (fc1 self) x7; Relu x8; ApplyLayer (dropout2 self) x9;
      ApplyLayer (fc2 self) x10; LogSoftmax x11 1 ] in
  (pick new_layer_of (events Net_init g) = built /\
   result Net_init g =
     inr (mkNet (Conv2d 1 32 3 1) (Conv2d 32 64 3 1) (Dropout 0.25)
            (Dropout 0.5) (Linear 9216 128) (Linear 128 10)) /\
   prefix (pick new_layer_of (fst (Net_init g r h))) built /\
   List.length (filter is_conv built) = 2%nat /\
   List.length (filter is_dropout built) = 2%nat /\
   List.length (filter is_linear built) = 2%nat /\
   List.length built = 6%nat) /\
  (map op (events (forward self x) g) = calls /\
   result (forward self x) g = inr (TLogSoftmax x11 1) /\
   prefix (map op (fst (forward self x g r h))) calls).
Proof.
  intros. split.
  - repeat split; try reflexivity.
    change built with (pick new_layer_of (events Net_init g)).
    apply prefix_pick. apply (run_prefix _ uniform_Net_init).
  - repeat split; try reflexivity.
    change calls with (map op (events (forward self x) g)).
    apply prefix_map. apply (run_prefix _ (uniform_forward self x)).
Qed.

(** ** The mixed-precision wrapper (claim C1) *)

Lemma model_events_split w : model_events w = model_head w ++ model_tail w.
Proof. unfold model_events, model_head, model_tail. now rewrite <- app_assoc. Qed.

Lemma no_msamp_in_loop w e : loop_event w e -> msamp_of e = None.
Proof. intros He. loop_cases He; reflexivity. Qed.

Lemma msamp_tail w :
  pick msamp_of (model_tail w ++ loop_events w) = [].
Proof.
  rewrite pick_app. cbn [model_tail pick msamp_of op ev app].
  unfold loop_events. rewrite pick_app.
  rewrite (pick_none msamp_of (events (epochs_prog w) false)).
  - destruct (result (epochs_prog w) false); [reflexivity|].
    segment_cases; reflexivity.
  - eapply Forall_impl; [apply no_msamp_in_loop | apply loop_events_ok].
Qed.

Lemma msamp_before_tail w :
  pick msamp_of
    (parser_events ++ device_events w ++ data_events w ++ model_head w)
  = if enable_msamp (args w)
    then [(plain_model w, plain_optimizer w, opt_level (args w))] else [].
Proof.
  rewrite !pick_app.
  assert (H1 : pick msamp_of (device_events w) = [])
    by (segment_cases; reflexivity).
  assert (H2 : pick msamp_of (data_events w) = [])
    by (segment_cases; reflexivity).
  rewrite H1, H2. unfold model_head.
  destruct (enable_msamp (args w)); reflexivity.
Qed.

Lemma msamp_unbound w :
  dataset1_bound w = false -> pick msamp_of (main_events w) = [].
Proof.
  intros Hb. unfold main_events. rewrite Hb, !pick_app.
  assert (H1 : pick msamp_of (device_events w) = [])
    by (segment_cases; reflexivity).
  assert (H2 : pick msamp_of (data_events w) = [])
    by (segment_cases; reflexivity).
  now rewrite H1, H2.
Qed.

Lemma main_events_bound w :
  dataset1_bound w = true ->
  main_events w =
  (parser_events ++ device_events w ++ data_events w ++ model_head w) ++
  (model_tail w ++ loop_events w).
Proof.
  intros Hb. unfold main_events. rewrite Hb, model_events_split.
  now rewrite <- !app_assoc.
Qed.

Lemma line_189_not_before w :
  Forall (fun e => line e <> 189%nat)
    (parser_events ++ device_events w ++ data_events w ++ model_head w).
Proof.
  apply Forall_app; split; [|apply Forall_app; split; [|apply Forall_app; split]].
  - repeat constructor; discriminate.
  - segment_cases; repeat constructor; discriminate.
  - segment_cases; repeat constructor; discriminate.
  - unfold model_head. segment_cases; repeat constructor; discriminate.
Qed.

Lemma plain_training w :
  enable_msamp (args w) = false ->
  Forall (fun e =>
            (forall m, trained_model e = Some m -> module m = plain_model w) /\
            (forall o, stepped_optimizer e = Some o -> o = plain_optimizer w))
    (main_events w).
Proof.
  intros Hoff.
  assert (Hi : inner_model w = plain_model w)
    by (unfold inner_model; now rewrite Hoff).
  assert (Ho : the_optimizer w = plain_optimizer w)
    by (unfold the_optimizer; now rewrite Hoff).
  apply Forall_main_events.
  - repeat (apply Forall_cons || apply Forall_nil);
      split; intros ? H; discriminate H.
  - segment_cases; repeat (apply Forall_cons || apply Forall_nil);
      split; intros ? H; discriminate H.
  - segment_cases; repeat (apply Forall_cons || apply Forall_nil);
      split; intros ? H; discriminate H.
  - segment_cases; repeat (apply Forall_cons || apply Forall_nil);
      split; intros ? H; discriminate H.
  - intros e He. loop_cases He; split; intros ? HH; try discriminate HH;
      cbn in HH; inversion HH; subst; cbn [ddp_model module];
      rewrite ?Hi, ?Ho; reflexivity.
  - segment_cases; repeat (apply Forall_cons || apply Forall_nil);
      split; intros ? H; discriminate H.
Qed.

(** C1: [msamp.initialize] is called if and only if [--enable-msamp] is
    given.  With the flag it is called at most once, on the model
    [Net().to(device)] and the AdamW optimizer over its parameters with the
    [--opt-level] value, and a run that reached the DistributedDataParallel
    wrapper (line 189) called it exactly once.  Without the flag it is never
    called, every optimizer call is on that AdamW optimizer and every model
    call is on that model, wrapped for training only by
    DistributedDataParallel. *)
Theorem msamp_iff_flag w r :
  let tr := fst (run_main w r) in
  let net :=
    MTo (MNet (mkNet (Conv2d 1 32 3 1) (Conv2d 32 64 3 1) (Dropout 0.25)
                 (Dropout 0.5) (Linear 9216 128) (Linear 128 10)))
      (device_of w) in
  let adamw := OAdamW net (lr (args w)) in
  (enable_msamp (args w) = true ->
   prefix (pick msamp_of tr) [(net, adamw, opt_level (args w))] /\
   (Exists (fun e => line e = 189%nat) tr ->
    pick msamp_of tr = [(net, adamw, opt_level (args w))])) /\
  (enable_msamp (args w) = false ->
   pick msamp_of tr = [] /\
   Forall (fun e =>
             (forall m, trained_model e = Some m -> module m = net) /\
             (forall o, stepped_optimizer e = Some o -> o = adamw)) tr).
Proof.
  intros tr net adamw.
  change net with (plain_model w). change adamw with (plain_optimizer w).
  pose proof (run_main_prefix w r) as Hp. fold tr in Hp.
  assert (Hall : prefix (pick msamp_of (main_events w))
                   (if enable_msamp (args w)
                    then [(plain_model w, plain_optimizer w,
                           opt_level (args w))]
                    else [])).
  { destruct (dataset1_bound w) eqn:Hb.
    - rewrite (main_events_bound w Hb), pick_app, msamp_tail, app_nil_r.
      rewrite msamp_before_tail. apply prefix_refl.
    - rewrite (msamp_unbound w Hb). now eexists. }
  split; intros Hflag; rewrite Hflag in Hall.
  - split.
    + eapply prefix_trans; [apply prefix_pick; exact Hp | exact Hall].
    + intros Hreach. destruct (dataset1_bound w) eqn:Hb.
      * rewrite (main_events_bound w Hb) in Hp.
        destruct (prefix_reach (fun e => line e = 189%nat) _ _ _ Hp
                    (line_189_not_before w) Hreach) as [k [Hk Hk']].
        rewrite Hk, pick_app, msamp_before_tail, Hflag.
        apply (prefix_pick msamp_of) in Hk'. rewrite msamp_tail in Hk'.
        now rewrite (prefix_nil _ Hk').
      * exfalso. unfold main_events in Hp. rewrite Hb in Hp.
        assert (Hn : Forall (fun e => line e <> 189%nat)
                       (parser_events ++ device_events w ++ data_events w ++ [])).
        { apply Forall_app; split;
            [|apply Forall_app; split; [|apply Forall_app; split]].
          - repeat constructor; discriminate.
          - segment_cases; repeat constructor; discriminate.
          - segment_cases; repeat constructor; discriminate.
          - constructor. }
        pose proof (prefix_Forall _ _ _ Hp Hn) as Hf.
        apply Exists_exists in Hreach. destruct Hreach as [e [He1 He2]].
        rewrite Forall_forall in Hf. exact (Hf e He1 He2).
  - split.
    + apply prefix_nil. eapply prefix_trans; [|exact Hall].
      apply prefix_pick. exact Hp.
    + exact (prefix_Forall _ _ _ Hp (plain_training w Hflag)).
Qed.

Lemma msamp_iff_flag_witness :
  enable_msamp (args demo_world) = true /\
  Exists (fun e => line e = 189%nat) (fst (run_main demo_world no_raise)) /\
  pick msamp_of (fst (run_main demo_world no_raise)) =
  [(plain_model demo_world, plain_optimizer demo_world, "O1")].
Proof.
  assert (H : Exists (fun e => line e = 189%nat)
                (fst (run_main demo_world no_raise))).
  { apply Exists_exists.
    exists (ev 189 (NewDDP (inner_model demo_world) [Some 0] (Some 0))).
    split; [|reflexivity]. vm_compute.
    repeat (first [left; reflexivity | right]). }
  split; [reflexivity|]. split; [exact H|].
  exact (proj2 (proj1 (msamp_iff_flag demo_world no_raise) eq_refl) H).
Defined.

(** ** The checkpoint (claim C6) *)

Lemma main_events_save w :
  main_events w =
  before_save w ++
  if saves w then [ev 203 (Save (ddp_model w) "mnist_cnn.pt")] else [].
Proof.
  unfold main_events, before_save, saves, loop_events, save_events.
  destruct (dataset1_bound w); cbn [andb]; [|now rewrite !app_nil_r].
  destruct (result (epochs_prog w) false); cbn [andb];
    [now rewrite !app_nil_r|].
  destruct (save_model (args w)); cbn [andb]; [|now rewrite !app_nil_r].
  destruct (rank w =? 0); [|now rewrite !app_nil_r].
  rewrite <- !app_assoc. reflexivity.
Qed.

Lemma no_save_in_loop w e : loop_event w e -> is_save e = false.
Proof. intros He. loop_cases He; reflexivity. Qed.

Lemma no_save_before w : Forall (fun e => is_save e = false) (before_save w).
Proof.
  unfold before_save.
  apply Forall_app; split; [repeat constructor|].
  apply Forall_app; split; [segment_cases; repeat constructor|].
  apply Forall_app; split; [segment_cases; repeat constructor|].
  destruct (dataset1_bound w); [|constructor].
  apply Forall_app; split; [segment_cases; repeat constructor|].
  apply Forall_app; split.
  - eapply Forall_impl; [apply no_save_in_loop | apply loop_events_ok].
  - segment_cases; repeat constructor.
Qed.

Lemma events_train_eq w args model device train_loader optimizer epoch g :
  events (train w args model device train_loader optimizer epoch) g =
  mkEvent 64 g (ModelTrain model) ::
  events (for_loader w 65 train_loader
            (train_body w args model device train_loader optimizer epoch) tt)
    g.
Proof.
  unfold train. rewrite events_bind; [reflexivity | apply uniform_call|].
  intros _. apply uniform_for_loader. intros. apply uniform_train_body.
Qed.

(** Apart from [model.train()], line 64, [train] makes the calls of its
    loop. *)
Lemma loader_events_ok w args model device train_loader optimizer epoch g :
  Forall (fun e => train_event w args model optimizer e /\ line e <> 64%nat)
    (events (for_loader w 65 train_loader
               (train_body w args model device train_loader optimizer epoch)
               tt) g).
Proof.
  unfold for_loader.
  apply Forall_events_bind;
    [apply uniform_call
     | intros; apply uniform_for_batches; intros; apply uniform_train_body
     | repeat constructor; discriminate | intros _].
  apply Forall_for_batches.
  - intros; apply uniform_train_body.
  - split; [constructor | discriminate].
  - intros. rewrite events_train_body.
    pose proof (train_body_events_ok w args model device train_loader
                  optimizer epoch i b g) as Hok.
    assert (Hl : Forall (fun e => line e <> 64%nat)
                   (train_body_events w args model device train_loader
                      optimizer epoch i b g)).
    { unfold train_body_events, forward_events.
      destruct (has_all_reduce_grads w optimizer); destruct (logs w args i);
        repeat constructor; discriminate. }
    rewrite Forall_forall in *. intros e He. split; auto.
Qed.

(** A projection that ignores [train] and [test] except for the calls in
    [head] shows, for a pass of the epoch loop, [set ++ head] and, once the
    pass is over, [done]. *)
Section EpochPick.

Context {B : Type} (f : Event -> option B) (w : World).
Variables (set_epoch' : Z -> list B) (head done : list B).
Hypothesis f_set_epoch :
  forall epoch,
    pick f [ev 195 (SamplerSetEpoch (train_sampler_of w) epoch)]
    = set_epoch' epoch.
Hypothesis f_head : pick f [ev 64 (ModelTrain (ddp_model w))] = head.
Hypothesis f_train :
  forall e, train_event w (args w) (ddp_model w) (the_optimizer w) e ->
            line e <> 64%nat -> f e = None.
Hypothesis f_rank : f (ev 197 GetRank) = None.
Hypothesis f_test : forall e, test_event (inner_model w) e -> f e = None.
Hypothesis f_done : pick f [ev 199 (SchedulerStep (the_optimizer w))] = done.

Lemma pick_epoch epoch :
  prefix (pick f (events (main_epoch_body w epoch) false))
    (set_epoch' epoch ++ head ++ done) /\
  (result (main_epoch_body w epoch) false = inr tt ->
   pick f (events (main_epoch_body w epoch) false)
   = set_epoch' epoch ++ head ++ done).
Proof.
  unfold events at 1 2, result, main_epoch_body, scheduler_of.
  rewrite epoch_body_no_raise. cbn [fst snd].
  rewrite events_train_eq. cbn [app].
  match goal with |- context [pick f (?a :: ?b :: ?l)] =>
    change (pick f (a :: b :: l)) with (pick f ([a] ++ [b] ++ l)) end.
  rewrite !pick_app. fold (ev 195 (SamplerSetEpoch (train_sampler_of w) epoch)).
  fold (ev 64 (ModelTrain (ddp_model w))).
  rewrite f_set_epoch, f_head.
  rewrite (pick_none f (events (for_loader _ _ _ _ _) false)).
  2:{ eapply Forall_impl; [|apply loader_events_ok].
      intros e [H1 H2]. now apply f_train. }
  cbn [app].
  match goal with |- context [result ?m false] =>
    destruct (result m false) as [x|[]] end.
  - split; [|discriminate]. cbn [pick]. rewrite app_nil_r.
    exists done. now rewrite <- app_assoc.
  - rewrite pick_cons_none by apply f_rank.
    change (module (ddp_model w)) with (inner_model w).
    destruct (rank w =? 0).
    + rewrite pick_app.
      rewrite (pick_none f (events (test _ _ _ _) false)).
      2:{ eapply Forall_impl; [|apply test_events_ok]. exact f_test. }
      cbn [app].
      match goal with |- context [result ?m false] =>
        destruct (result m false) as [x|[]] end.
      * split; [|discriminate]. cbn [pick]. rewrite app_nil_r.
        exists done. now rewrite <- app_assoc.
      * fold (ev 199 (SchedulerStep (the_optimizer w))). rewrite f_done.
        split; [apply prefix_refl | reflexivity].
    + fold (ev 199 (SchedulerStep (the_optimizer w))). rewrite f_done.
      split; [apply prefix_refl | reflexivity].
Qed.

Lemma pick_epochs :
  let plan :=
    flat_map (fun epoch => set_epoch' epoch ++ head ++ done)
      (range 1 (epochs (args w) + 1)) in
  prefix (pick f (events (epochs_prog w) false)) plan /\
  (result (epochs_prog w) false = inr tt ->
   pick f (events (epochs_prog w) false) = plan).
Proof.
  apply (pick_for_each f (main_epoch_body w)).
  - apply uniform_main_epoch_body.
  - intros x. apply pick_epoch.
  - intros x. apply pick_epoch.
Qed.

End EpochPick.

Lemma length_flat_map_single {A B} (b : B) (xs : list A) :
  List.length (flat_map (fun _ => [b]) xs) = List.length xs.
Proof. induction xs as [|x xs IH]; [reflexivity | simpl; now rewrite IH]. Qed.

Lemma sched_of_epochs w :
  result (epochs_prog w) false = inr tt ->
  pick sched_of (events (epochs_prog w) false)
  = flat_map (fun _ : Z => [tt]) (range 1 (epochs (args w) + 1)).
Proof.
  apply (pick_epochs sched_of w (fun _ => []) [] [tt]).
  - reflexivity.
  - reflexivity.
  - intros e He Hl. destruct He; forward_cases; reflexivity.
  - reflexivity.
  - intros e He. destruct He; forward_cases; reflexivity.
  - reflexivity.
Qed.

Lemma sched_before_save w :
  result (epochs_prog w) false = inr tt ->
  dataset1_bound w = true ->
  List.length (pick sched_of (before_save w))
  = List.length (range 1 (epochs (args w) + 1)).
Proof.
  intros Hres Hb. unfold before_save. rewrite Hb, Hres, !pick_app.
  assert (H0 : pick sched_of parser_events = []) by reflexivity.
  assert (H1 : pick sched_of (device_events w) = [])
    by (segment_cases; reflexivity).
  assert (H2 : pick sched_of (data_events w) = [])
    by (segment_cases; reflexivity).
  assert (H3 : pick sched_of (model_events w) = [])
    by (segment_cases; reflexivity).
  assert (H4 : pick sched_of
                 (if save_model (args w) then
                    ev 202 GetRank ::
                    (if rank w =? 0 then [ev 203 (StateDict (ddp_model w))]
                     else [])
                  else []) = [])
    by (segment_cases; reflexivity).
  rewrite H0, H1, H2, H3, H4, (sched_of_epochs w Hres).
  rewrite app_nil_r. cbn [app]. apply length_flat_map_single.
Qed.

(** C6: the checkpoint is optional.  Without [--save-model] no run ever
    calls [torch.save].  A run that calls it was given [--save-model] and is
    rank 0; the call writes ['mnist_cnn.pt'], is the last call of the run
    and comes after the scheduler step of every epoch.  With [--save-model],
    a run of rank 0 that returns has written the checkpoint. *)
Theorem checkpoint_iff_flag w r :
  let tr := fst (run_main w r) in
  (save_model (args w) = false -> Forall (fun e => is_save e = false) tr) /\
  (Exists (fun e => is_save e = true) tr ->
   save_model (args w) = true /\ rank w = 0 /\
   exists pre,
     tr = pre ++ [ev 203 (Save (ddp_model w) "mnist_cnn.pt")] /\
     Forall (fun e => is_save e = false) pre /\
     List.length (pick sched_of pre)
     = List.length (range 1 (epochs (args w) + 1))) /\
  (save_model (args w) = true -> rank w = 0 -> snd (run_main w r) = inr tt ->
   Exists (fun e => is_save e = true) tr).
Proof.
  intros tr. pose proof (run_main_prefix w r) as Hp. fold tr in Hp.
  rewrite main_events_save in Hp.
  split; [|split].
  - intros Hoff. eapply prefix_Forall; [exact Hp|].
    apply Forall_app. split; [apply no_save_before|].
    unfold saves. rewrite Hoff, andb_false_r. constructor.
  - intros Hex.
    assert (Hn : Forall (fun e => ~ is_save e = true) (before_save w)).
    { eapply Forall_impl; [|apply no_save_before].
      intros e He. rewrite He. discriminate. }
    destruct (prefix_reach _ _ _ _ Hp Hn Hex) as [k [Hk Hk']].
    destruct (saves w) eqn:Hs.
    + unfold saves in Hs.
      apply andb_prop in Hs. destruct Hs as [Hs Hrank].
      apply andb_prop in Hs. destruct Hs as [Hs Hsave].
      apply andb_prop in Hs. destruct Hs as [Hb Hres].
      split; [exact Hsave|]. split; [lia|].
      exists (before_save w). destruct Hk' as [k' Hk'].
      destruct k as [|e k].
      * exfalso. rewrite app_nil_r in Hk. rewrite Hk in Hex.
        apply Exists_exists in Hex. destruct Hex as [e [He1 He2]].
        rewrite Forall_forall in Hn. exact (Hn e He1 He2).
      * inversion Hk'; subst e. destruct k; [|discriminate].
        split; [exact Hk|]. split; [apply no_save_before|].
        apply sched_before_save; [|exact Hb].
        now destruct (result (epochs_prog w) false) as [x|[]].
    + exfalso. apply prefix_nil in Hk'. subst k.
      rewrite app_nil_r in Hk. rewrite Hk in Hex.
      apply Exists_exists in Hex. destruct Hex as [e [He1 He2]].
      rewrite Forall_forall in Hn. exact (Hn e He1 He2).
  - intros Hon Hrank Hret.
    destruct (run_main_ok w r Hret) as [Htr Hres]. fold tr in Htr.
    rewrite Htr, main_events_save.
    assert (Hs : saves w = true).
    { unfold saves, main_result, dataset1_bound in *.
      destruct (local_rank (args w)) as [k|]; [|discriminate].
      destruct (0 <=? k); [|discriminate].
      destruct (result (epochs_prog w) false); [discriminate|].
      rewrite Hon, Hrank. reflexivity. }
    rewrite Hs. apply Exists_app. right. now constructor.
Qed.

Lemma checkpoint_iff_flag_witness :
  save_model (args demo_world) = true /\ rank demo_world = 0 /\
  snd (run_main demo_world no_raise) = inr tt /\
  Exists (fun e => is_save e = true) (fst (run_main demo_world no_raise)).
Proof.
  split; [reflexivity|]. split; [reflexivity|].
  assert (H : snd (run_main demo_world no_raise) = inr tt)
    by (vm_compute; reflexivity).
  split; [exact H|].
  exact (proj2 (proj2 (checkpoint_iff_flag demo_world no_raise))
           eq_refl eq_refl H).
Defined.

(** ** Output and evaluation (claim C10) *)

(** C10 as stated fails: rank 1 of the demonstration job prints the line
    of line 186. *)
Lemma output_only_on_rank0_counterexample :
  rank rank1_world <> 0 /\
  In (ev 186 (PrintMsamp "O1")) (fst (run_main rank1_world no_raise)) /\
  is_print (ev 186 (PrintMsamp "O1")) = true.
Proof.
  split; [discriminate|]. split; [|reflexivity].
  vm_compute. repeat (first [left; reflexivity | right]).
Qed.

Ltac output_case :=
  split;
  [ intros ? ? ? ? ? ? HH; try discriminate HH
  | split;
    [ intros HH; try discriminate HH
    | intros HH Hne; try discriminate HH ] ].

Lemma output_ok_main w : Forall (output_ok w) (main_events w).
Proof.
  apply Forall_main_events.
  - repeat (apply Forall_cons || apply Forall_nil); output_case.
  - segment_cases; repeat (apply Forall_cons || apply Forall_nil);
      output_case.
  - segment_cases; repeat (apply Forall_cons || apply Forall_nil);
      output_case.
  - segment_cases; repeat (apply Forall_cons || apply Forall_nil);
      output_case. split; [reflexivity | assumption].
  - intros e He. loop_cases He; output_case; try contradiction; try lia.
    cbn in HH. inversion HH; subst. auto.
  - segment_cases; repeat (apply Forall_cons || apply Forall_nil);
      output_case.
Qed.

(** C10, amended: the training-progress line is printed only by rank 0 and
    only for a batch index that is a multiple of [--log-interval]; [test]
    runs only on rank 0; and the only line a non-zero rank prints is the
    announcement of line 186, which every rank prints when [--enable-msamp]
    is given. *)
Theorem rank0_output w r :
  Forall (fun e =>
            (forall epoch seen total batch_idx n l,
               op e = PrintTrain epoch seen total batch_idx n l ->
               rank w = 0 /\ log_interval (args w) <> 0 /\
               batch_idx mod log_interval (args w) = 0) /\
            (in_test (line e) = true -> rank w = 0) /\
            (is_print e = true -> rank w <> 0 ->
             e = ev 186 (PrintMsamp (opt_level (args w))) /\
             enable_msamp (args w) = true))
    (fst (run_main w r)).
Proof.
  exact (prefix_Forall _ _ _ (run_main_prefix w r) (output_ok_main w)).
Qed.

Lemma rank0_output_witness :
  In demo_progress_line (fst (run_main demo_world no_raise)) /\
  rank demo_world = 0 /\ log_interval (args demo_world) <> 0 /\
  0 mod log_interval (args demo_world) = 0.
Proof.
  assert (H : In demo_progress_line (fst (run_main demo_world no_raise))).
  { vm_compute. repeat (first [left; reflexivity | right]). }
  split; [exact H|].
  pose proof (rank0_output demo_world no_raise) as Hall.
  rewrite Forall_forall in Hall.
  exact (proj1 (Hall demo_progress_line H) 1 0 100 0 2 demo_loss eq_refl).
Defined.

(** ** Further properties: the local rank *)

Lemma main_result_ok w :
  main_result w = inr tt ->
  exists k, local_rank (args w) = Some k /\ 0 <= k /\
            result (epochs_prog w) false = inr tt.
Proof.
  unfold main_result. destruct (local_rank (args w)) as [k|]; [|discriminate].
  destruct (0 <=? k) eqn:Hk; [|discriminate].
  destruct (result (epochs_prog w) false) as [x|[]]; [discriminate|].
  intros _. exists k. repeat split. lia.
Qed.

Lemma run_main_never_ok w r :
  main_result w <> inr tt -> snd (run_main w r) <> inr tt.
Proof.
  intros Hn Hr. destruct (run_main_ok w r Hr) as [_ H]. exact (Hn H).
Qed.

(** X1: without [--local_rank] the script cannot succeed: whatever the
    libraries do it never returns, it constructs no dataset, and when no
    library call raises it fails with TypeError at the comparison of line
    170, right after [torch.cuda.synchronize()]. *)
Theorem missing_local_rank w r :
  local_rank (args w) = None ->
  snd (run_main w r) <> inr tt /\
  Forall (fun e => is_new_dataset e = false) (fst (run_main w r)) /\
  snd (run_main w no_raise) = inl TypeError /\
  exists pre, fst (run_main w no_raise) = pre ++ [ev 169 CudaSynchronize].
Proof.
  intros Hn.
  assert (Hres : main_result w = inl TypeError)
    by (unfold main_result; now rewrite Hn).
  assert (Hev : main_events w =
                (parser_events ++ device_events w ++
                 [ ev 165 (NewTransform ToTensor);
                   ev 165 (NewTransform (Normalize [0.1307%Q] [0.3081%Q]));
                   ev 165 (NewTransform the_transform) ]) ++
                [ev 169 CudaSynchronize]).
  { unfold main_events, data_events, dataset1_bound. rewrite Hn.
    rewrite app_nil_r, <- !app_assoc. reflexivity. }
  split; [|split; [|split]].
  - apply run_main_never_ok. rewrite Hres. discriminate.
  - eapply prefix_Forall; [apply run_main_prefix|]. rewrite Hev.
    repeat (apply Forall_app; split); try (repeat constructor).
    segment_cases; repeat constructor.
  - rewrite run_main_replay, replay_no_raise. exact Hres.
  - rewrite run_main_replay, replay_no_raise. cbn [fst]. rewrite Hev.
    now eexists.
Qed.

Lemma missing_local_rank_witness :
  local_rank (args no_rank_world) = None /\
  snd (run_main no_rank_world no_raise) = inl TypeError.
Proof.
  split; [reflexivity|].
  exact (proj1 (proj2 (proj2 (missing_local_rank no_rank_world no_raise
                                 eq_refl)))).
Defined.

(** X2: with a negative [--local_rank] neither branch of lines 167-171
    binds [dataset1]: the script never returns, the only dataset it
    constructs is the test set of line 173, it builds no sampler, loader or
    model, and when no library call raises it fails with UnboundLocalError
    at line 175. *)
Theorem negative_local_rank w r k :
  local_rank (args w) = Some k -> k < 0 ->
  snd (run_main w r) <> inr tt /\
  prefix (pick dataset_of (fst (run_main w r))) [dataset2_of] /\
  Forall (fun e => (line e <= 173)%nat /\ (118 <= line e)%nat)
    (fst (run_main w r)) /\
  snd (run_main w no_raise) = inl UnboundLocalError /\
  pick dataset_of (fst (run_main w no_raise)) = [dataset2_of].
Proof.
  intros Hk Hneg.
  assert (Hb : (0 <=? k) = false) by lia.
  assert (Hz : (k =? 0) = false) by lia.
  assert (Hp : (k >? 0) = false) by lia.
  assert (Hres : main_result w = inl UnboundLocalError)
    by (unfold main_result; now rewrite Hk, Hb).
  assert (Hev : main_events w =
                parser_events ++ device_events w ++
                [ ev 165 (NewTransform ToTensor);
                  ev 165 (NewTransform (Normalize [0.1307%Q] [0.3081%Q]));
                  ev 165 (NewTransform the_transform);
                  ev 169 CudaSynchronize;
                  ev 173 (NewDataset dataset2_of) ]).
  { unfold main_events, data_events, dataset1_bound.
    rewrite Hk. cbv iota beta. rewrite Hb, Hz, Hp. cbn [app].
    now rewrite ?app_nil_r. }
  assert (Hpick : pick dataset_of (main_events w) = [dataset2_of]).
  { rewrite Hev, !pick_app.
    assert (H1 : pick dataset_of (device_events w) = [])
      by (segment_cases; reflexivity).
    now rewrite H1. }
  split; [|split; [|split; [|split]]].
  - apply run_main_never_ok. rewrite Hres. discriminate.
  - rewrite <- Hpick. apply prefix_pick, run_main_prefix.
  - eapply prefix_Forall; [apply run_main_prefix|]. rewrite Hev.
    repeat (apply Forall_app; split);
      try (repeat constructor; cbn [line ev]; lia).
    segment_cases; repeat constructor; cbn [line]; lia.
  - rewrite run_main_replay, replay_no_raise. exact Hres.
  - rewrite run_main_replay, replay_no_raise. exact Hpick.
Qed.

Lemma negative_local_rank_witness :
  local_rank (args negative_rank_world) = Some (-1) /\ -1 < 0 /\
  snd (run_main negative_rank_world no_raise) = inl UnboundLocalError.
Proof.
  split; [reflexivity|]. split; [reflexivity|].
  exact (proj1 (proj2 (proj2 (proj2
    (negative_local_rank negative_rank_world no_raise (-1) eq_refl
       eq_refl))))).
Defined.

(** ** Further properties: datasets *)

Lemma no_data_step_in_loop w e : loop_event w e -> data_step_of e = None.
Proof. intros He. loop_cases He; reflexivity. Qed.

Lemma data_steps_main_events w :
  pick data_step_of (main_events w) =
  match local_rank (args w) with
  | None => [ds_synchronize]
  | Some k =>
      (if k =? 0 then [ds_dataset true true] else []) ++
      [ds_synchronize] ++
      (if k >? 0 then [ds_dataset true false] else []) ++
      [ds_dataset false false]
  end.
Proof.
  unfold main_events, loop_events. rewrite !pick_app.
  assert (H0 : pick data_step_of parser_events = []) by reflexivity.
  assert (H1 : pick data_step_of (device_events w) = [])
    by (segment_cases; reflexivity).
  assert (H3 : pick data_step_of (model_events w) = [])
    by (segment_cases; reflexivity).
  assert (H4 : pick data_step_of (save_events w) = [])
    by (segment_cases; reflexivity).
  assert (H5 : pick data_step_of (events (epochs_prog w) false) = []).
  { apply pick_none. eapply Forall_impl;
      [apply no_data_step_in_loop | apply loop_events_ok]. }
  assert (H6 : pick data_step_of
                 (if dataset1_bound w
                  then model_events w ++ events (epochs_prog w) false ++
                       match result (epochs_prog w) false with
                       | inl _ => []
                       | inr _ => save_events w
                       end
                  else []) = []).
  { destruct (dataset1_bound w); [|reflexivity].
    rewrite !pick_app, H3, H5.
    now destruct (result (epochs_prog w) false). }
  rewrite H0, H1, H6, app_nil_r. cbn [app].
  unfold data_events, dataset1_of.
  destruct (local_rank (args w)) as [k|]; [|reflexivity].
  destruct k as [|p|p]; reflexivity.
Qed.

(** X3: only the process with local rank 0 downloads MNIST, and it does so
    before [torch.cuda.synchronize()]; a process with a positive local rank
    opens the training set without downloading, after the synchronize; the
    test set is opened last and never downloaded.  Every run shows an
    initial part of this sequence. *)
Theorem dataset_download_order w r :
  let plan :=
    match local_rank (args w) with
    | None => [ds_synchronize]
    | Some k =>
        (if k =? 0 then [ds_dataset true true] else []) ++
        [ds_synchronize] ++
        (if k >? 0 then [ds_dataset true false] else []) ++
        [ds_dataset false false]
    end in
  prefix (pick data_step_of (fst (run_main w r))) plan /\
  pick data_step_of (fst (run_main w no_raise)) = plan.
Proof.
  intros plan. unfold plan. rewrite <- data_steps_main_events. split.
  - apply prefix_pick, run_main_prefix.
  - now rewrite run_main_replay, replay_no_raise.
Qed.

(** ** Further properties: the number of epochs *)

Lemma range_empty lo hi : hi <= lo -> range lo hi = [].
Proof.
  intros H. unfold range. replace (Z.to_nat (hi - lo)) with 0%nat by lia.
  reflexivity.
Qed.

(** X10: with [--epochs] zero or negative the epoch loop is empty: no run
    trains, evaluates, runs [forward] or steps the scheduler, and a run of
    rank 0 with
    [--save-model] in which no library call raises still writes the
    checkpoint of the untrained model. *)
Theorem no_epochs_no_training w r :
  epochs (args w) <= 0 ->
  Forall (fun e => phase e <> ph_forward /\ phase e <> ph_train /\
                   phase e <> ph_eval /\ phase e <> ph_scheduler)
    (fst (run_main w r)) /\
  (forall k, local_rank (args w) = Some k -> 0 <= k ->
   save_model (args w) = true -> rank w = 0 ->
   exists pre,
     run_main w no_raise =
     (pre ++ [ev 203 (Save (ddp_model w) "mnist_cnn.pt")], inr tt)).
Proof.
  intros He.
  assert (Hloop : epochs_prog w = ret tt).
  { unfold epochs_prog. rewrite range_empty by lia. reflexivity. }
  assert (Hev : events (epochs_prog w) false = [])
    by (now rewrite Hloop).
  assert (Hres : result (epochs_prog w) false = inr tt)
    by (now rewrite Hloop).
  split.
  - eapply prefix_Forall; [apply run_main_prefix|].
    unfold main_events, loop_events. rewrite Hev, Hres.
    apply Forall_app; split;
      [|apply Forall_app; split; [|apply Forall_app; split]].
    + repeat constructor; discriminate.
    + segment_cases; repeat constructor; discriminate.
    + segment_cases; repeat constructor; discriminate.
    + destruct (dataset1_bound w); [|constructor].
      apply Forall_app; split;
        segment_cases; repeat constructor; discriminate.
  - intros k Hk Hk0 Hs Hr.
    assert (Hb : dataset1_bound w = true)
      by (unfold dataset1_bound; rewrite Hk; lia).
    rewrite run_main_replay, replay_no_raise.
    exists (before_save w). f_equal.
    + rewrite main_events_save. unfold saves.
      rewrite Hb, Hres, Hs, Hr. reflexivity.
    + unfold main_result. rewrite Hk, Hres.
      now replace (0 <=? k) with true by lia.
Qed.

Lemma no_epochs_no_training_witness :
  epochs (args zero_epochs_world) <= 0 /\
  snd (run_main zero_epochs_world no_raise) = inr tt /\
  pick sched_of (fst (run_main zero_epochs_world no_raise)) = [].
Proof.
  assert (H : epochs (args zero_epochs_world) <= 0) by (cbn; lia).
  split; [exact H|].
  destruct (proj2 (no_epochs_no_training zero_epochs_world no_raise H)
              0 eq_refl (Z.le_refl 0) eq_refl eq_refl) as [pre Hpre].
  split; [now rewrite Hpre|]. vm_compute. reflexivity.
Defined.

(** ** Further properties: one pass of the evaluation loop *)

Lemma test_body_no_raise model device i b acc g h :
  test_body model device i b acc g no_raise h =
  (test_body_events model device b g,
   inr (Continue (fst acc ++ [batch_loss model device b],
                  snd acc ++ [batch_hits model device b]))).
Proof. reflexivity. Qed.

Lemma events_test_body model device i b acc g :
  events (test_body model device i b acc) g
  = test_body_events model device b g.
Proof. reflexivity. Qed.

Lemma result_test_body model device i b acc g :
  result (test_body model device i b acc) g =
  inr (Continue (fst acc ++ [batch_loss model device b],
                 snd acc ++ [batch_hits model device b])).
Proof. reflexivity. Qed.

(** ** Further properties: tools *)

(** Establish a property of every call of [train]. *)
Lemma Forall_train (P : Event -> Prop) w args model device train_loader
  optimizer epoch g :
  P (mkEvent 64 g (ModelTrain model)) ->
  P (mkEvent 65 g (LoaderIter train_loader)) ->
  P (mkEvent 65 g (LoaderNext train_loader)) ->
  (forall i b,
     Forall P (train_body_events w args model device train_loader optimizer
                 epoch i b g)) ->
  Forall P (events (train w args model device train_loader optimizer epoch) g).
Proof.
  intros H1 H2 H3 H4. rewrite events_train_eq. constructor; [exact H1|].
  unfold for_loader.
  apply Forall_events_bind;
    [apply uniform_call
     | intros; apply uniform_for_batches; intros; apply uniform_train_body
     | repeat constructor; exact H2 | intros _].
  apply Forall_for_batches.
  - intros; apply uniform_train_body.
  - exact H3.
  - intros. rewrite events_train_body. apply H4.
Qed.

(** Establish a property of every call of [test]. *)
Lemma Forall_test (P : Event -> Prop) w model device test_loader g :
  P (mkEvent 95 g (ModelEval model)) ->
  P (mkEvent 98 g NoGrad) ->
  P (mkEvent 99 true (LoaderIter test_loader)) ->
  P (mkEvent 99 true (LoaderNext test_loader)) ->
  (forall b, Forall P (test_body_events model device b true)) ->
  (forall losses corrects n, P (mkEvent 108 g (PrintTest losses corrects n))) ->
  Forall P (events (test w model device test_loader) g).
Proof.
  intros H1 H2 H3 H4 H5 H6. unfold test.
  apply Forall_events_bind;
    [apply uniform_call | intros; uniform_tac; apply uniform_test_body
     | repeat constructor; exact H1 | intros _].
  apply Forall_events_bind;
    [apply uniform_call | intros; uniform_tac; apply uniform_test_body
     | repeat constructor; exact H2 | intros _].
  apply Forall_events_bind;
    [uniform_tac; apply uniform_test_body | intros; uniform_tac | |].
  - change (Forall P
      (events (for_loader w 99 test_loader (test_body model device) ([], []))
         true)).
    unfold for_loader.
    apply Forall_events_bind;
      [apply uniform_call
       | intros; apply uniform_for_batches; intros; apply uniform_test_body
       | repeat constructor; exact H3 | intros _].
    apply Forall_for_batches.
    + intros; apply uniform_test_body.
    + exact H4.
    + intros. rewrite events_test_body. apply H5.
  - intros acc. destruct (dataset_len w (dataset test_loader) =? 0).
    + constructor.
    + repeat constructor. apply H6.
Qed.

(** Establish a property of every call of the epoch loop of [main]. *)
Lemma Forall_loop (P : Event -> Prop) w :
  (forall epoch,
     P (ev 195 (SamplerSetEpoch (train_sampler_of w) epoch))) ->
  (forall epoch,
     Forall P
       (events (train w (args w) (ddp_model w) (device_of w)
                  (with_sampler (train_loader_of w)
                     (set_epoch (train_sampler_of w) epoch))
                  (the_optimizer w) epoch) false)) ->
  P (ev 197 GetRank) ->
  (rank w = 0 ->
   Forall P
     (events (test w (inner_model w) (device_of w) (test_loader_of w))
        false)) ->
  P (ev 199 (SchedulerStep (the_optimizer w))) ->
  Forall P (events (epochs_prog w) false).
Proof.
  intros H1 H2 H3 H4 H5.
  apply (Forall_for_each P (main_epoch_body w));
    [apply uniform_main_epoch_body|].
  intros epoch. unfold events at 1, main_epoch_body, scheduler_of.
  rewrite epoch_body_no_raise. cbn [fst].
  constructor; [apply H1|]. apply Forall_app. split; [apply H2|].
  match goal with |- context [result ?m false] =>
    destruct (result m false) as [x|[]] end; [constructor|].
  constructor; [exact H3|].
  destruct (rank w =? 0) eqn:Hr.
  - apply Forall_app. split; [apply H4; lia|].
    match goal with |- context [result ?m false] =>
      destruct (result m false) as [x|[]] end;
      [constructor | constructor; [exact H5 | constructor]].
  - constructor; [exact H5 | constructor].
Qed.

(** Establish a property of every call of [main]. *)
Lemma Forall_main (P : Event -> Prop) w :
  Forall P parser_events ->
  Forall P (device_events w) -> Forall P (data_events w) ->
  Forall P (model_events w) -> Forall P (events (epochs_prog w) false) ->
  Forall P (save_events w) ->
  Forall P (main_events w).
Proof.
  intros Hp Hd Ha Hm Hl Hs. unfold main_events, loop_events.
  apply Forall_app; split; [exact Hp|].
  apply Forall_app; split; [exact Hd|].
  apply Forall_app; split; [exact Ha|].
  destruct (dataset1_bound w); [|constructor].
  apply Forall_app; split; [exact Hm|].
  apply Forall_app; split; [exact Hl|].
  destruct (result (epochs_prog w) false); [constructor | exact Hs].
Qed.

(** ** Further properties: the device *)

Ltac device_case :=
  split;
  [ intros ? ? HH; try discriminate HH
  | split;
    [ intros ? ? HH; try discriminate HH
    | split;
      [ intros ? HH; try discriminate HH
      | intros HH; try discriminate HH ] ] ].

Ltac device_list :=
  repeat (apply Forall_cons || apply Forall_nil); device_case;
  try match goal with
      | H : op _ = _ |- _ => cbn in H; inversion H; subst; reflexivity
      end.

Lemma device_ok_main w : Forall (device_ok w) (main_events w).
Proof.
  apply Forall_main.
  - device_list.
  - unfold device_events, ev.
    destruct (no_cuda (args w)) eqn:Hn; cbn [app]; device_list;
      first [reflexivity | assumption].
  - segment_cases; device_list.
  - segment_cases; device_list.
  - apply Forall_loop.
    + intros; device_case.
    + intros epoch. apply Forall_train; try device_case.
      intros i b. unfold train_body_events, forward_events.
      destruct (has_all_reduce_grads w (the_optimizer w));
        destruct (logs w (args w) i); cbn [app]; device_list.
    + device_case.
    + intros _. apply Forall_test; try device_case.
      intros b. unfold test_body_events, forward_events. cbn [app].
      device_list.
    + device_case.
  - segment_cases; device_list.
Qed.

(** X4: one device is used throughout a run.  The device object, the model
    and every batch tensor (in training and in evaluation) go to CUDA
    exactly when [--no-cuda] is absent and CUDA is available, otherwise to
    the CPU; with [--no-cuda], [torch.cuda.is_available()] is not even
    called. *)
Theorem single_device w r :
  let on_cuda := negb (no_cuda (args w)) && cuda_available w in
  let dev := if on_cuda then Cuda else Cpu in
  Forall (fun e =>
            (forall m d, op e = ModuleTo m d -> d = dev) /\
            (forall t d, op e = TensorTo t d -> d = dev) /\
            (forall n, op e = TorchDevice n ->
               n = if on_cuda then "cuda" else "cpu") /\
            (op e = CudaIsAvailable -> no_cuda (args w) = false))
    (fst (run_main w r)).
Proof.
  exact (prefix_Forall _ _ _ (run_main_prefix w r) (device_ok_main w)).
Qed.

Lemma main_events_model_to w :
  dataset1_bound w = true ->
  main_events w = before_model_to w ++ from_model_to w.
Proof.
  intros Hb. unfold main_events, before_model_to, from_model_to.
  rewrite Hb. rewrite <- (firstn_skipn 7 (model_events w)) at 1.
  now rewrite <- !app_assoc.
Qed.

Lemma line_182_not_before w :
  Forall (fun e => ~ line e = 182%nat) (before_model_to w).
Proof.
  unfold before_model_to.
  apply Forall_app; split; [|apply Forall_app; split; [|apply Forall_app; split]].
  - repeat constructor; discriminate.
  - segment_cases; repeat constructor; discriminate.
  - segment_cases; repeat constructor; discriminate.
  - unfold model_events. cbn [app firstn]. repeat constructor; discriminate.
Qed.

Lemma cuda_calls_before_model_to w :
  In (ev 148 (CudaSetDevice (local_rank (args w)))) (before_model_to w) /\
  In (ev 149 (InitProcessGroup "nccl" "env://")) (before_model_to w) /\
  In (ev 169 CudaSynchronize) (before_model_to w).
Proof.
  unfold before_model_to. repeat split.
  - apply in_or_app. right. apply in_or_app. left.
    unfold device_events. apply in_or_app. right. now left.
  - apply in_or_app. right. apply in_or_app. left.
    unfold device_events. apply in_or_app. right. right. now left.
  - apply in_or_app. right. apply in_or_app. right. apply in_or_app. left.
    unfold data_events. apply in_or_app. right.
    destruct (local_rank (args w)) as [k|]; [|now left].
    apply in_or_app. right. now left.
Qed.

Lemma ddp_call_main w :
  Forall (fun e =>
            forall m ids out, op e = NewDDP m ids out ->
              m = inner_model w /\ ids = [local_rank (args w)] /\
              out = local_rank (args w))
    (main_events w).
Proof.
  apply Forall_main_events.
  - repeat (apply Forall_cons || apply Forall_nil); intros ? ? ? HH;
      discriminate HH.
  - segment_cases; repeat (apply Forall_cons || apply Forall_nil);
      intros ? ? ? HH; discriminate HH.
  - segment_cases; repeat (apply Forall_cons || apply Forall_nil);
      intros ? ? ? HH; discriminate HH.
  - segment_cases; repeat (apply Forall_cons || apply Forall_nil);
      intros ? ? ? HH; try discriminate HH;
      cbn in HH; inversion HH; subst; repeat split.
  - intros e He. loop_cases He; intros ? ? ? HH; discriminate HH.
  - segment_cases; repeat (apply Forall_cons || apply Forall_nil);
      intros ? ? ? HH; discriminate HH.
Qed.

Lemma model_device_inner w : model_device (inner_model w) = Some (device_of w).
Proof. unfold inner_model. now destruct (enable_msamp (args w)). Qed.

(** X5: [--no-cuda] keeps neither CUDA nor NCCL out of the run.  With it,
    [torch.cuda.is_available()] is never called and the model and every
    batch go to the CPU; yet a run that gets as far as moving the model
    (line 182) has before that called [torch.cuda.set_device],
    [init_process_group] with the NCCL backend and
    [torch.cuda.synchronize()], and line 189 asks DistributedDataParallel
    to wrap that CPU model with [device_ids=[local_rank]]. *)
Theorem no_cuda_still_needs_cuda w r :
  no_cuda (args w) = true ->
  let tr := fst (run_main w r) in
  Forall (fun e =>
            op e <> CudaIsAvailable /\
            (forall m d, op e = ModuleTo m d -> d = Cpu) /\
            (forall t d, op e = TensorTo t d -> d = Cpu) /\
            (forall m ids out, op e = NewDDP m ids out ->
               model_device m = Some Cpu /\
               ids = [local_rank (args w)] /\ out = local_rank (args w)))
    tr /\
  (Exists (fun e => line e = 182%nat) tr ->
   exists pre post,
     tr = pre ++ ev 182 (ModuleTo (MNet the_net) Cpu) :: post /\
     In (ev 148 (CudaSetDevice (local_rank (args w)))) pre /\
     In (ev 149 (InitProcessGroup "nccl" "env://")) pre /\
     In (ev 169 CudaSynchronize) pre).
Proof.
  intros Hn tr. pose proof (run_main_prefix w r) as Hp. fold tr in Hp.
  assert (Hdev : device_of w = Cpu)
    by (unfold device_of, use_cuda; now rewrite Hn).
  split.
  - apply (prefix_Forall _ _ _ Hp).
    pose proof (device_ok_main w) as H1. pose proof (ddp_call_main w) as H2.
    rewrite Forall_forall in *. intros e He.
    destruct (H1 e He) as [Hm [Ht [_ Hc]]]. specialize (H2 e He).
    split; [|split; [|split]].
    + intros Hop. specialize (Hc Hop). congruence.
    + intros m d Hop. now rewrite (Hm m d Hop).
    + intros t d Hop. now rewrite (Ht t d Hop).
    + intros m ids out Hop. destruct (H2 m ids out Hop) as [-> [-> ->]].
      rewrite model_device_inner, Hdev. repeat split.
  - intros Hreach. destruct (dataset1_bound w) eqn:Hb.
    + rewrite (main_events_model_to w Hb) in Hp.
      destruct (prefix_reach _ _ _ _ Hp (line_182_not_before w) Hreach)
        as [k [Hk Hk']].
      destruct k as [|e k].
      * exfalso. rewrite app_nil_r in Hk. rewrite Hk in Hreach.
        apply Exists_exists in Hreach. destruct Hreach as [e [He1 He2]].
        pose proof (line_182_not_before w) as Hf.
        rewrite Forall_forall in Hf. exact (Hf e He1 He2).
      * destruct Hk' as [k' Hk']. unfold from_model_to, model_events in Hk'.
        cbn [app skipn] in Hk'. inversion Hk' as [[He Hrest]].
        exists (before_model_to w), k. rewrite Hk, <- He, Hdev.
        split; [reflexivity|].
        apply cuda_calls_before_model_to.
    + exfalso. unfold main_events in Hp. rewrite Hb, app_nil_r in Hp.
      assert (Hf : Forall (fun e => ~ line e = 182%nat)
                     (parser_events ++ device_events w ++ data_events w)).
      { apply Forall_app; split; [|apply Forall_app; split].
        - repeat constructor; discriminate.
        - segment_cases; repeat constructor; discriminate.
        - segment_cases; repeat constructor; discriminate. }
      pose proof (prefix_Forall _ _ _ Hp Hf) as Hf'.
      apply Exists_exists in Hreach. destruct Hreach as [e [He1 He2]].
      rewrite Forall_forall in Hf'. exact (Hf' e He1 He2).
Qed.

Lemma no_cuda_still_needs_cuda_witness :
  no_cuda (args no_cuda_world) = true /\
  snd no_cuda_run = inl (LibraryError "ValueError") /\
  Exists (fun e => line e = 182%nat) (fst no_cuda_run) /\
  exists pre post,
    fst no_cuda_run = pre ++ ev 182 (ModuleTo (MNet the_net) Cpu) :: post /\
    In (ev 169 CudaSynchronize) pre.
Proof.
  assert (H : Exists (fun e => line e = 182%nat) (fst no_cuda_run)).
  { apply Exists_exists. exists (ev 182 (ModuleTo (MNet the_net) Cpu)).
    split; [|reflexivity]. vm_compute.
    repeat (first [left; reflexivity | right]). }
  split; [reflexivity|]. split; [vm_compute; reflexivity|].
  split; [exact H|].
  destruct (proj2 (no_cuda_still_needs_cuda no_cuda_world ddp_refuses_cpu
                     eq_refl) H) as [pre [post [H1 [_ [_ H2]]]]].
  exists pre, post. split; [exact H1 | exact H2].
Defined.

(** ** Further properties: keyword dictionaries *)

Lemma kw_get_set_same k v d : kw_get k (kw_set k v d) = Some v.
Proof.
  induction d as [|[k' v'] d IH]; simpl.
  - now rewrite String.eqb_refl.
  - destruct (String.eqb k k') eqn:Hk; simpl.
    + now rewrite String.eqb_refl.
    + now rewrite Hk.
Qed.

Lemma kw_get_set_other k k' v d :
  k <> k' -> kw_get k (kw_set k' v d) = kw_get k d.
Proof.
  intros Hne. induction d as [|[k'' v''] d IH]; simpl.
  - now replace (String.eqb k k') with false
      by (symmetry; now apply String.eqb_neq).
  - destruct (String.eqb k' k'') eqn:Hk; simpl.
    + apply String.eqb_eq in Hk. subst k''.
      now replace (String.eqb k k') with false
        by (symmetry; now apply String.eqb_neq).
    + destruct (String.eqb k k''); [reflexivity | exact IH].
Qed.

(** X6: [dict.update] as the script uses it on the loader keyword
    dictionaries: after [d.update(extra)] a key has the value of its last
    occurrence in [extra] and, when [extra] does not have it, the value it
    had in [d]. *)
Theorem kw_update_get k extra : forall d,
  kw_get k (kw_update d extra) =
  match kw_get k (rev extra) with
  | Some v => Some v
  | None => kw_get k d
  end.
Proof.
  unfold kw_update. induction extra as [|[k' v'] extra IH] using rev_ind;
    intros d.
  - reflexivity.
  - rewrite fold_left_app, rev_app_distr. simpl.
    destruct (String.eqb k k') eqn:Hk.
    + apply String.eqb_eq in Hk. subst k'. apply kw_get_set_same.
    + rewrite kw_get_set_other by (now apply String.eqb_neq). apply IH.
Qed.

Lemma loader_kwargs_main w : Forall (loader_kwargs_ok w) (main_events w).
Proof.
  apply Forall_main_events.
  - repeat (apply Forall_cons || apply Forall_nil); intros ? HH;
      discriminate HH.
  - segment_cases; repeat (apply Forall_cons || apply Forall_nil);
      intros ? HH; discriminate HH.
  - unfold data_events, ev.
    destruct (local_rank (args w)) as [k|];
      [destruct (k =? 0); destruct (k >? 0); destruct (0 <=? k)|];
      cbn [app]; repeat (apply Forall_cons || apply Forall_nil);
      intros ? HH; try discriminate HH;
      cbn in HH; inversion HH; subst;
      unfold train_loader_of, test_loader_of, train_kwargs_of,
        test_kwargs_of, cuda_kwargs;
      destruct (use_cuda w); repeat split.
  - segment_cases; repeat (apply Forall_cons || apply Forall_nil);
      intros ? HH; discriminate HH.
  - intros e He. loop_cases He; intros ? HH; discriminate HH.
  - segment_cases; repeat (apply Forall_cons || apply Forall_nil);
      intros ? HH; discriminate HH.
Qed.

(** X7: both loaders get their batch size from the command line (the
    training loader, line 179, from [--batch-size], the test loader from
    [--test-batch-size]); they get [num_workers=1] and [pin_memory=True]
    exactly when CUDA is used, and adding those never touches the batch
    size. *)
Theorem loader_kwargs w r :
  let on_cuda := negb (no_cuda (args w)) && cuda_available w in
  Forall (fun e =>
            forall l, op e = NewDataLoader l ->
              kw_get "batch_size" (kwargs l) =
                Some (KInt (if (line e =? 179)%nat then batch_size (args w)
                            else test_batch_size (args w))) /\
              kw_get "num_workers" (kwargs l) =
                (if on_cuda then Some (KInt 1) else None) /\
              kw_get "pin_memory" (kwargs l) =
                (if on_cuda then Some (KBool true) else None))
    (fst (run_main w r)).
Proof.
  exact (prefix_Forall _ _ _ (run_main_prefix w r) (loader_kwargs_main w)).
Qed.

(** ** Further properties: gradients, wrappers and the objects trained *)

Ltac grad_list :=
  repeat (apply Forall_cons || apply Forall_nil);
  (split; [intros HH; try discriminate HH; split; reflexivity
          | intros ? ? HH; try discriminate HH; reflexivity]).

Lemma grad_ok_main w : Forall grad_ok (main_events w).
Proof.
  apply Forall_main.
  - grad_list.
  - segment_cases; grad_list.
  - segment_cases; grad_list.
  - segment_cases; grad_list.
  - apply Forall_loop.
    + intros; grad_list.
    + intros epoch. apply Forall_train; try grad_list.
      intros i b. unfold train_body_events, forward_events.
      destruct (has_all_reduce_grads w (the_optimizer w));
        destruct (logs w (args w) i); cbn [app]; grad_list.
    + grad_list.
    + intros _. apply Forall_test; try grad_list.
      intros b. unfold test_body_events, forward_events. cbn [app].
      grad_list.
    + grad_list.
  - segment_cases; grad_list.
Qed.

(** X8: gradients are computed and applied only in training and always
    with autograd enabled, while every forward pass of the evaluation runs
    under [torch.no_grad()] and every forward pass of training outside
    it. *)
Theorem gradient_discipline w r :
  Forall (fun e =>
            (is_update e = true ->
             under_no_grad e = false /\ in_test (line e) = false) /\
            (forall m x, op e = ModelCall m x ->
               under_no_grad e = in_test (line e)))
    (fst (run_main w r)).
Proof.
  exact (prefix_Forall _ _ _ (run_main_prefix w r) (grad_ok_main w)).
Qed.

(** X9: [test] only evaluates, whoever calls it: it never zeroes, computes,
    reduces or applies gradients and never puts the model in training mode;
    every forward pass is on the model it was given and under
    [torch.no_grad()]. *)
Theorem test_only_evaluates w model device test_loader g r h :
  Forall (fun e =>
            is_update e = false /\
            (forall m, op e <> ModelTrain m) /\
            (forall m x, op e = ModelCall m x ->
               m = model /\ under_no_grad e = true))
    (fst (test w model device test_loader g r h)).
Proof.
  eapply prefix_Forall;
    [apply (run_prefix _ (uniform_test w model device test_loader))|].
  eapply Forall_impl; [|apply test_events_ok].
  intros e He.
  destruct He; forward_cases;
    (split; [reflexivity
            | split; [intros ?; discriminate
                     | intros ? ? HH; try discriminate HH;
                       cbn in HH; inversion HH; split; reflexivity]]).
Qed.

Ltac wrapper_case :=
  split;
  [ intros ? ? HH; try discriminate HH
  | split; intros ? HH; try discriminate HH ].

Lemma wrapper_ok_main w : Forall (wrapper_ok w) (main_events w).
Proof.
  apply Forall_main_events.
  - repeat (apply Forall_cons || apply Forall_nil); wrapper_case.
  - segment_cases; repeat (apply Forall_cons || apply Forall_nil);
      wrapper_case.
  - segment_cases; repeat (apply Forall_cons || apply Forall_nil);
      wrapper_case.
  - segment_cases; repeat (apply Forall_cons || apply Forall_nil);
      wrapper_case.
  - intros e He. loop_cases He; wrapper_case;
      cbn in HH; inversion HH; subst; cbn; auto.
  - segment_cases; repeat (apply Forall_cons || apply Forall_nil);
      wrapper_case.
Qed.

(** X11: training goes through the DistributedDataParallel wrapper and
    evaluation around it: every forward pass of [train] and its
    [model.train()] are on the wrapper built at line 189, while [test],
    which only rank 0 runs, is given [model.module] and makes its
    [eval()] and its forward passes on the wrapped model itself. *)
Theorem wrapper_in_training_module_in_evaluation w r :
  let wrapper :=
    MDDP (inner_model w) [local_rank (args w)] (local_rank (args w)) in
  Forall (fun e =>
            (forall m x, op e = ModelCall m x ->
               if in_test (line e) then m = inner_model w /\ rank w = 0
               else m = wrapper) /\
            (forall m, op e = ModelTrain m -> m = wrapper) /\
            (forall m, op e = ModelEval m -> m = inner_model w /\ rank w = 0))
    (fst (run_main w r)).
Proof.
  exact (prefix_Forall _ _ _ (run_main_prefix w r) (wrapper_ok_main w)).
Qed.

Ltac objects_case :=
  split;
  [ intros ? HH; try discriminate HH
  | split;
    [ intros ? HH; try discriminate HH
    | split;
      [ intros ? ? HH; try discriminate HH
      | split;
        [ intros ? ? ? HH; try discriminate HH
        | intros ? HH; try discriminate HH ] ] ] ].

Lemma msamp_objects_main w : Forall (msamp_objects_ok w) (main_events w).
Proof.
  apply Forall_main_events.
  - repeat (apply Forall_cons || apply Forall_nil); objects_case.
  - segment_cases; repeat (apply Forall_cons || apply Forall_nil);
      objects_case.
  - segment_cases; repeat (apply Forall_cons || apply Forall_nil);
      objects_case.
  - segment_cases; repeat (apply Forall_cons || apply Forall_nil);
      objects_case; cbn in HH; inversion HH; subst; reflexivity.
  - intros e He. loop_cases He; objects_case;
      cbn in HH; inversion HH; subst;
      first [ reflexivity
            | unfold inner_model; destruct (enable_msamp (args w));
              reflexivity ].
  - segment_cases; repeat (apply Forall_cons || apply Forall_nil);
      objects_case.
Qed.

(** X12: with [--enable-msamp] everything after line 187 works on what
    [msamp.initialize] returned: the optimizer that is zeroed, reduced and
    stepped, the optimizer the scheduler is built on and steps, and the
    model inside the DistributedDataParallel wrapper that is trained and
    evaluated are the returned ones, never the plain AdamW or the plain
    [Net]. *)
Theorem msamp_objects_are_used w r :
  enable_msamp (args w) = true ->
  let net := MTo (MNet the_net) (device_of w) in
  let adamw := OAdamW net (lr (args w)) in
  let model' := MMsamp net adamw (opt_level (args w)) in
  let optimizer' := OMsamp net adamw (opt_level (args w)) in
  Forall (fun e =>
            (forall o, stepped_optimizer e = Some o -> o = optimizer') /\
            (forall m, trained_model e = Some m -> module m = model') /\
            (forall o m, op e = AllReduceGrads o m -> o = optimizer') /\
            (forall o s q, op e = NewStepLR o s q -> o = optimizer') /\
            (forall o, op e = SchedulerStep o -> o = optimizer'))
    (fst (run_main w r)).
Proof.
  intros Hon net adamw model' optimizer'.
  assert (Hm : inner_model w = model')
    by (unfold inner_model; now rewrite Hon).
  assert (Ho : the_optimizer w = optimizer')
    by (unfold the_optimizer; now rewrite Hon).
  rewrite <- Hm, <- Ho.
  exact (prefix_Forall _ _ _ (run_main_prefix w r) (msamp_objects_main w)).
Qed.

Lemma msamp_objects_are_used_witness :
  enable_msamp (args demo_world) = true /\
  Forall (fun e => forall o, op e = SchedulerStep o ->
                             o = the_optimizer demo_world)
    (fst (run_main demo_world no_raise)).
Proof.
  split; [reflexivity|].
  eapply Forall_impl;
    [|exact (msamp_objects_are_used demo_world no_raise eq_refl)].
  intros e [_ [_ [_ [_ H]]]]. exact H.
Defined.

(** ** Further properties: the evaluation summary *)

Lemma test_loop l loader model device g batches : forall i acc,
  result (for_batches l loader batches i (test_body model device) acc) g =
    inr (fst acc ++ map (batch_loss model device) batches,
         snd acc ++ map (batch_hits model device) batches) /\
  pick forward_input
    (events (for_batches l loader batches i (test_body model device) acc) g)
  = map (fun b => TTo (data b) device) batches /\
  pick summary_of
    (events (for_batches l loader batches i (test_body model device) acc) g)
  = [].
Proof.
  induction batches as [|b rest IH]; intros i acc.
  - destruct acc as [a1 a2]. cbn [map fst snd]. rewrite !app_nil_r.
    repeat split.
  - rewrite events_for_batches_cons, result_for_batches_cons
      by (intros; apply uniform_test_body).
    rewrite events_test_body, result_test_body.
    destruct (IH (i + 1)
                (fst acc ++ [batch_loss model device b],
                 snd acc ++ [batch_hits model device b])) as [H1 [H2 H3]].
    rewrite H1. cbn [fst snd map]. rewrite <- !app_assoc. cbn [app].
    split; [reflexivity|].
    rewrite !pick_cons_none by reflexivity. rewrite !pick_app, H2, H3.
    split; reflexivity.
Qed.

Lemma events_for_loader {S} w l loader
  (body : Z -> Batch -> S -> M (Flow S)) s g :
  (forall i b s, uniform (body i b s)) ->
  events (for_loader w l loader body s) g =
  mkEvent l g (LoaderIter loader) ::
  events (for_batches l loader (loader_batches w loader) 0 body s) g.
Proof.
  intros Hb. unfold for_loader.
  rewrite events_bind; [reflexivity | apply uniform_call|].
  intros _. now apply uniform_for_batches.
Qed.

Lemma result_for_loader {S} w l loader
  (body : Z -> Batch -> S -> M (Flow S)) s g :
  (forall i b s, uniform (body i b s)) ->
  result (for_loader w l loader body s) g =
  result (for_batches l loader (loader_batches w loader) 0 body s) g.
Proof.
  intros Hb. unfold for_loader.
  rewrite result_bind; [reflexivity | apply uniform_call|].
  intros _. now apply uniform_for_batches.
Qed.

Lemma test_no_raise w model device test_loader g h :
  test w model device test_loader g no_raise h =
  (mkEvent 95 g (ModelEval model) :: mkEvent 98 g NoGrad ::
   mkEvent 99 true (LoaderIter test_loader) ::
   events (for_batches 99 test_loader (loader_batches w test_loader) 0
             (test_body model device) ([], [])) true ++
   (if dataset_len w (dataset test_loader) =? 0 then []
    else [mkEvent 108 g
            (PrintTest
               (map (batch_loss model device) (loader_batches w test_loader))
               (map (batch_hits model device) (loader_batches w test_loader))
               (dataset_len w (dataset test_loader)))]),
   if dataset_len w (dataset test_loader) =? 0 then inl ZeroDivisionError
   else inr tt).
Proof.
  destruct (test_loop 99 test_loader model device true
              (loader_batches w test_loader) 0 ([], [])) as [H1 _].
  unfold test, bind, call, no_grad. cbn [no_raise].
  rewrite (uniform_no_raise
             (for_loader w 99 test_loader (test_body model device) ([], [])))
    by (apply uniform_for_loader; intros; apply uniform_test_body).
  rewrite events_for_loader, result_for_loader
    by (intros; apply uniform_test_body).
  rewrite H1. cbn [fst snd app].
  destruct (dataset_len w (dataset test_loader) =? 0);
    cbn [raise no_raise app]; rewrite ?app_nil_r; reflexivity.
Qed.

(** X13: the summary of [test] leaves no batch out: a run of [test] that
    returns made one forward pass per batch of the loader, in the loader's
    order, and its summary line is computed from the loss sums and hit
    counts of all of them and the length of the data set.  When that length
    is zero the division of line 106 raises ZeroDivisionError and no
    summary is printed, in any run. *)
Theorem test_reports_every_batch w model device test_loader g r h :
  let n := dataset_len w (dataset test_loader) in
  let batches := loader_batches w test_loader in
  let run := test w model device test_loader g r h in
  (snd run = inr tt ->
   n <> 0 /\
   pick forward_input (fst run) = map (fun b => TTo (data b) device) batches /\
   pick summary_of (fst run) =
     [(map (batch_loss model device) batches,
       map (batch_hits model device) batches, n)]) /\
  (n = 0 ->
   snd run <> inr tt /\ pick summary_of (fst run) = [] /\
   snd (test w model device test_loader g no_raise h)
   = inl ZeroDivisionError).
Proof.
  intros n batches run.
  pose proof (uniform_test w model device test_loader) as Hu.
  pose proof (test_no_raise w model device test_loader g []) as Hnr.
  fold n batches in Hnr.
  destruct (test_loop 99 test_loader model device true batches 0 ([], []))
    as [_ [H2 H3]].
  assert (Hev : events (test w model device test_loader) g
                = fst (test w model device test_loader g no_raise []))
    by reflexivity.
  assert (Hres : result (test w model device test_loader) g
                 = if n =? 0 then inl ZeroDivisionError else inr tt).
  { unfold result. now rewrite Hnr. }
  assert (Hsum : pick summary_of (events (test w model device test_loader) g)
                 = if n =? 0 then []
                   else [(map (batch_loss model device) batches,
                          map (batch_hits model device) batches, n)]).
  { rewrite Hev, Hnr. cbn [fst].
    rewrite !pick_cons_none by reflexivity. rewrite pick_app, H3.
    now destruct (n =? 0). }
  assert (Hfwd : pick forward_input (events (test w model device test_loader) g)
                 = map (fun b => TTo (data b) device) batches).
  { rewrite Hev, Hnr. cbn [fst].
    rewrite !pick_cons_none by reflexivity. rewrite pick_app, H2.
    destruct (n =? 0); [|rewrite pick_cons_none by reflexivity];
      cbn [pick]; apply app_nil_r. }
  split.
  - intros Hret. destruct (run_ok _ Hu g r h tt Hret) as [Hrun Hr].
    rewrite Hres in Hr. destruct (n =? 0) eqn:Hn; [discriminate|].
    unfold run. rewrite Hrun. cbn [fst].
    split; [lia|]. split; [exact Hfwd | exact Hsum].
  - intros Hz. assert (Hn : (n =? 0) = true) by lia.
    rewrite Hn in Hres, Hsum. split; [|split].
    + intros Hret. destruct (run_ok _ Hu g r h tt Hret) as [_ Hr].
      rewrite Hres in Hr. discriminate.
    + apply prefix_nil. rewrite <- Hsum. apply prefix_pick.
      apply (run_prefix _ Hu).
    + rewrite (uniform_no_raise _ Hu). exact Hres.
Qed.

Lemma test_reports_every_batch_witness :
  (snd demo_test_run = inr tt /\
   pick forward_input (fst demo_test_run) =
     [TTo (TSample 0 64) Cuda; TTo (TSample 2 36) Cuda] /\
   pick summary_of (fst demo_test_run) =
     [(map (batch_loss (inner_model demo_world) Cuda) two_batches,
       map (batch_hits (inner_model demo_world) Cuda) two_batches, 100)]) /\
  (dataset_len empty_test_world (dataset (test_loader_of empty_test_world)) = 0 /\
   snd (test empty_test_world (inner_model empty_test_world) Cuda
          (test_loader_of empty_test_world) false no_raise [])
   = inl ZeroDivisionError).
Proof.
  split.
  - assert (H : snd demo_test_run = inr tt) by reflexivity.
    split; [exact H|].
    exact (proj2 (proj1
      (test_reports_every_batch demo_world (inner_model demo_world) Cuda
         (test_loader_of demo_world) false no_raise []) H)).
  - split; [reflexivity|].
    exact (proj2 (proj2 (proj2
      (test_reports_every_batch empty_test_world
         (inner_model empty_test_world) Cuda (test_loader_of empty_test_world)
         false no_raise []) eq_refl))).
Defined.

(** ** Further properties: progress lines and the log interval *)

Section Progress.

Variables (w : World) (args : Args) (model : Model) (device : Device)
  (train_loader : DataLoader) (optimizer : Optimizer) (epoch : Z).

Hypothesis rank_zero : rank w = 0.
Hypothesis interval_nonzero : log_interval args <> 0.
Hypothesis no_dry_run : dry_run args = false.

Let body := train_body w args model device train_loader optimizer epoch.

Lemma progress_for_batches g batches : forall i,
  map fst (pick progress_of
             (events (for_batches 65 train_loader batches i body tt) g))
  = filter (fun j => j mod log_interval args =? 0)
      (indices i (List.length batches)) /\
  result (for_batches 65 train_loader batches i body tt) g = inr tt.
Proof.
  induction batches as [|b rest IH]; intros i.
  - split; reflexivity.
  - rewrite events_for_batches_cons, result_for_batches_cons
      by (intros; apply uniform_train_body).
    unfold body at 1 2 4 5. rewrite events_train_body, result_train_body.
    unfold train_body_result. rewrite rank_zero, no_dry_run.
    replace (log_interval args =? 0) with false by lia.
    cbn [andb Z.eqb]. destruct (IH (i + 1)) as [H1 H2]. fold body.
    rewrite H2. split; [|reflexivity].
    rewrite pick_cons_none by reflexivity. rewrite pick_app, map_app, H1.
    cbn [List.length indices filter].
    unfold train_body_events, forward_events, logs. rewrite rank_zero.
    replace (log_interval args =? 0) with false by lia.
    cbn [andb Z.eqb negb].
    destruct (has_all_reduce_grads w optimizer);
      destruct (i mod log_interval args =? 0); reflexivity.
Qed.

End Progress.

(** X14: on rank 0, with a non-zero [--log-interval] and without
    [--dry-run], [train] prints a progress line for every batch whose index
    is a multiple of the interval, and for no other, in increasing order of
    the index (index 0 included); a run in which no library call raises
    prints them all and returns. *)
Theorem progress_lines w args model device train_loader optimizer epoch
  g r h :
  rank w = 0 -> log_interval args <> 0 -> dry_run args = false ->
  let run := train w args model device train_loader optimizer epoch g r h in
  let due :=
    filter (fun j => j mod log_interval args =? 0)
      (indices 0 (List.length (loader_batches w train_loader))) in
  prefix (map fst (pick progress_of (fst run))) due /\
  (snd run = inr tt -> map fst (pick progress_of (fst run)) = due) /\
  snd (train w args model device train_loader optimizer epoch g no_raise h)
  = inr tt.
Proof.
  intros Hr Hi Hd run due.
  pose proof (uniform_train w args model device train_loader optimizer epoch)
    as Hu.
  destruct (progress_for_batches w args model device train_loader optimizer
              epoch Hr Hi Hd g (loader_batches w train_loader) 0)
    as [H1 H2].
  assert (Hev : map fst (pick progress_of
                  (events (train w args model device train_loader optimizer
                             epoch) g)) = due).
  { rewrite events_train_eq, events_for_loader
      by (intros; apply uniform_train_body).
    rewrite !pick_cons_none by reflexivity. exact H1. }
  assert (Hres : result (train w args model device train_loader optimizer
                           epoch) g = inr tt).
  { unfold train. rewrite result_bind;
      [|apply uniform_call
       |intros; apply uniform_for_loader; intros; apply uniform_train_body].
    change (result (call 64 (ModelTrain model)) g) with (@inr Exn unit tt).
    cbv iota beta.
    rewrite result_for_loader by (intros; apply uniform_train_body).
    exact H2. }
  split; [|split].
  - rewrite <- Hev. apply prefix_map, prefix_pick, (run_prefix _ Hu).
  - intros Hret. destruct (run_ok _ Hu g r h tt Hret) as [Hrun _].
    unfold run. now rewrite Hrun.
  - rewrite (uniform_no_raise _ Hu). exact Hres.
Qed.

Lemma progress_lines_witness :
  rank five_batch_world = 0 /\ log_interval five_batch_args <> 0 /\
  dry_run five_batch_args = false /\
  snd five_batch_run = inr tt /\
  map fst (pick progress_of (fst five_batch_run)) = [0; 2; 4].
Proof.
  assert (Hi : log_interval five_batch_args <> 0) by discriminate.
  split; [reflexivity|]. split; [exact Hi|]. split; [reflexivity|].
  pose proof (progress_lines five_batch_world five_batch_args
    (ddp_model five_batch_world) Cuda (train_loader_of five_batch_world)
    (the_optimizer five_batch_world) 1 false no_raise [] eq_refl Hi eq_refl)
    as [_ [H2 H3]].
  split; [exact H3|]. exact (H2 H3).
Defined.

(** X15: with [--log-interval 0], [train] on rank 0 fails in its first
    pass: the modulo of line 75 raises ZeroDivisionError after the first
    optimizer step has been applied and before any progress line, so
    [train] never returns, whatever the libraries do. *)
Theorem zero_log_interval w args model device train_loader optimizer epoch
  b rest g r h :
  rank w = 0 -> log_interval args = 0 ->
  loader_batches w train_loader = b :: rest ->
  let run := train w args model device train_loader optimizer epoch g r h in
  snd run <> inr tt /\
  prefix (pick step_of (fst run)) (cycle w optimizer) /\
  train w args model device train_loader optimizer epoch g no_raise h =
  (mkEvent 64 g (ModelTrain model) :: mkEvent 65 g (LoaderIter train_loader) ::
   mkEvent 65 g (LoaderNext train_loader) ::
   train_body_events w args model device train_loader optimizer epoch 0 b g,
   inl ZeroDivisionError) /\
  pick progress_of
    (train_body_events w args model device train_loader optimizer epoch 0 b g)
  = [].
Proof.
  intros Hr Hi Hb run.
  pose proof (uniform_train w args model device train_loader optimizer epoch)
    as Hu.
  assert (Hz : (rank w =? 0) && (log_interval args =? 0) = true)
    by (rewrite Hr, Hi; reflexivity).
  assert (Hev : events (train w args model device train_loader optimizer
                          epoch) g =
                mkEvent 64 g (ModelTrain model) ::
                mkEvent 65 g (LoaderIter train_loader) ::
                mkEvent 65 g (LoaderNext train_loader) ::
                train_body_events w args model device train_loader optimizer
                  epoch 0 b g).
  { rewrite events_train_eq, events_for_loader
      by (intros; apply uniform_train_body).
    rewrite Hb, events_for_batches_cons by (intros; apply uniform_train_body).
    rewrite events_train_body, result_train_body.
    unfold train_body_result. rewrite Hz. now rewrite app_nil_r. }
  assert (Hres : result (train w args model device train_loader optimizer
                           epoch) g = inl ZeroDivisionError).
  { unfold train. rewrite result_bind;
      [|apply uniform_call
       |intros; apply uniform_for_loader; intros; apply uniform_train_body].
    change (result (call 64 (ModelTrain model)) g) with (@inr Exn unit tt).
    cbv iota beta.
    rewrite result_for_loader by (intros; apply uniform_train_body).
    rewrite Hb, result_for_batches_cons by (intros; apply uniform_train_body).
    rewrite result_train_body. unfold train_body_result. now rewrite Hz. }
  split; [|split; [|split]].
  - intros Hret. destruct (run_ok _ Hu g r h tt Hret) as [_ H].
    rewrite Hres in H. discriminate.
  - replace (cycle w optimizer)
      with (pick step_of (events (train w args model device train_loader
                                    optimizer epoch) g)).
    + apply prefix_pick, (run_prefix _ Hu).
    + rewrite Hev. rewrite !pick_cons_none by reflexivity.
      apply steps_train_body.
  - rewrite (uniform_no_raise _ Hu), Hev, Hres. reflexivity.
  - unfold train_body_events, forward_events, logs. rewrite Hi.
    cbn [Z.eqb negb andb].
    rewrite andb_false_r. cbn [andb].
    destruct (has_all_reduce_grads w optimizer); reflexivity.
Qed.

Lemma zero_log_interval_witness :
  rank demo_world = 0 /\ log_interval zero_interval_args = 0 /\
  loader_batches demo_world (train_loader_of demo_world) = two_batches /\
  snd (train demo_world zero_interval_args (ddp_model demo_world) Cuda
         (train_loader_of demo_world) (the_optimizer demo_world) 1 false
         no_raise []) <> inr tt.
Proof.
  split; [reflexivity|]. split; [reflexivity|]. split; [reflexivity|].
  exact (proj1 (zero_log_interval demo_world zero_interval_args
    (ddp_model demo_world) Cuda (train_loader_of demo_world)
    (the_optimizer demo_world) 1 (mkBatch (TSample 0 64) (TSample 1 64))
    [mkBatch (TSample 2 36) (TSample 3 36)] false no_raise []
    eq_refl eq_refl eq_refl)).
Defined.

Lemma result_for_batches_train w args model device train_loader optimizer
  epoch g batches : forall i,
  result (for_batches 65 train_loader batches i
            (train_body w args model device train_loader optimizer epoch) tt)
    g =
  if (rank w =? 0) && (log_interval args =? 0) &&
     negb (Nat.eqb (List.length batches) 0)
  then inl ZeroDivisionError else inr tt.
Proof.
  induction batches as [|b rest IH]; intros i.
  - now rewrite andb_false_r.
  - rewrite result_for_batches_cons by (intros; apply uniform_train_body).
    rewrite result_train_body. unfold train_body_result.
    cbn [List.length Nat.eqb negb]. rewrite andb_true_r.
    destruct ((rank w =? 0) && (log_interval args =? 0)) eqn:Hc;
      [reflexivity|].
    destruct (dry_run args); [reflexivity|].
    rewrite IH. reflexivity.
Qed.

(** X16: left to itself [train] fails in one case only: when no library
    call raises, it returns unless it runs on rank 0 with
    [--log-interval 0] over a loader that yields at least one batch; on
    the other ranks the log interval is never used. *)
Theorem train_fails_only_on_zero_interval w args model device train_loader
  optimizer epoch g h :
  snd (train w args model device train_loader optimizer epoch g no_raise h) =
  if (rank w =? 0) && (log_interval args =? 0) &&
     negb (Nat.eqb (List.length (loader_batches w train_loader)) 0)
  then inl ZeroDivisionError else inr tt.
Proof.
  rewrite (uniform_no_raise _
             (uniform_train w args model device train_loader optimizer epoch)).
  cbn [snd]. unfold train. rewrite result_bind;
    [|apply uniform_call
     |intros; apply uniform_for_loader; intros; apply uniform_train_body].
  change (result (call 64 (ModelTrain model)) g) with (@inr Exn unit tt).
  cbv iota beta.
  rewrite result_for_loader by (intros; apply uniform_train_body).
  apply result_for_batches_train.
Qed.

(** ** Further properties: optimizer steps in a run *)

Lemma opt_steps_body w args model device train_loader optimizer epoch i b g :
  pick opt_step_of
    (train_body_events w args model device train_loader optimizer epoch i b g)
  = [tt].
Proof.
  unfold train_body_events, forward_events.
  destruct (has_all_reduce_grads w optimizer); destruct (logs w args i);
    reflexivity.
Qed.

Lemma opt_steps_for_batches w args model device train_loader optimizer epoch
  g batches : forall i,
  exists n, (n <= passes args batches)%nat /\
    pick opt_step_of
      (events (for_batches 65 train_loader batches i
                 (train_body w args model device train_loader optimizer epoch)
                 tt) g)
    = repeat tt n /\
    (result (for_batches 65 train_loader batches i
               (train_body w args model device train_loader optimizer epoch)
               tt) g = inr tt -> n = passes args batches).
Proof.
  unfold passes. induction batches as [|b rest IH]; intros i.
  - exists 0%nat. split; [destruct (dry_run args); simpl; lia|].
    split; [reflexivity|]. now destruct (dry_run args).
  - rewrite events_for_batches_cons, result_for_batches_cons
      by (intros; apply uniform_train_body).
    rewrite events_train_body, result_train_body.
    unfold train_body_result.
    rewrite pick_cons_none, pick_app, opt_steps_body by reflexivity.
    destruct ((rank w =? 0) && (log_interval args =? 0)).
    + exists 1%nat. split; [destruct (dry_run args); simpl; lia|].
      split; [reflexivity | discriminate].
    + destruct (dry_run args).
      * exists 1%nat. split; [simpl; lia|]. split; reflexivity.
      * destruct (IH (i + 1)) as [n [Hn [Hp Hr]]].
        exists (S n). split; [simpl; lia|]. split.
        -- rewrite Hp. reflexivity.
        -- intros Hres. simpl. now rewrite (Hr Hres).
Qed.

Lemma opt_steps_train w args model device train_loader optimizer epoch g :
  exists n, (n <= passes args (loader_batches w train_loader))%nat /\
    pick opt_step_of
      (events (train w args model device train_loader optimizer epoch) g)
    = repeat tt n /\
    (result (train w args model device train_loader optimizer epoch) g
     = inr tt -> n = passes args (loader_batches w train_loader)).
Proof.
  destruct (opt_steps_for_batches w args model device train_loader optimizer
              epoch g (loader_batches w train_loader) 0) as [n [Hn [Hp Hr]]].
  exists n. split; [exact Hn|].
  rewrite events_train_eq, events_for_loader
    by (intros; apply uniform_train_body).
  rewrite !pick_cons_none by reflexivity. split; [exact Hp|].
  unfold train. rewrite result_bind;
    [|apply uniform_call
     |intros; apply uniform_for_loader; intros; apply uniform_train_body].
  change (result (call 64 (ModelTrain model)) g) with (@inr Exn unit tt).
  cbv iota beta.
  rewrite result_for_loader by (intros; apply uniform_train_body).
  exact Hr.
Qed.

Lemma opt_steps_epoch w m epoch :
  (forall epoch,
     List.length (loader_batches w (epoch_loader w epoch)) = m) ->
  let k := if dry_run (args w) then Nat.min 1 m else m in
  prefix (pick opt_step_of (events (main_epoch_body w epoch) false))
    (repeat tt k) /\
  (result (main_epoch_body w epoch) false = inr tt ->
   pick opt_step_of (events (main_epoch_body w epoch) false) = repeat tt k).
Proof.
  intros Hm k.
  assert (Hk : passes (args w) (loader_batches w (epoch_loader w epoch)) = k).
  { unfold passes, k. now rewrite Hm. }
  unfold events at 1 2, result, main_epoch_body, scheduler_of.
  rewrite epoch_body_no_raise. cbn [fst snd].
  rewrite pick_cons_none, pick_app by reflexivity.
  destruct (opt_steps_train w (args w) (ddp_model w) (device_of w)
              (epoch_loader w epoch) (the_optimizer w) epoch false)
    as [n [Hn [Hp Hr]]].
  unfold epoch_loader in Hp, Hr, Hn, Hk. rewrite Hp. rewrite Hk in Hn, Hr.
  match goal with |- context [result ?t false] =>
    destruct (result t false) as [x|[]] end.
  - split; [|discriminate]. cbn [pick]. rewrite app_nil_r.
    exists (repeat tt (k - n)). rewrite <- repeat_app. f_equal. lia.
  - rewrite (Hr eq_refl). rewrite pick_cons_none by reflexivity.
    assert (Hrest :
      pick opt_step_of
        (if rank w =? 0 then
           events (test w (module (ddp_model w)) (device_of w)
                     (test_loader_of w)) false ++
           match result (test w (module (ddp_model w)) (device_of w)
                           (test_loader_of w)) false with
           | inl _ => []
           | inr _ => [mkEvent 199 false (SchedulerStep (the_optimizer w))]
           end
         else [mkEvent 199 false (SchedulerStep (the_optimizer w))]) = []).
    { destruct (rank w =? 0); [|reflexivity].
      rewrite pick_app.
      rewrite (pick_none opt_step_of (events (test _ _ _ _) false)).
      - now destruct (result (test _ _ _ _) false).
      - eapply Forall_impl; [|apply test_events_ok].
        intros e He. destruct He; forward_cases; reflexivity. }
    rewrite Hrest, app_nil_r. split; [apply prefix_refl | reflexivity].
Qed.

Lemma length_flat_map_repeat {A} (xs : list A) k :
  List.length (flat_map (fun _ => repeat tt k) xs) = (k * List.length xs)%nat.
Proof.
  induction xs as [|x xs IH]; simpl; [lia|].
  rewrite length_app, repeat_length, IH. lia.
Qed.

(** X17: [--dry-run] shortens every epoch, not the run.  When the training
    loader yields [m] batches in every epoch, a run that returns has made
    [m] optimizer steps per epoch, and with [--dry-run] one step per epoch
    (none if [m] is zero): the steps of a run number the passes of one
    epoch times the number of epochs. *)
Theorem optimizer_steps_per_run w r m :
  (forall epoch,
     List.length
       (loader_batches w
          (with_sampler (train_loader_of w)
             (set_epoch (train_sampler_of w) epoch))) = m) ->
  snd (run_main w r) = inr tt ->
  List.length (pick opt_step_of (fst (run_main w r))) =
  ((if dry_run (args w) then Nat.min 1 m else m) *
   List.length (range 1 (epochs (args w) + 1)))%nat.
Proof.
  intros Hm Hret. destruct (run_main_ok w r Hret) as [Htr Hres].
  destruct (main_result_ok w Hres) as [k [Hk [Hk0 Hloop]]].
  rewrite Htr. unfold main_events, loop_events, dataset1_bound.
  rewrite Hk. replace (0 <=? k) with true by lia. rewrite Hloop.
  rewrite !pick_app.
  assert (H0 : pick opt_step_of parser_events = []) by reflexivity.
  assert (H1 : pick opt_step_of (device_events w) = [])
    by (segment_cases; reflexivity).
  assert (H2 : pick opt_step_of (data_events w) = [])
    by (segment_cases; reflexivity).
  assert (H3 : pick opt_step_of (model_events w) = [])
    by (segment_cases; reflexivity).
  assert (H4 : pick opt_step_of (save_events w) = [])
    by (segment_cases; reflexivity).
  rewrite H0, H1, H2, H3, H4, app_nil_r. cbn [app].
  destruct (pick_for_each opt_step_of (main_epoch_body w)
              (fun _ => repeat tt
                          (if dry_run (args w) then Nat.min 1 m else m))
              false (uniform_main_epoch_body w)
              (fun x => proj1 (opt_steps_epoch w m x Hm))
              (fun x => proj2 (opt_steps_epoch w m x Hm))
              (range 1 (epochs (args w) + 1))) as [_ Hall].
  change (for_each (range 1 (epochs (args w) + 1)) (main_epoch_body w))
    with (epochs_prog w) in Hall.
  rewrite (Hall Hloop). apply length_flat_map_repeat.
Qed.

Lemma optimizer_steps_per_run_witness :
  snd (run_main dry_world no_raise) = inr tt /\
  List.length (pick opt_step_of (fst (run_main dry_world no_raise))) = 2%nat.
Proof.
  assert (H : snd (run_main dry_world no_raise) = inr tt)
    by (vm_compute; reflexivity).
  split; [exact H|].
  exact (optimizer_steps_per_run dry_world no_raise 2 (fun _ => eq_refl) H).
Defined.

(** ** Further properties: training mode and evaluation mode *)

Lemma mode_walk_app l1 : forall s l2,
  mode_walk s (l1 ++ l2) =
  match mode_walk s l1 with
  | Some s' => mode_walk s' l2
  | None => None
  end.
Proof.
  induction l1 as [|e l1 IH]; intros s l2; simpl; [reflexivity|].
  destruct (mode_step s e); [apply IH | reflexivity].
Qed.

Lemma mode_walk_stable s l :
  Forall (fun e => mode_step s e = Some s) l -> mode_walk s l = Some s.
Proof.
  induction 1 as [|e l He _ IH]; simpl; [reflexivity|]. now rewrite He.
Qed.

Lemma mode_walk_train w args model device train_loader optimizer epoch s :
  mode_walk s
    (events (train w args model device train_loader optimizer epoch) false)
  = Some mode_training.
Proof.
  rewrite events_train_eq. cbn [mode_walk mode_step op].
  apply mode_walk_stable.
  eapply Forall_impl; [|apply loader_events_ok].
  intros e [He Hl]. destruct He; forward_cases; reflexivity.
Qed.

Lemma mode_walk_test w model device test_loader s :
  mode_walk s (events (test w model device test_loader) false)
  = Some mode_evaluating.
Proof.
  unfold events. rewrite test_no_raise. cbn [fst mode_walk mode_step op].
  apply mode_walk_stable. apply Forall_app. split.
  - apply Forall_for_batches.
    + intros; apply uniform_test_body.
    + reflexivity.
    + intros. rewrite events_test_body.
      unfold test_body_events, forward_events. repeat constructor.
  - destruct (dataset_len w (dataset test_loader) =? 0); repeat constructor.
Qed.

Lemma mode_walk_epoch w epoch s :
  exists s', mode_walk s (events (main_epoch_body w epoch) false) = Some s'.
Proof.
  unfold events at 1, main_epoch_body, scheduler_of.
  rewrite epoch_body_no_raise. cbn [fst].
  cbn [mode_walk mode_step op]. rewrite mode_walk_app, mode_walk_train.
  match goal with |- context [result ?t false] =>
    destruct (result t false) as [x|[]] end; [now eexists|].
  cbn [mode_walk mode_step op]. destruct (rank w =? 0).
  - rewrite mode_walk_app, mode_walk_test.
    match goal with |- context [result ?t false] =>
      destruct (result t false) as [x|[]] end; now eexists.
  - now eexists.
Qed.

Lemma mode_walk_epochs w xs : forall s,
  exists s', mode_walk s (events (for_each xs (main_epoch_body w)) false)
             = Some s'.
Proof.
  induction xs as [|x xs IH]; intros s.
  - now exists s.
  - rewrite events_for_each_cons by apply uniform_main_epoch_body.
    rewrite mode_walk_app. destruct (mode_walk_epoch w x s) as [s' Hs'].
    rewrite Hs'. destruct (result (main_epoch_body w x) false);
      [now eexists | apply IH].
Qed.

Lemma mode_walk_neutral s l :
  Forall (fun e => forall s, mode_step s e = Some s) l ->
  mode_walk s l = Some s.
Proof.
  intros H. apply mode_walk_stable. eapply Forall_impl; [|exact H].
  intros e He. apply He.
Qed.

Lemma mode_walk_main_events w :
  exists s, mode_walk mode_unset (main_events w) = Some s.
Proof.
  unfold main_events, loop_events.
  assert (H0 : forall s, mode_walk s parser_events = Some s).
  { intros s. apply mode_walk_neutral. repeat constructor. }
  assert (H1 : forall s, mode_walk s (device_events w) = Some s).
  { intros s. apply mode_walk_neutral. segment_cases; repeat constructor. }
  assert (H2 : forall s, mode_walk s (data_events w) = Some s).
  { intros s. apply mode_walk_neutral. segment_cases; repeat constructor. }
  assert (H3 : forall s, mode_walk s (model_events w) = Some s).
  { intros s. apply mode_walk_neutral. segment_cases; repeat constructor. }
  assert (H4 : forall s, mode_walk s (save_events w) = Some s).
  { intros s. apply mode_walk_neutral. segment_cases; repeat constructor. }
  rewrite mode_walk_app, H0, mode_walk_app, H1, mode_walk_app, H2.
  destruct (dataset1_bound w); [|now eexists].
  rewrite mode_walk_app, H3, mode_walk_app.
  destruct (mode_walk_epochs w (range 1 (epochs (args w) + 1)) mode_unset)
    as [s Hs].
  change (for_each (range 1 (epochs (args w) + 1)) (main_epoch_body w))
    with (epochs_prog w) in Hs.
  rewrite Hs. destruct (result (epochs_prog w) false); [now eexists|].
  rewrite H4. now eexists.
Qed.

(** X18: the model is always in the right mode.  In every run, each forward
    pass of training comes after a [model.train()] with no [eval()] in
    between, and each forward pass of evaluation after a
    [model.module.eval()] with no [train()] in between; in particular the
    training of an epoch that follows an evaluation starts by switching
    back to training mode. *)
Theorem forward_in_right_mode w r :
  exists s, mode_walk mode_unset (fst (run_main w r)) = Some s.
Proof.
  destruct (mode_walk_main_events w) as [s Hs].
  destruct (run_main_prefix w r) as [k Hk]. rewrite Hk, mode_walk_app in Hs.
  destruct (mode_walk mode_unset (fst (run_main w r))) as [s'|];
    [now exists s' | discriminate].
Qed.

(** The monitor does reject misplaced forward passes. *)
Example mode_walk_rejects :
  mode_walk mode_unset
    [ ev 95 (ModelEval (inner_model demo_world));
      ev 68 (ModelCall (ddp_model demo_world) (TSample 0 64)) ] = None.
Proof. reflexivity. Qed.

(** ** Further properties: the network behind the wrappers *)

Lemma net_of_inner w : net_of (inner_model w) = net_used w.
Proof.
  unfold inner_model, net_used, layer_used.
  now destruct (enable_msamp (args w)).
Qed.

Lemma net_of_ddp w : net_of (ddp_model w) = net_used w.
Proof. apply net_of_inner. Qed.

Ltac net_case :=
  split;
  [ intros ? ? HH; try discriminate HH
  | split;
    [ intros ? ? HH; try discriminate HH
    | intros ? ? ? HH; try discriminate HH ] ].

Ltac net_list :=
  repeat (apply Forall_cons || apply Forall_nil); net_case;
  try match goal with
      | H : op _ = _ |- _ =>
          cbn in H; inversion H; subst;
          first [ reflexivity | eexists; reflexivity
                | eexists; split; reflexivity
                | apply net_of_ddp | apply net_of_inner ]
      end.

Lemma net_ok_main w : Forall (net_ok w) (main_events w).
Proof.
  apply Forall_main.
  - net_list.
  - segment_cases; net_list.
  - segment_cases; net_list.
  - segment_cases; net_list.
  - apply Forall_loop.
    + intros; net_case.
    + intros epoch. apply Forall_train; try net_case.
      intros i b. unfold train_body_events, forward_events.
      rewrite net_of_ddp.
      destruct (has_all_reduce_grads w (the_optimizer w));
        destruct (logs w (args w) i); cbn [app]; net_list.
    + net_case.
    + intros _. apply Forall_test; try net_case.
      intros b. unfold test_body_events, forward_events.
      rewrite net_of_inner. cbn [app]. net_list.
    + net_case.
  - segment_cases; net_list.
Qed.

(** X19: whatever wraps the model, it is the [forward] of the [Net] built
    at line 182 that runs.  In every run, each [model(data)] of [train]
    (on the DistributedDataParallel wrapper) and of [test] (on
    [model.module]) runs [forward] on that [Net]: the layers applied at
    lines 38-48 are the six layers [Net.__init__] built, each at its line
    (with [--enable-msamp], what [msamp.initialize] left in their place),
    and every loss is computed on what [forward] returned for a batch moved
    to the device. *)
Theorem forward_of_the_net_built w r :
  let used l :=
    if enable_msamp (args w) then MsampLayer l (opt_level (args w)) else l in
  let net :=
    mkNet (used (Conv2d 1 32 3 1)) (used (Conv2d 32 64 3 1))
      (used (Dropout 0.25)) (used (Dropout 0.5))
      (used (Linear 9216 128)) (used (Linear 128 10)) in
  Forall (fun e =>
            (forall lay x, op e = ApplyLayer lay x ->
               exists l, layer_at (line e) = Some l /\ lay = used l) /\
            (forall m x, op e = ModelCall m x -> net_of m = net) /\
            (forall o t red, op e = NllLoss o t red ->
               exists d, o = forward_output net (TTo d (device_of w))))
    (fst (run_main w r)).
Proof.
  exact (prefix_Forall _ _ _ (run_main_prefix w r) (net_ok_main w)).
Qed.

(** ** Projections of the epoch loop, pass by pass *)

Lemma prefix_app_r {A} (l1 l2 k : list A) :
  prefix l1 l2 -> prefix l1 (l2 ++ k).
Proof. intros [k' ->]. exists (k' ++ k). now rewrite app_assoc. Qed.

Lemma prefix_repeat {A} (c : A) n m :
  (n <= m)%nat -> prefix (repeat c n) (repeat c m).
Proof.
  intros H. exists (repeat c (m - n)). rewrite <- repeat_app.
  f_equal. lia.
Qed.

Lemma pick_cons {A B} (f : A -> option B) a l :
  pick f (a :: l) = pick f [a] ++ pick f l.
Proof. simpl. now destruct (f a). Qed.

(** A projection of which [train] shows [on_train epoch] and [test] shows
    [on_test], fully once they have returned, shows for a pass of the epoch
    loop what lines 195-199 make of them. *)
Section EpochProjection.

Context {B : Type} (f : Event -> option B) (w : World).
Variables (on_set_epoch on_train : Z -> list B) (on_rank on_test on_step : list B).

Hypothesis f_set_epoch :
  forall epoch,
    pick f [ev 195 (SamplerSetEpoch (train_sampler_of w) epoch)]
    = on_set_epoch epoch.
Hypothesis f_train :
  forall epoch,
    prefix
      (pick f (events (train w (args w) (ddp_model w) (device_of w)
                         (epoch_loader w epoch) (the_optimizer w) epoch)
                 false))
      (on_train epoch) /\
    (result (train w (args w) (ddp_model w) (device_of w)
               (epoch_loader w epoch) (the_optimizer w) epoch) false = inr tt ->
     pick f (events (train w (args w) (ddp_model w) (device_of w)
                       (epoch_loader w epoch) (the_optimizer w) epoch) false)
     = on_train epoch).
Hypothesis f_rank : pick f [ev 197 GetRank] = on_rank.
Hypothesis f_test :
  rank w = 0 ->
  prefix
    (pick f (events (test w (inner_model w) (device_of w) (test_loader_of w))
               false))
    on_test /\
  (result (test w (inner_model w) (device_of w) (test_loader_of w)) false
   = inr tt ->
   pick f (events (test w (inner_model w) (device_of w) (test_loader_of w))
             false) = on_test).
Hypothesis f_step :
  pick f [ev 199 (SchedulerStep (the_optimizer w))] = on_step.

Lemma project_epoch epoch :
  prefix (pick f (events (main_epoch_body w epoch) false))
    (on_set_epoch epoch ++ on_train epoch ++ on_rank ++
     (if rank w =? 0 then on_test else []) ++ on_step) /\
  (result (main_epoch_body w epoch) false = inr tt ->
   pick f (events (main_epoch_body w epoch) false)
   = on_set_epoch epoch ++ on_train epoch ++ on_rank ++
     (if rank w =? 0 then on_test else []) ++ on_step).
Proof.
  unfold events at 1 2, result, main_epoch_body, scheduler_of.
  rewrite epoch_body_no_raise. cbn [fst snd].
  rewrite pick_cons, pick_app.
  fold (ev 195 (SamplerSetEpoch (train_sampler_of w) epoch)).
  rewrite f_set_epoch.
  destruct (f_train epoch) as [Ht1 Ht2]. unfold epoch_loader in Ht1, Ht2.
  match goal with |- context [result ?m false] =>
    destruct (result m false) as [x|[]] end.
  - split; [|discriminate]. cbn [pick]. rewrite app_nil_r.
    apply prefix_app. now apply prefix_app_r.
  - rewrite (Ht2 eq_refl). rewrite pick_cons. fold (ev 197 GetRank).
    rewrite f_rank. change (module (ddp_model w)) with (inner_model w).
    fold (ev 199 (SchedulerStep (the_optimizer w))).
    destruct (rank w =? 0) eqn:Hr.
    + destruct f_test as [He1 He2]; [lia|]. rewrite pick_app.
      match goal with |- context [result ?m false] =>
        destruct (result m false) as [x|[]] end.
      * split; [|discriminate]. cbn [pick]. rewrite app_nil_r.
        do 3 apply prefix_app. now apply prefix_app_r.
      * rewrite (He2 eq_refl), f_step.
        split; [apply prefix_refl | reflexivity].
    + rewrite f_step. split; [apply prefix_refl | reflexivity].
Qed.

Lemma project_epochs :
  let plan :=
    flat_map (fun epoch =>
                on_set_epoch epoch ++ on_train epoch ++ on_rank ++
                (if rank w =? 0 then on_test else []) ++ on_step)
      (range 1 (epochs (args w) + 1)) in
  prefix (pick f (events (epochs_prog w) false)) plan /\
  (result (epochs_prog w) false = inr tt ->
   pick f (events (epochs_prog w) false) = plan).
Proof.
  apply (pick_for_each f (main_epoch_body w)
           (fun epoch =>
              on_set_epoch epoch ++ on_train epoch ++ on_rank ++
              (if rank w =? 0 then on_test else []) ++ on_step)).
  - apply uniform_main_epoch_body.
  - intros x. apply project_epoch.
  - intros x. apply project_epoch.
Qed.

End EpochProjection.

(** ** Synchronization (claim C4) *)

(** C4 as stated fails: rank 0 of the demonstration job also calls
    [torch.cuda.synchronize()] (line 169) and
    [optimizer.all_reduce_grads] (line 72). *)
Lemma only_two_entry_points_counterexample :
  forallb (fun e => implb (is_sync_action e) (init_or_set_epoch e))
    (fst (run_main demo_world no_raise)) = false /\
  In (ev 169 CudaSynchronize) (fst (run_main demo_world no_raise)) /\
  existsb (fun e => match op e with AllReduceGrads _ _ => true | _ => false end)
    (fst (run_main demo_world no_raise)) = true.
Proof.
  split; [vm_compute; reflexivity|]. split; [|vm_compute; reflexivity].
  vm_compute. repeat (first [left; reflexivity | right]).
Qed.

Lemma coord_train_body w args model device train_loader optimizer epoch i b g :
  pick coord_of
    (train_body_events w args model device train_loader optimizer epoch i b g)
  = if has_all_reduce_grads w optimizer then [c_all_reduce_grads] else [].
Proof.
  unfold train_body_events, forward_events.
  destruct (has_all_reduce_grads w optimizer); destruct (logs w args i);
    reflexivity.
Qed.

Lemma coord_for_batches w args model device train_loader optimizer epoch g
  batches : forall i,
  exists n, (n <= passes args batches)%nat /\
    pick coord_of
      (events (for_batches 65 train_loader batches i
                 (train_body w args model device train_loader optimizer epoch)
                 tt) g)
    = repeat c_all_reduce_grads
        (if has_all_reduce_grads w optimizer then n else 0%nat) /\
    (result (for_batches 65 train_loader batches i
               (train_body w args model device train_loader optimizer epoch)
               tt) g = inr tt -> n = passes args batches).
Proof.
  unfold passes. induction batches as [|b rest IH]; intros i.
  - exists 0%nat. split; [destruct (dry_run args); simpl; lia|].
    split; [now destruct (has_all_reduce_grads w optimizer)|].
    now destruct (dry_run args).
  - rewrite events_for_batches_cons, result_for_batches_cons
      by (intros; apply uniform_train_body).
    rewrite events_train_body, result_train_body.
    unfold train_body_result.
    rewrite pick_cons_none, pick_app, coord_train_body by reflexivity.
    destruct ((rank w =? 0) && (log_interval args =? 0)).
    + exists 1%nat. split; [destruct (dry_run args); simpl; lia|].
      split; [|discriminate].
      now destruct (has_all_reduce_grads w optimizer).
    + destruct (dry_run args).
      * exists 1%nat. split; [simpl; lia|]. split; [|reflexivity].
        now destruct (has_all_reduce_grads w optimizer).
      * destruct (IH (i + 1)) as [n [Hn [Hp Hr]]].
        exists (S n). split; [simpl; lia|]. split.
        -- rewrite Hp. now destruct (has_all_reduce_grads w optimizer).
        -- intros Hres. simpl. now rewrite (Hr Hres).
Qed.

Lemma coord_train w args model device train_loader optimizer epoch g :
  exists n, (n <= passes args (loader_batches w train_loader))%nat /\
    pick coord_of
      (events (train w args model device train_loader optimizer epoch) g)
    = c_train ::
      repeat c_all_reduce_grads
        (if has_all_reduce_grads w optimizer then n else 0%nat) /\
    (result (train w args model device train_loader optimizer epoch) g
     = inr tt -> n = passes args (loader_batches w train_loader)).
Proof.
  destruct (coord_for_batches w args model device train_loader optimizer
              epoch g (loader_batches w train_loader) 0) as [n [Hn [Hp Hr]]].
  exists n. split; [exact Hn|].
  rewrite events_train_eq, events_for_loader
    by (intros; apply uniform_train_body).
  rewrite pick_cons.
  change (pick coord_of [mkEvent 64 g (ModelTrain model)]) with [c_train].
  rewrite pick_cons_none by reflexivity. split.
  - rewrite Hp. reflexivity.
  - unfold train. rewrite result_bind;
      [|apply uniform_call
       |intros; apply uniform_for_loader; intros; apply uniform_train_body].
    change (result (call 64 (ModelTrain model)) g) with (@inr Exn unit tt).
    cbv iota beta.
    rewrite result_for_loader by (intros; apply uniform_train_body).
    exact Hr.
Qed.

Lemma coord_of_epochs w :
  let plan :=
    flat_map (fun epoch =>
                [c_set_epoch epoch; c_train] ++
                repeat c_all_reduce_grads (reductions w epoch))
      (range 1 (epochs (args w) + 1)) in
  prefix (pick coord_of (events (epochs_prog w) false)) plan /\
  (result (epochs_prog w) false = inr tt ->
   pick coord_of (events (epochs_prog w) false) = plan).
Proof.
  pose proof (project_epochs coord_of w
    (fun epoch => [c_set_epoch epoch])
    (fun epoch => c_train :: repeat c_all_reduce_grads (reductions w epoch))
    [] [] []) as H.
  cbn beta zeta in H.
  assert (Heq : forall epoch : Z,
    [c_set_epoch epoch] ++
    (c_train :: repeat c_all_reduce_grads (reductions w epoch)) ++ [] ++
    (if rank w =? 0 then [] else []) ++ []
    = [c_set_epoch epoch; c_train] ++
      repeat c_all_reduce_grads (reductions w epoch)).
  { intros epoch. destruct (rank w =? 0); cbn [app]; now rewrite app_nil_r. }
  rewrite (flat_map_ext _ _ Heq) in H. apply H; clear H Heq.
  - reflexivity.
  - intros epoch.
    destruct (coord_train w (args w) (ddp_model w) (device_of w)
                (epoch_loader w epoch) (the_optimizer w) epoch false)
      as [n [Hn [Hp Hr]]].
    rewrite Hp. unfold reductions. split.
    + apply (prefix_app [c_train]).
      destruct (has_all_reduce_grads w (the_optimizer w));
        [now apply prefix_repeat | apply prefix_refl].
    + intros Hres. now rewrite (Hr Hres).
  - reflexivity.
  - intros _. split; [|intros _]; rewrite pick_none;
      try apply prefix_refl; try reflexivity;
      (eapply Forall_impl; [|apply test_events_ok]);
      intros e He; destruct He; forward_cases; reflexivity.
  - reflexivity.
Qed.

Lemma coord_of_main_events w :
  let plan :=
    [c_init_process_group; c_cuda_synchronize; c_wrap_ddp] ++
    flat_map (fun epoch =>
                [c_set_epoch epoch; c_train] ++
                repeat c_all_reduce_grads (reductions w epoch))
      (range 1 (epochs (args w) + 1)) in
  prefix (pick coord_of (main_events w)) plan /\
  (main_result w = inr tt -> pick coord_of (main_events w) = plan).
Proof.
  intros plan. unfold main_events, loop_events. rewrite !pick_app.
  assert (H0 : pick coord_of parser_events = []) by reflexivity.
  assert (H1 : pick coord_of (device_events w) = [c_init_process_group])
    by (segment_cases; reflexivity).
  assert (H2 : pick coord_of (data_events w) = [c_cuda_synchronize])
    by (segment_cases; reflexivity).
  rewrite H0, H1, H2. cbn [app].
  change plan with
    ([c_init_process_group; c_cuda_synchronize] ++
     c_wrap_ddp ::
     flat_map (fun epoch =>
                 [c_set_epoch epoch; c_train] ++
                 repeat c_all_reduce_grads (reductions w epoch))
       (range 1 (epochs (args w) + 1))).
  unfold main_result, dataset1_bound.
  destruct (local_rank (args w)) as [k|].
  2:{ split; [now eexists | discriminate]. }
  destruct (0 <=? k).
  2:{ split; [now eexists | discriminate]. }
  rewrite !pick_app.
  assert (H3 : pick coord_of (model_events w) = [c_wrap_ddp])
    by (segment_cases; reflexivity).
  assert (H4 : pick coord_of (save_events w) = [])
    by (segment_cases; reflexivity).
  rewrite H3. cbn [app].
  destruct (coord_of_epochs w) as [Hp Hr].
  destruct (result (epochs_prog w) false) as [x|[]].
  - split; [|discriminate]. cbn [pick]. rewrite app_nil_r.
    now apply
      (prefix_app [c_init_process_group; c_cuda_synchronize; c_wrap_ddp]).
  - rewrite H4, app_nil_r. rewrite (Hr eq_refl).
    split; [apply prefix_refl | reflexivity].
Qed.

Ltac site_list :=
  repeat (apply Forall_cons || apply Forall_nil);
  intros HH; try discriminate HH;
  first [ constructor; first [assumption | lia]
        | constructor ].

Lemma coordination_sites_main w :
  Forall (fun e => coordination_interface e = true -> coordination_site w e)
    (main_events w).
Proof.
  apply Forall_main.
  - site_list.
  - unfold device_events, ev.
    destruct (no_cuda (args w)) eqn:Hn; cbn [app]; site_list.
  - segment_cases; site_list.
  - segment_cases; site_list.
  - apply Forall_loop.
    + intros epoch; site_list.
    + intros epoch. apply Forall_train; try (intros HH; discriminate HH).
      intros i b. unfold train_body_events, forward_events, logs.
      destruct (has_all_reduce_grads w (the_optimizer w)) eqn:Hh;
        destruct (rank w =? 0) eqn:Hr;
        destruct (log_interval (args w) =? 0);
        destruct (i mod log_interval (args w) =? 0);
        cbn [app andb negb]; site_list.
    + site_list.
    + intros _. apply Forall_test; try (intros HH; discriminate HH).
      * intros b. unfold test_body_events, forward_events. cbn [app].
        site_list.
      * intros ? ? ? HH; discriminate HH.
    + site_list.
  - unfold save_events, ev. destruct (save_model (args w)) eqn:Hs;
      [destruct (rank w =? 0)|]; site_list.
Qed.

(** C4, amended: the script coordinates through library entry points only.
    Of process-group initialization, device synchronization, the
    DistributedDataParallel wrapper, sampler re-seeding, entries into
    [train] and gradient reductions, every run shows an initial part of:
    [init_process_group], [cuda.synchronize], the wrapper, then for each
    epoch [set_epoch] once, the entry into [train] and one
    [all_reduce_grads] per training pass when the optimizer has that
    attribute (none otherwise); a run that returns shows all of it.  Every
    other call into [torch.cuda], [torch.distributed] or the distributed
    sampler is a query or a configuration of the process itself, made at
    its one call site. *)
Theorem coordination_calls w r :
  let tr := fst (run_main w r) in
  let reductions epoch :=
    if has_all_reduce_grads w (the_optimizer w)
    then passes (args w)
           (loader_batches w
              (with_sampler (train_loader_of w)
                 (set_epoch (train_sampler_of w) epoch)))
    else 0%nat in
  let plan :=
    [c_init_process_group; c_cuda_synchronize; c_wrap_ddp] ++
    flat_map (fun epoch =>
                [c_set_epoch epoch; c_train] ++
                repeat c_all_reduce_grads (reductions epoch))
      (range 1 (epochs (args w) + 1)) in
  prefix (pick coord_of tr) plan /\
  (snd (run_main w r) = inr tt -> pick coord_of tr = plan) /\
  Forall (fun e => coordination_interface e = true -> coordination_site w e)
    tr.
Proof.
  intros tr reductions' plan.
  pose proof (run_main_prefix w r) as Hp. fold tr in Hp.
  destruct (coord_of_main_events w) as [H1 H2].
  split; [|split].
  - eapply prefix_trans; [apply prefix_pick; exact Hp | exact H1].
  - intros Hret. destruct (run_main_ok w r Hret) as [Htr Hres].
    fold tr in Htr. rewrite Htr. exact (H2 Hres).
  - exact (prefix_Forall _ _ _ Hp (coordination_sites_main w)).
Qed.

Lemma coordination_calls_witness :
  snd (run_main demo_world no_raise) = inr tt /\
  pick coord_of (fst (run_main demo_world no_raise)) =
  [ c_init_process_group; c_cuda_synchronize; c_wrap_ddp;
    c_set_epoch 1; c_train; c_all_reduce_grads; c_all_reduce_grads;
    c_set_epoch 2; c_train; c_all_reduce_grads; c_all_reduce_grads ].
Proof.
  assert (H : snd (run_main demo_world no_raise) = inr tt)
    by (vm_compute; reflexivity).
  split; [exact H|].
  exact (proj1 (proj2 (coordination_calls demo_world no_raise)) H).
Defined.

(** ** The order of the steps of [main] (claim C3) *)

(** C3 as stated fails: rank 0 of the demonstration job, with two epochs,
    evaluates after the first epoch and then trains again. *)
Lemma steps_one_after_the_other_counterexample :
  in_order false (fst (run_main demo_world no_raise)) = false /\
  exists i j, (i < j)%nat /\
    option_map phase (nth_error (fst (run_main demo_world no_raise)) i)
    = Some ph_eval /\
    option_map phase (nth_error (fst (run_main demo_world no_raise)) j)
    = Some ph_train.
Proof.
  split; [vm_compute; reflexivity|].
  exists 96%nat, 150%nat. split; [lia|]. split; vm_compute; reflexivity.
Qed.

Example one_epoch_in_order :
  in_order false (fst (run_main one_epoch_world no_raise)) = true.
Proof. vm_compute. reflexivity. Qed.

(** The monitor rejects a run that does not start with the arguments, and
    a [forward] outside training and evaluation. *)
Example walk_rejects :
  in_order true [ev 149 (InitProcessGroup "nccl" "env://")] = false /\
  in_order true
    [ev 145 ParseArgs; ev 38 (ApplyLayer (Conv2d 1 32 3 1) (TSample 0 64))]
  = false.
Proof. split; reflexivity. Qed.

Lemma walk_app again l1 : forall p l2,
  walk again p (l1 ++ l2) =
  match walk again p l1 with
  | Some (q, b1) =>
      match walk again q l2 with
      | Some (q', b2) => Some (q', b1 ++ b2)
      | None => None
      end
  | None => None
  end.
Proof.
  induction l1 as [|e l1 IH]; intros p l2; simpl.
  - now destruct (walk again p l2) as [[q' b2]|].
  - destruct (stays p (phase e)); [apply IH|].
    destruct (phase_eqb (phase e) ph_forward); [reflexivity|].
    destruct (may_enter again p (phase e)); [|reflexivity].
    rewrite IH.
    destruct (walk again (Some (phase e)) l1) as [[q b1]|]; [|reflexivity].
    now destruct (walk again q l2) as [[q' b2]|].
Qed.

Lemma walk_prefix again tr full p q b :
  prefix tr full -> walk again p full = Some (q, b) ->
  exists q' b', walk again p tr = Some (q', b') /\ prefix b' b.
Proof.
  intros [k ->]. rewrite walk_app.
  destruct (walk again p tr) as [[q' b']|]; [|discriminate].
  destruct (walk again q' k) as [[q'' b'']|]; [|discriminate].
  intros H. inversion H; subst. exists q', b'. split; [reflexivity|].
  now exists b''.
Qed.

Lemma walk_stays again p l :
  Forall (fun e => stays p (phase e) = true) l ->
  walk again p l = Some (p, []).
Proof.
  induction 1 as [|e l He _ IH]; simpl; [reflexivity|]. now rewrite He.
Qed.

Lemma walk_enter again p q e l :
  phase e = q -> stays p q = false -> phase_eqb q ph_forward = false ->
  may_enter again p q = true ->
  walk again p (e :: l) =
  match walk again (Some q) l with
  | Some (q', b) => Some (q', q :: b)
  | None => None
  end.
Proof. intros He H1 H2 H3. simpl. now rewrite He, H1, H2, H3. Qed.

Lemma stays_train w args model device train_loader optimizer epoch g :
  Forall (fun e => stays (Some ph_train) (phase e) = true)
    (events (train w args model device train_loader optimizer epoch) g).
Proof.
  eapply Forall_impl; [|apply train_events_ok].
  intros e He. destruct He; forward_cases; reflexivity.
Qed.

Lemma stays_test w model device test_loader g :
  Forall (fun e => stays (Some ph_eval) (phase e) = true)
    (events (test w model device test_loader) g).
Proof.
  eapply Forall_impl; [|apply test_events_ok].
  intros e He. destruct He; forward_cases; reflexivity.
Qed.

Lemma walk_epoch w epoch p :
  p = Some ph_model \/ p = Some ph_scheduler ->
  exists q done,
    walk true p (events (main_epoch_body w epoch) false) = Some (q, done) /\
    prefix done [ph_train; ph_eval; ph_scheduler] /\
    (result (main_epoch_body w epoch) false = inr tt ->
     q = Some ph_scheduler /\ done = [ph_train; ph_eval; ph_scheduler]).
Proof.
  intros Hp. unfold events, result, main_epoch_body, scheduler_of.
  rewrite epoch_body_no_raise. cbn [fst snd].
  rewrite (walk_enter true p ph_train)
    by (destruct Hp; subst; reflexivity).
  rewrite walk_app, (walk_stays true (Some ph_train))
    by apply stays_train.
  match goal with |- context [result ?m false] =>
    destruct (result m false) as [x|[]] end.
  - exists (Some ph_train), [ph_train]. split; [reflexivity|].
    split; [now eexists | discriminate].
  - rewrite (walk_enter true (Some ph_train) ph_eval) by reflexivity.
    destruct (rank w =? 0).
    + rewrite walk_app, (walk_stays true (Some ph_eval))
        by apply stays_test.
      match goal with |- context [result ?m false] =>
        destruct (result m false) as [x|[]] end.
      * exists (Some ph_eval), [ph_train; ph_eval]. split; [reflexivity|].
        split; [now eexists | discriminate].
      * exists (Some ph_scheduler), [ph_train; ph_eval; ph_scheduler].
        split; [reflexivity|]. split; [apply prefix_refl | now split].
    + exists (Some ph_scheduler), [ph_train; ph_eval; ph_scheduler].
      split; [reflexivity|]. split; [apply prefix_refl | now split].
Qed.

Lemma walk_epochs w xs : forall p,
  p = Some ph_model \/ p = Some ph_scheduler ->
  exists q done,
    walk true p (events (for_each xs (main_epoch_body w)) false)
    = Some (q, done) /\
    prefix done (flat_map (fun _ : Z => [ph_train; ph_eval; ph_scheduler]) xs) /\
    (result (for_each xs (main_epoch_body w)) false = inr tt ->
     done = flat_map (fun _ : Z => [ph_train; ph_eval; ph_scheduler]) xs /\
     (q = Some ph_model \/ q = Some ph_scheduler)).
Proof.
  induction xs as [|x xs IH]; intros p Hp.
  - exists p, []. split; [reflexivity|]. split; [apply prefix_refl|].
    intros _. now split.
  - rewrite events_for_each_cons, result_for_each_cons
      by apply uniform_main_epoch_body.
    rewrite walk_app.
    destruct (walk_epoch w x p Hp) as [q [d [Hq [Hd Hr]]]]. rewrite Hq.
    cbn [flat_map].
    destruct (result (main_epoch_body w x) false) as [e|[]].
    + exists q, d. split; [cbn [walk]; now rewrite app_nil_r|].
      split; [now apply prefix_app_r | discriminate].
    + destruct (Hr eq_refl) as [-> ->].
      destruct (IH (Some ph_scheduler)) as [q' [d' [Hq' [Hd' Hr']]]];
        [now right|].
      rewrite Hq'. exists q', ([ph_train; ph_eval; ph_scheduler] ++ d').
      split; [reflexivity|]. split; [now apply prefix_app|].
      intros Hres. destruct (Hr' Hres) as [-> Hq'']. now split.
Qed.

Lemma walk_main_events w :
  let plan :=
    [ph_args; ph_process; ph_data; ph_model] ++
    flat_map (fun _ : Z => [ph_train; ph_eval; ph_scheduler])
      (range 1 (epochs (args w) + 1)) ++
    (if save_model (args w) then [ph_save] else []) in
  exists q done,
    walk true None (main_events w) = Some (q, done) /\
    prefix done plan /\ (main_result w = inr tt -> done = plan).
Proof.
  intros plan. unfold main_events.
  assert (H0 : walk true None parser_events = Some (Some ph_args, [ph_args]))
    by reflexivity.
  assert (H1 : walk true (Some ph_args) (device_events w)
               = Some (Some ph_process, [ph_process]))
    by (segment_cases; reflexivity).
  assert (H2 : walk true (Some ph_process) (data_events w)
               = Some (Some ph_data, [ph_data]))
    by (segment_cases; reflexivity).
  rewrite walk_app, H0, walk_app, H1, walk_app, H2.
  unfold main_result, dataset1_bound.
  destruct (local_rank (args w)) as [k|].
  2:{ exists (Some ph_data), [ph_args; ph_process; ph_data].
      split; [reflexivity|]. split; [now eexists | discriminate]. }
  destruct (0 <=? k).
  2:{ exists (Some ph_data), [ph_args; ph_process; ph_data].
      split; [reflexivity|]. split; [now eexists | discriminate]. }
  assert (H3 : walk true (Some ph_data) (model_events w)
               = Some (Some ph_model, [ph_model]))
    by (segment_cases; reflexivity).
  assert (H4 : forall q, q = Some ph_model \/ q = Some ph_scheduler ->
               walk true q (save_events w)
               = Some (if save_model (args w) then Some ph_save else q,
                       if save_model (args w) then [ph_save] else [])).
  { intros q [-> | ->]; unfold save_events, ev;
      destruct (save_model (args w)); try destruct (rank w =? 0);
      reflexivity. }
  unfold loop_events. rewrite walk_app, H3, walk_app.
  destruct (walk_epochs w (range 1 (epochs (args w) + 1)) (Some ph_model))
    as [q [d [Hq [Hd Hr]]]]; [now left|].
  change (for_each (range 1 (epochs (args w) + 1)) (main_epoch_body w))
    with (epochs_prog w) in Hq, Hr.
  rewrite Hq.
  destruct (result (epochs_prog w) false) as [x|[]].
  - exists q, ([ph_args; ph_process; ph_data; ph_model] ++ d).
    split; [cbn [walk app]; now rewrite ?app_nil_r|].
    split; [|discriminate].
    apply (prefix_app [ph_args; ph_process; ph_data; ph_model]).
    now apply prefix_app_r.
  - destruct (Hr eq_refl) as [-> Hq']. rewrite (H4 q Hq').
    eexists. eexists. split; [reflexivity|].
    split; [apply prefix_refl | reflexivity].
Qed.

Lemma marks_train w args model device train_loader optimizer epoch g :
  pick mark_of
    (events (train w args model device train_loader optimizer epoch) g)
  = [k_train model; k_iter train_loader].
Proof.
  rewrite events_train_eq, events_for_loader
    by (intros; apply uniform_train_body).
  rewrite pick_cons, (pick_cons mark_of (mkEvent 65 g _)).
  rewrite (pick_none mark_of (events (for_batches _ _ _ _ _ _) g));
    [reflexivity|].
  apply Forall_for_batches.
  - intros; apply uniform_train_body.
  - reflexivity.
  - intros. rewrite events_train_body.
    unfold train_body_events, forward_events.
    destruct (has_all_reduce_grads w optimizer); destruct (logs w args i);
      repeat constructor.
Qed.

Lemma marks_test w model device test_loader g :
  pick mark_of (events (test w model device test_loader) g)
  = [k_eval model; k_iter test_loader] ++
    (if dataset_len w (dataset test_loader) =? 0 then [] else [k_summary]) /\
  result (test w model device test_loader) g
  = if dataset_len w (dataset test_loader) =? 0 then inl ZeroDivisionError
    else inr tt.
Proof.
  unfold events, result. rewrite test_no_raise. cbn [fst snd].
  split; [|reflexivity].
  rewrite pick_cons.
  change (pick mark_of [mkEvent 95 g (ModelEval model)]) with [k_eval model].
  rewrite pick_cons_none by reflexivity. rewrite pick_cons.
  change (pick mark_of [mkEvent 99 true (LoaderIter test_loader)])
    with [k_iter test_loader].
  rewrite pick_app, (pick_none mark_of (events (for_batches _ _ _ _ _ _) true)).
  - now destruct (dataset_len w (dataset test_loader) =? 0).
  - apply Forall_for_batches.
    + intros; apply uniform_test_body.
    + reflexivity.
    + intros. rewrite events_test_body.
      unfold test_body_events, forward_events. repeat constructor.
Qed.

Lemma marks_epochs w :
  let plan :=
    flat_map (fun epoch =>
                [k_set_epoch epoch; k_train (ddp_model w);
                 k_iter (epoch_loader w epoch)] ++
                (if rank w =? 0
                 then [k_eval (inner_model w); k_iter (test_loader_of w);
                       k_summary]
                 else []) ++
                [k_scheduler_step])
      (range 1 (epochs (args w) + 1)) in
  prefix (pick mark_of (events (epochs_prog w) false)) plan /\
  (result (epochs_prog w) false = inr tt ->
   pick mark_of (events (epochs_prog w) false) = plan).
Proof.
  apply (project_epochs mark_of w
    (fun epoch => [k_set_epoch epoch])
    (fun epoch => [k_train (ddp_model w); k_iter (epoch_loader w epoch)])
    []
    [k_eval (inner_model w); k_iter (test_loader_of w); k_summary]
    [k_scheduler_step]).
  - reflexivity.
  - intros epoch. rewrite marks_train.
    split; [apply prefix_refl | reflexivity].
  - reflexivity.
  - intros _.
    destruct (marks_test w (inner_model w) (device_of w) (test_loader_of w)
                false) as [H1 H2].
    rewrite H1, H2.
    destruct (dataset_len w (dataset (test_loader_of w)) =? 0).
    + split; [now eexists | discriminate].
    + split; [apply prefix_refl | reflexivity].
  - reflexivity.
Qed.

Lemma marks_main_events w :
  let plan :=
    [ k_parse_args; k_init_process_group; k_loader (train_loader_of w);
      k_loader (test_loader_of w); k_wrap_ddp (inner_model w) ] ++
    flat_map (fun epoch =>
                [k_set_epoch epoch; k_train (ddp_model w);
                 k_iter (epoch_loader w epoch)] ++
                (if rank w =? 0
                 then [k_eval (inner_model w); k_iter (test_loader_of w);
                       k_summary]
                 else []) ++
                [k_scheduler_step])
      (range 1 (epochs (args w) + 1)) ++
    (if save_model (args w) && (rank w =? 0) then [k_save] else []) in
  prefix (pick mark_of (main_events w)) plan /\
  (main_result w = inr tt -> pick mark_of (main_events w) = plan).
Proof.
  intros plan. unfold main_events, loop_events. rewrite !pick_app.
  assert (H0 : pick mark_of parser_events = [k_parse_args]) by reflexivity.
  assert (H1 : pick mark_of (device_events w) = [k_init_process_group])
    by (segment_cases; reflexivity).
  assert (H2 : pick mark_of (data_events w)
               = if dataset1_bound w
                 then [k_loader (train_loader_of w);
                       k_loader (test_loader_of w)]
                 else []).
  { unfold data_events, dataset1_bound.
    destruct (local_rank (args w)) as [k|]; [|reflexivity].
    destruct (k =? 0); destruct (k >? 0); destruct (0 <=? k); reflexivity. }
  rewrite H0, H1, H2.
  assert (Hb : main_result w = inr tt -> dataset1_bound w = true).
  { unfold main_result, dataset1_bound.
    destruct (local_rank (args w)) as [k|]; [|discriminate].
    now destruct (0 <=? k). }
  assert (Hres : main_result w = inr tt ->
                 result (epochs_prog w) false = inr tt).
  { intros H. destruct (main_result_ok w H) as [k [_ [_ Hk]]]. exact Hk. }
  destruct (dataset1_bound w).
  2:{ split; [now eexists|]. intros H. specialize (Hb H). discriminate. }
  rewrite !pick_app.
  assert (H3 : pick mark_of (model_events w) = [k_wrap_ddp (inner_model w)])
    by (segment_cases; reflexivity).
  assert (H4 : pick mark_of (save_events w)
               = if save_model (args w) && (rank w =? 0) then [k_save]
                 else []).
  { unfold save_events, ev. destruct (save_model (args w));
      [destruct (rank w =? 0)|]; reflexivity. }
  rewrite H3. cbn [app]. unfold plan. cbn [app].
  destruct (marks_epochs w) as [Hp Hr].
  destruct (result (epochs_prog w) false) as [x|[]].
  - split; [|intros H; specialize (Hres H); discriminate].
    cbn [pick]. rewrite app_nil_r.
    apply (prefix_app [ k_parse_args; k_init_process_group;
                        k_loader (train_loader_of w);
                        k_loader (test_loader_of w);
                        k_wrap_ddp (inner_model w) ]).
    now apply prefix_app_r.
  - rewrite H4, (Hr eq_refl). split; [apply prefix_refl | reflexivity].
Qed.

(** C3, amended: [main] parses the arguments, then sets up the device and
    the process group, then builds the datasets and loaders, then the model
    and optimizer, each step completed before the next begins; then, epoch
    after epoch, it re-seeds the sampler and trains over the training
    loader, then (on rank 0) evaluates over the test loader and prints the
    summary, then steps the scheduler, so that every epoch but the first
    trains after the evaluation of the epoch before; the checkpoint comes
    last.  Every run goes through an initial part of these phases and of
    these calls, in this order, and a run that returns went through all of
    them. *)
Theorem main_step_order w r :
  let tr := fst (run_main w r) in
  let steps :=
    [ph_args; ph_process; ph_data; ph_model] ++
    flat_map (fun _ : Z => [ph_train; ph_eval; ph_scheduler])
      (range 1 (epochs (args w) + 1)) ++
    (if save_model (args w) then [ph_save] else []) in
  let calls :=
    [ k_parse_args; k_init_process_group; k_loader (train_loader_of w);
      k_loader (test_loader_of w); k_wrap_ddp (inner_model w) ] ++
    flat_map (fun epoch =>
                [k_set_epoch epoch; k_train (ddp_model w);
                 k_iter (with_sampler (train_loader_of w)
                           (set_epoch (train_sampler_of w) epoch))] ++
                (if rank w =? 0
                 then [k_eval (inner_model w); k_iter (test_loader_of w);
                       k_summary]
                 else []) ++
                [k_scheduler_step])
      (range 1 (epochs (args w) + 1)) ++
    (if save_model (args w) && (rank w =? 0) then [k_save] else []) in
  (exists done, phases true tr = Some done /\ prefix done steps) /\
  prefix (pick mark_of tr) calls /\
  (snd (run_main w r) = inr tt ->
   phases true tr = Some steps /\ pick mark_of tr = calls).
Proof.
  intros tr steps calls.
  pose proof (run_main_prefix w r) as Hp. fold tr in Hp.
  destruct (walk_main_events w) as [q [d [Hw [Hd Hall]]]].
  destruct (marks_main_events w) as [Hm1 Hm2].
  split; [|split].
  - destruct (walk_prefix true _ _ None q d Hp Hw) as [q' [d' [Hw' Hd']]].
    exists d'. unfold phases. rewrite Hw'. split; [reflexivity|].
    exact (prefix_trans _ _ _ Hd' Hd).
  - eapply prefix_trans; [apply prefix_pick; exact Hp | exact Hm1].
  - intros Hret. destruct (run_main_ok w r Hret) as [Htr Hres].
    fold tr in Htr. rewrite Htr. split.
    + unfold phases. rewrite Hw. cbn [option_map snd].
      now rewrite (Hall Hres).
    + exact (Hm2 Hres).
Qed.

Lemma main_step_order_witness :
  snd demo_run = inr tt /\
  phases true (fst demo_run) =
  Some [ ph_args; ph_process; ph_data; ph_model;
         ph_train; ph_eval; ph_scheduler;
         ph_train; ph_eval; ph_scheduler; ph_save ] /\
  List.length (pick mark_of (fst demo_run)) = 20%nat.
Proof.
  assert (H : snd demo_run = inr tt) by (vm_compute; reflexivity).
  split; [exact H|].
  destruct (proj2 (proj2 (main_step_order demo_world no_raise)) H)
    as [H1 H2].
  split; [exact H1|]. unfold demo_run. rewrite H2. reflexivity.
Defined.

